(** * steam-hour-boost: credential vault, reconnect scheduler and login
    controller

    A shallow embedding of [src/crypto.ts], [src/storage.ts] and
    [src/steamFunctions.ts].  JavaScript strings are sequences of UTF-16
    code units, buffers are sequences of bytes, the module-level [Map]s are
    finite maps, and the functions that touch the file system, the timers
    or the remote client are computations over an explicit world.  Of
    [login], the executor up to the registration of the listeners, the
    listeners and the timeout are embedded, each as a function of the
    variables of its closure; the callbacks that write to the owner run
    one layer above, with the module as a machine of calls, client events
    and timers on top.  The chat front end (bot.ts) is not embedded. *)

From Stdlib Require Import ZArith List Lia Bool.
From Stdlib Require Import Strings.String Strings.Ascii.
From Stdlib Require Import Floats.PrimFloat.
From stdpp Require Import base option list gmap.

Local Open Scope Z_scope.

(* ================================================================== *)
(** * JavaScript strings and Node buffers *)
(* ================================================================== *)

(** A JavaScript string: its UTF-16 code units. *)
Definition jsstring := list Z.

(** A Node [Buffer]: its bytes. *)
Definition buffer := list Z.

Definition byte_ok (b : Z) : Prop := 0 <= b < 256.

Definition is_bytes (b : buffer) : Prop := Forall byte_ok b.

(** A string literal of the source, as code units (ASCII only). *)
Definition js (s : string) : jsstring :=
  List.map (fun a => Z.of_N (N_of_ascii a)) (list_ascii_of_string s).

Arguments js : simpl never.

Definition is_high_surrogate (c : Z) : bool := (0xD800 <=? c) && (c <=? 0xDBFF).
Definition is_low_surrogate (c : Z) : bool := (0xDC00 <=? c) && (c <=? 0xDFFF).

(** The three bytes of U+FFFD, which Node writes for an unpaired
    surrogate. *)
Definition replacement_bytes : buffer := [0xEF; 0xBF; 0xBD].

Definition utf8_of_code_point (cp : Z) : buffer :=
  if cp <? 0x80 then [cp]
  else if cp <? 0x800 then [0xC0 + cp / 64; 0x80 + cp mod 64]
  else if cp <? 0x10000 then
    [0xE0 + cp / 4096; 0x80 + (cp / 64) mod 64; 0x80 + cp mod 64]
  else
    [0xF0 + cp / 262144; 0x80 + (cp / 4096) mod 64;
     0x80 + (cp / 64) mod 64; 0x80 + cp mod 64].

(** [Buffer.from(s, 'utf8')], also what [cipher.update(s, 'utf8')] and
    [pbkdf2Sync(s, ...)] feed to the primitive: a surrogate pair becomes one
    four-byte sequence, an unpaired surrogate becomes U+FFFD. *)
Fixpoint utf8_encode (s : jsstring) : buffer :=
  match s with
  | [] => []
  | c :: rest =>
      if is_high_surrogate c then
        match rest with
        | d :: rest' =>
            if is_low_surrogate d then
              utf8_of_code_point (0x10000 + (c - 0xD800) * 1024 + (d - 0xDC00))
                ++ utf8_encode rest'
            else replacement_bytes ++ utf8_encode rest
        | [] => replacement_bytes
        end
      else if is_low_surrogate c then replacement_bytes ++ utf8_encode rest
      else utf8_of_code_point c ++ utf8_encode rest
  end.

Definition is_continuation (b : Z) : bool := (0x80 <=? b) && (b <=? 0xBF).

(** Bounds of the second byte of a three- or four-byte sequence, by its
    lead byte (overlong forms, surrogates and values past U+10FFFF are
    excluded here). *)
Definition second_lower (lead : Z) : Z :=
  if lead =? 0xE0 then 0xA0 else if lead =? 0xF0 then 0x90 else 0x80.
Definition second_upper (lead : Z) : Z :=
  if lead =? 0xED then 0x9F else if lead =? 0xF4 then 0x8F else 0xBF.
Definition is_second (lead b : Z) : bool :=
  (second_lower lead <=? b) && (b <=? second_upper lead).

Definition utf16_of_code_point (cp : Z) : jsstring :=
  if cp <? 0x10000 then [cp]
  else [0xD800 + (cp - 0x10000) / 1024; 0xDC00 + (cp - 0x10000) mod 1024].

(** [buf.toString('utf8')]: every ill-formed sequence decodes to U+FFFD and
    decoding resumes at the byte that broke it. *)
Fixpoint utf8_decode (b : buffer) : jsstring :=
  match b with
  | [] => []
  | b0 :: r0 =>
      if (0 <=? b0) && (b0 <? 0x80) then b0 :: utf8_decode r0
      else if (0xC2 <=? b0) && (b0 <=? 0xDF) then
        match r0 with
        | b1 :: r1 =>
            if is_continuation b1
            then ((b0 - 0xC0) * 64 + (b1 - 0x80)) :: utf8_decode r1
            else 0xFFFD :: utf8_decode r0
        | [] => [0xFFFD]
        end
      else if (0xE0 <=? b0) && (b0 <=? 0xEF) then
        match r0 with
        | b1 :: r1 =>
            if is_second b0 b1 then
              match r1 with
              | b2 :: r2 =>
                  if is_continuation b2
                  then ((b0 - 0xE0) * 4096 + (b1 - 0x80) * 64 + (b2 - 0x80))
                         :: utf8_decode r2
                  else 0xFFFD :: utf8_decode r1
              | [] => [0xFFFD]
              end
            else 0xFFFD :: utf8_decode r0
        | [] => [0xFFFD]
        end
      else if (0xF0 <=? b0) && (b0 <=? 0xF4) then
        match r0 with
        | b1 :: r1 =>
            if is_second b0 b1 then
              match r1 with
              | b2 :: r2 =>
                  if is_continuation b2 then
                    match r2 with
                    | b3 :: r3 =>
                        if is_continuation b3
                        then utf16_of_code_point
                               ((b0 - 0xF0) * 262144 + (b1 - 0x80) * 4096
                                + (b2 - 0x80) * 64 + (b3 - 0x80))
                               ++ utf8_decode r3
                        else 0xFFFD :: utf8_decode r2
                    | [] => [0xFFFD]
                    end
                  else 0xFFFD :: utf8_decode r1
              | [] => [0xFFFD]
              end
            else 0xFFFD :: utf8_decode r0
        | [] => [0xFFFD]
        end
      else 0xFFFD :: utf8_decode r0
  end.

(** A string is well formed when every element is a code unit and every
    surrogate is half of a pair. *)
Fixpoint well_formed (s : jsstring) : bool :=
  match s with
  | [] => true
  | c :: rest =>
      (0 <=? c) && (c <? 0x10000) &&
      (if is_high_surrogate c then
         match rest with
         | d :: rest' => is_low_surrogate d && well_formed rest'
         | [] => false
         end
       else negb (is_low_surrogate c) && well_formed rest)
  end.

(** Other string methods of the source. *)
Fixpoint startsWith (s p : jsstring) : bool :=
  match p, s with
  | [], _ => true
  | _ :: _, [] => false
  | x :: p', y :: s' => (x =? y) && startsWith s' p'
  end.

Fixpoint includes (s sub : jsstring) : bool :=
  startsWith s sub ||
  match s with
  | [] => false
  | _ :: s' => includes s' sub
  end.

Definition endsWith (s suffix : jsstring) : bool :=
  startsWith (rev s) (rev suffix).

(** Values of [JSON.parse]. *)
#[warnings="-register-all"]
Inductive json : Type :=
| JNull
| JBool (b : bool)
| JNumber (n : float)
| JString (s : jsstring)
| JArray (items : list json)
| JObject (fields : list (jsstring * json)).

(** JavaScript truthiness. *)
Definition number_truthy (n : float) : bool :=
  negb (PrimFloat.eqb n 0%float || PrimFloat.is_nan n).

Definition string_truthy (s : jsstring) : bool :=
  match s with [] => false | _ :: _ => true end.

Definition truthy (v : json) : bool :=
  match v with
  | JNull => false
  | JBool b => b
  | JNumber n => number_truthy n
  | JString s => string_truthy s
  | JArray _ | JObject _ => true
  end.

(** An optional string property ([sharedSecret?: string]) used as a
    condition: [undefined] and the empty string are falsy. *)
Definition option_truthy (o : option jsstring) : bool :=
  match o with
  | Some s => string_truthy s
  | None => false
  end.

(** The errors the modelled calls can throw. *)
Inductive Exn : Type :=
| ENOENT | EISDIR | EPERM       (* fs *)
| CryptoError                    (* createCipheriv, setAuthTag, final *)
| SyntaxError                    (* JSON.parse *)
| TypeError.                     (* property of null *)

(** Own property of a parsed value: [data.key].  [inl] is the thrown error,
    [None] is [undefined]. *)
Fixpoint assoc (key : jsstring) (fields : list (jsstring * json)) : option json :=
  match fields with
  | [] => None
  | (k, v) :: rest => if bool_decide (k = key) then Some v else assoc key rest
  end.

Definition get_property (data : json) (key : jsstring) : Exn + option json :=
  match data with
  | JNull => inl TypeError
  | JObject fields => inr (assoc key fields)
  | _ => inr None
  end.

(** [v || null]. *)
Definition or_null (v : option json) : option json :=
  match v with
  | Some x => if truthy x then Some x else None
  | None => None
  end.

(* ================================================================== *)
(** * The library functions the repository calls *)
(* ================================================================== *)

(** Node's [crypto], [Buffer] base64 and [JSON], and [steam-totp], are not
    code of the repository: they are operations of this interface, and
    [NodeLaws] states what the proofs about [encrypt] and [decrypt] rely
    on. *)
Class NodeLib : Type := {
  (** State of the entropy source behind [crypto.randomBytes]. *)
  entropy : Type;
  randomBytes : Z -> entropy -> buffer * entropy;
  (** [crypto.pbkdf2Sync(password, salt, iterations, keylen, digest)]. *)
  pbkdf2Sync : buffer -> buffer -> Z -> Z -> jsstring -> buffer;
  (** [createCipheriv(alg, key, iv)], [update], [final], [getAuthTag]:
      ciphertext and tag, or the thrown error. *)
  cipher_seal : jsstring -> buffer -> buffer -> buffer -> option (buffer * buffer);
  (** [createDecipheriv(alg, key, iv)], [setAuthTag], [update], [final]:
      the plaintext, or the thrown error (bad key or tag length, tag
      mismatch). *)
  decipher_open : jsstring -> buffer -> buffer -> buffer -> buffer -> option buffer;
  (** [buf.toString('base64')] and [Buffer.from(s, 'base64')]. *)
  base64_encode : buffer -> jsstring;
  base64_decode : jsstring -> buffer;
  (** [JSON.parse] ([None]: it throws) and [JSON.stringify]. *)
  JSON_parse : jsstring -> option json;
  JSON_stringify : json -> jsstring;
  (** [SteamTotp.generateAuthCode(secret)] at a given time. *)
  generateAuthCode : jsstring -> float -> jsstring;
}.

(* ================================================================== *)
(** * crypto.ts *)
(* ================================================================== *)

Definition ALGORITHM : jsstring := js "aes-256-gcm".
Definition IV_LENGTH : Z := 16.
Definition SALT_LENGTH : Z := 64.
Definition TAG_LENGTH : Z := 16.
Definition KEY_LENGTH : Z := 32.
Definition ITERATIONS : Z := 100000.

(** [buffer.subarray(start, end)] and [buffer.subarray(start)] for
    [0 <= start <= end]. *)
Definition subarray (b : buffer) (start stop : Z) : buffer :=
  firstn (Z.to_nat (stop - start)) (skipn (Z.to_nat start) b).

Definition subarray_from (b : buffer) (start : Z) : buffer :=
  skipn (Z.to_nat start) b.

(** What the proofs about [encrypt] and [decrypt] assume of the library
    ([TestLibFacts.laws] is an instance). *)
Class NodeLaws (L : NodeLib) : Prop := {
  randomBytes_length : forall n g, 0 <= n ->
    Z.of_nat (length (randomBytes n g).1) = n;
  randomBytes_bytes : forall n g, is_bytes (randomBytes n g).1;
  pbkdf2Sync_length : forall pw salt iters keylen,
    0 <= keylen ->
    Z.of_nat (length (pbkdf2Sync pw salt iters keylen (js "sha512"))) = keylen;
  pbkdf2Sync_bytes : forall pw salt iters keylen,
    is_bytes (pbkdf2Sync pw salt iters keylen (js "sha512"));
  (** AES-256-GCM with a 32-byte key and a 16-byte IV seals every byte
      string, with a 16-byte tag, and opens what it sealed. *)
  seal_open : forall key iv pt,
    is_bytes key -> Z.of_nat (length key) = 32 ->
    is_bytes iv -> Z.of_nat (length iv) = 16 ->
    is_bytes pt ->
    exists ct tag,
      cipher_seal (js "aes-256-gcm") key iv pt = Some (ct, tag) /\
      is_bytes ct /\ is_bytes tag /\ Z.of_nat (length tag) = 16 /\
      decipher_open (js "aes-256-gcm") key iv tag ct = Some pt;
  base64_roundtrip : forall b, is_bytes b -> base64_decode (base64_encode b) = b;
}.

Section Crypto.
Context {L : NodeLib}.

(** [encrypt(text, password)]: the entropy source is threaded through;
    [None] is a thrown error. *)
Definition encrypt (text password : jsstring) (g : entropy)
  : option jsstring * entropy :=
  let '(salt, g1) := randomBytes SALT_LENGTH g in
  let key := pbkdf2Sync (utf8_encode password) salt ITERATIONS KEY_LENGTH (js "sha512") in
  let '(iv, g2) := randomBytes IV_LENGTH g1 in
  match cipher_seal ALGORITHM key iv (utf8_encode text) with
  | Some (encrypted, tag) =>
      (Some (base64_encode (salt ++ iv ++ tag ++ encrypted)), g2)
  | None => (None, g2)
  end.

(** [decrypt(encryptedData, password)]; [None] is a thrown error. *)
Definition decrypt (encryptedData password : jsstring) : option jsstring :=
  let buffer := base64_decode encryptedData in
  let salt := subarray buffer 0 SALT_LENGTH in
  let iv := subarray buffer SALT_LENGTH (SALT_LENGTH + IV_LENGTH) in
  let tag := subarray buffer (SALT_LENGTH + IV_LENGTH)
               (SALT_LENGTH + IV_LENGTH + TAG_LENGTH) in
  let encrypted := subarray_from buffer (SALT_LENGTH + IV_LENGTH + TAG_LENGTH) in
  let key := pbkdf2Sync (utf8_encode password) salt ITERATIONS KEY_LENGTH (js "sha512") in
  match decipher_open ALGORITHM key iv tag encrypted with
  | Some plain => Some (utf8_decode plain)
  | None => None
  end.
End Crypto.

(* ================================================================== *)
(** * types.ts *)
(* ================================================================== *)

Inductive GuardType : Type := guard_none | guard_mobile | guard_email | guard_secret.

Inductive PersonaStatus : Type := Online | Away | Invisible | Offline.

(** An element of [games: (number | string)[]]. *)
Inductive selector : Type :=
| AppID (n : float)
| CustomName (s : jsstring).

Record Account : Type := mkAccount {
  username : jsstring;
  password : jsstring;
  sharedSecret : option jsstring;
  guardType : option GuardType;
  games : list selector;
  status : PersonaStatus;
  ownerId : float;
}.

(* ================================================================== *)
(** * The world the functions run in *)
(* ================================================================== *)

(** An entry of a directory: a regular file with its bytes, or a
    subdirectory; both with [mtimeMs]. *)
Inductive Dirent : Type :=
| File (content : buffer) (mtimeMs : float)
| Directory (mtimeMs : float).

Definition mtime (d : Dirent) : float :=
  match d with File _ t => t | Directory t => t end.

Definition isDirectory (d : Dirent) : bool :=
  match d with File _ _ => false | Directory _ => true end.

(** What [steamUser.logOn] receives. *)
Record LogOnOptions : Type := mkLogOnOptions {
  rememberPassword : bool;
  machineName : jsstring;
  refreshToken : option json;
  accountName : option jsstring;
  opt_password : option jsstring;
  twoFactorCode : option jsstring;
}.

(** An element of the array [gamesPlayed] receives. *)
Inductive GameEntry : Type :=
| NonSteamGame (game_id : jsstring) (game_extra_info : jsstring)
| SteamGame (appId : float).

Inductive ClientCall : Type :=
| LogOn (options : LogOnOptions)
| LogOff
| SetPersona (s : PersonaStatus)
| GamesPlayed (entries : list GameEntry).

(** The value a [login] promise resolves with. *)
Record LoginResult : Type := mkLoginResult {
  success : bool;
  error : option jsstring;
}.

(** What the callback of an armed [setTimeout] will do. *)
Inductive Task : Type :=
| ReconnectTask (account : Account)   (* the callback of scheduleReconnect *)
| LoginTimeoutTask (client : nat).    (* the 30 s timeout of login *)

(** A [Timeout] object stays what it is after [clearTimeout]: the handle
    is never given to another timer. *)
Inductive TimerState : Type := Armed | Cleared.

Record Timer : Type := mkTimer {
  task : Task;
  delay : Z;
  state : TimerState;
}.

(** A [SteamUser] created by [login], with what the closures of that call
    share: the listeners, the promise and the timeout. *)
Record Client : Type := mkClient {
  cl_account : Account;
  cl_listening : bool;
  cl_promise : option LoginResult;   (* [None]: still pending *)
  cl_timeout : option nat;
}.

(** The lines written to the console. *)
Inductive LogLine : Type :=
| LogCleaned (n : nat)
| LogInvalidToken (u : jsstring)
| LogAlreadyScheduled (u : jsstring)
| LogCannotReconnect (u : jsstring)
| LogScheduling (u : jsstring)
| LogTimerSet (u : jsstring)
| LogUsingSavedToken (u : jsstring)
| LogLoginError (u : jsstring) (message : jsstring)
| LogDeletedToken (u : jsstring)
| LogSavingToken (u : jsstring)
| LogLoggedIn (u : jsstring)
| LogCustomGame (name u : jsstring)
| LogGame (name : jsstring) (appId : float) (u : jsstring)
| LogUpdatedCustom (name u : jsstring)
| LogUpdatedGame (name : jsstring) (appId : float) (u : jsstring)
| LogDecryptAccountsFailed.

(** What a computation does to the outside, in order. *)
Inductive Event : Type :=
| Console (line : LogLine)
| Call (client : nat) (c : ClientCall).

(** The outcome of a call: its value, or the error it throws. *)
Inductive Res (A : Type) : Type :=
| Ok (a : A)
| Throw (e : Exn).
Arguments Ok {A} a.
Arguments Throw {A} e.

Section World.
Context {L : NodeLib}.

Record World : Type := mkWorld {
  (** [let encryptionKey] of steamFunctions.ts *)
  encryptionKey : jsstring;
  (** the entries of [TOKENS_DIR]; [None] when the directory is missing *)
  tokensDir : option (gmap jsstring Dirent);
  (** [DATA_FILE] of storage.ts *)
  dataFile : option Dirent;
  activeClients : gmap jsstring nat;
  accountsToReconnect : gmap jsstring Account;
  reconnectTimers : gmap jsstring nat;
  (** the timeouts armed in the event loop, by handle *)
  timers : gmap nat Timer;
  (** the [SteamUser] objects created so far, by handle *)
  clients : gmap nat Client;
  rng : entropy;
  (** [Date.now()] *)
  clock : float;
}.

Definition set_tokensDir (d : option (gmap jsstring Dirent)) (w : World) : World :=
  mkWorld (encryptionKey w) d (dataFile w) (activeClients w)
    (accountsToReconnect w) (reconnectTimers w) (timers w) (clients w)
    (rng w) (clock w).

Definition set_activeClients (m : gmap jsstring nat) (w : World) : World :=
  mkWorld (encryptionKey w) (tokensDir w) (dataFile w) m
    (accountsToReconnect w) (reconnectTimers w) (timers w) (clients w)
    (rng w) (clock w).

Definition set_accountsToReconnect (m : gmap jsstring Account) (w : World) : World :=
  mkWorld (encryptionKey w) (tokensDir w) (dataFile w) (activeClients w)
    m (reconnectTimers w) (timers w) (clients w) (rng w) (clock w).

Definition set_reconnectTimers (m : gmap jsstring nat) (w : World) : World :=
  mkWorld (encryptionKey w) (tokensDir w) (dataFile w) (activeClients w)
    (accountsToReconnect w) m (timers w) (clients w) (rng w) (clock w).

Definition set_timers (m : gmap nat Timer) (w : World) : World :=
  mkWorld (encryptionKey w) (tokensDir w) (dataFile w) (activeClients w)
    (accountsToReconnect w) (reconnectTimers w) m (clients w) (rng w) (clock w).

Definition set_clients (m : gmap nat Client) (w : World) : World :=
  mkWorld (encryptionKey w) (tokensDir w) (dataFile w) (activeClients w)
    (accountsToReconnect w) (reconnectTimers w) (timers w) m (rng w) (clock w).

Definition set_rng (g : entropy) (w : World) : World :=
  mkWorld (encryptionKey w) (tokensDir w) (dataFile w) (activeClients w)
    (accountsToReconnect w) (reconnectTimers w) (timers w) (clients w)
    g (clock w).

(** Computations: the outcome, the next world, and the events
    emitted. *)
Definition M (A : Type) : Type := World -> Res A * World * list Event.

Definition ret {A} (a : A) : M A := fun w => (Ok a, w, []).

Definition throw {A} (e : Exn) : M A := fun w => (Throw e, w, []).

Definition bind {A B} (m : M A) (k : A -> M B) : M B :=
  fun w =>
    match m w with
    | (Ok a, w1, t1) =>
        match k a w1 with
        | (r, w2, t2) => (r, w2, t1 ++ t2)
        end
    | (Throw e, w1, t1) => (Throw e, w1, t1)
    end.

(** [try { m } catch (e) { handler e }] *)
Definition try_catch {A} (m : M A) (handler : Exn -> M A) : M A :=
  fun w =>
    match m w with
    | (Ok a, w1, t1) => (Ok a, w1, t1)
    | (Throw e, w1, t1) =>
        match handler e w1 with
        | (r, w2, t2) => (r, w2, t1 ++ t2)
        end
    end.

Definition get : M World := fun w => (Ok w, w, []).
Definition gets {A} (f : World -> A) : M A := fun w => (Ok (f w), w, []).
Definition modify (f : World -> World) : M unit := fun w => (Ok tt, f w, []).
Definition emit (e : Event) : M unit := fun w => (Ok tt, w, [e]).
Definition console_log (l : LogLine) : M unit := emit (Console l).
Definition when (c : bool) (m : M unit) : M unit := if c then m else ret tt.

(** A library call that may throw. *)
Definition lift_option {A} (e : Exn) (o : option A) : M A :=
  match o with Some a => ret a | None => throw e end.

Definition lift_sum {A} (s : Exn + A) : M A :=
  match s with inr a => ret a | inl e => throw e end.
End World.

Declare Scope M_scope.
Delimit Scope M_scope with M.
Notation "x <- m ;; k" := (bind m (fun x => k))
  (at level 100, m at next level, k at level 200, right associativity) : M_scope.
Notation "m ;; k" := (bind m (fun _ => k))
  (at level 100, k at level 200, right associativity) : M_scope.
Open Scope M_scope.

(** The result, the world and the events of a run. *)
Definition result {L : NodeLib} {A} (o : Res A * World * list Event) : Res A := o.1.1.
Definition world {L : NodeLib} {A} (o : Res A * World * list Event) : World := o.1.2.
Definition events {L : NodeLib} {A} (o : Res A * World * list Event) : list Event := o.2.

(* ================================================================== *)
(** * The calls to Node's [fs] *)
(* ================================================================== *)

(** Paths are [path.join(TOKENS_DIR, name)] and [DATA_FILE]: an entry of the
    tokens directory is addressed by its name, the accounts file is the one
    slot [dataFile].  A call throws when the entry is missing or of the
    wrong kind, and succeeds otherwise. *)
Section Fs.
Context {L : NodeLib}.

(** [fs.existsSync(TOKENS_DIR)] *)
Definition existsSync_dir : M bool :=
  gets (fun w => match tokensDir w with Some _ => true | None => false end).

Definition lookup_entry (name : jsstring) (w : World) : option Dirent :=
  match tokensDir w with
  | Some d => d !! name
  | None => None
  end.

(** [fs.existsSync(path.join(TOKENS_DIR, name))] *)
Definition existsSync (name : jsstring) : M bool :=
  gets (fun w => match lookup_entry name w with Some _ => true | None => false end).

(** [fs.statSync(path.join(TOKENS_DIR, name))] *)
Definition statSync (name : jsstring) : M Dirent :=
  e <- gets (lookup_entry name) ;;
  lift_option ENOENT e.

(** [fs.readdirSync(TOKENS_DIR)] *)
Definition readdirSync : M (list jsstring) :=
  d <- gets tokensDir ;;
  match d with
  | Some d => ret (List.map fst (map_to_list d))
  | None => throw ENOENT
  end.

(** [fs.readFileSync(path.join(TOKENS_DIR, name), 'utf8')] *)
Definition readFileSync (name : jsstring) : M jsstring :=
  e <- gets (lookup_entry name) ;;
  match e with
  | Some (File content _) => ret (utf8_decode content)
  | Some (Directory _) => throw EISDIR
  | None => throw ENOENT
  end.

(** [fs.writeFileSync(path.join(TOKENS_DIR, name), data, 'utf8')] *)
Definition writeFileSync (name : jsstring) (data : jsstring) : M unit :=
  w <- get ;;
  match tokensDir w with
  | None => throw ENOENT
  | Some d =>
      match d !! name with
      | Some (Directory _) => throw EISDIR
      | _ => modify (set_tokensDir
                       (Some (<[name := File (utf8_encode data) (clock w)]> d)))
      end
  end.

(** [fs.unlinkSync(path.join(TOKENS_DIR, name))] *)
Definition unlinkSync (name : jsstring) : M unit :=
  d <- gets tokensDir ;;
  match d with
  | None => throw ENOENT
  | Some d =>
      match d !! name with
      | Some (File _ _) => modify (set_tokensDir (Some (delete name d)))
      | Some (Directory _) => throw EPERM
      | None => throw ENOENT
      end
  end.

(** [fs.rmSync(path.join(TOKENS_DIR, name), { recursive: true })] *)
Definition rmSync_recursive (name : jsstring) : M unit :=
  d <- gets tokensDir ;;
  match d with
  | None => throw ENOENT
  | Some d =>
      match d !! name with
      | Some _ => modify (set_tokensDir (Some (delete name d)))
      | None => throw ENOENT
      end
  end.

(** [fs.existsSync(DATA_FILE)] and [fs.readFileSync(DATA_FILE, 'utf8')] *)
Definition existsSync_data : M bool :=
  gets (fun w => match dataFile w with Some _ => true | None => false end).

Definition readFileSync_data : M jsstring :=
  e <- gets dataFile ;;
  match e with
  | Some (File content _) => ret (utf8_decode content)
  | Some (Directory _) => throw EISDIR
  | None => throw ENOENT
  end.

(** [encrypt] and [decrypt] as calls: the first draws from the entropy
    source of the world. *)
Definition call_encrypt (text password : jsstring) : M jsstring :=
  fun w =>
    match encrypt text password (rng w) with
    | (Some c, g) => (Ok c, set_rng g w, [])
    | (None, g) => (Throw CryptoError, set_rng g w, [])
    end.

Definition call_decrypt (encryptedData password : jsstring) : M jsstring :=
  lift_option CryptoError (decrypt encryptedData password).

Definition call_JSON_parse (text : jsstring) : M json :=
  lift_option SyntaxError (JSON_parse text).
End Fs.

(* ================================================================== *)
(** * storage.ts *)
(* ================================================================== *)

Section Storage.
Context {L : NodeLib}.

(** [class SecureStorage]: its one field. *)
Record SecureStorage : Type := mkSecureStorage {
  storage_encryptionKey : jsstring;
}.

(** [loadAccounts()]: what [JSON.parse] returned, or the empty array. *)
Definition loadAccounts (this : SecureStorage) : M json :=
  present <- existsSync_data ;;
  if negb present then ret (JArray [])
  else
    try_catch
      (encrypted <- readFileSync_data ;;
       decrypted <- call_decrypt encrypted (storage_encryptionKey this) ;;
       call_JSON_parse decrypted)
      (fun _ =>
         console_log LogDecryptAccountsFailed ;;
         ret (JArray [])).
End Storage.

(* ================================================================== *)
(** * steamFunctions.ts *)
(* ================================================================== *)

(** The retention window of [cleanCache], in milliseconds. *)
Definition WEEK_MS : float := (7 * 24 * 60 * 60 * 1000)%float.

(** [RECONNECT_DELAY], and the login timeout, in milliseconds. *)
Definition RECONNECT_DELAY : Z := 60 * 60 * 1000.
Definition LOGIN_TIMEOUT : Z := 30000.

(** The name of the token file of an account inside [TOKENS_DIR]:
    [`${username}.token`]. *)
Definition tokenPath (username : jsstring) : jsstring := username ++ js ".token".
Arguments tokenPath : simpl never.

(** The two tests of the ['error'] listener on [error.message]. *)
Definition is_credential_error (message : jsstring) : bool :=
  includes message (js "InvalidPassword") ||
  includes message (js "AccessDenied") ||
  includes message (js "Expired").

Definition is_temporary_error (message : jsstring) : bool :=
  includes message (js "LoggedInElsewhere") ||
  includes message (js "LogonSessionReplaced") ||
  includes message (js "RateLimitExceeded").

(** [account.guardType === 'none'] *)
Definition is_guard_none (g : option GuardType) : bool :=
  match g with Some guard_none => true | _ => false end.

(** [games.find(g => typeof g === 'string')] *)
Fixpoint find_string (games : list selector) : option jsstring :=
  match games with
  | [] => None
  | CustomName s :: _ => Some s
  | AppID _ :: rest => find_string rest
  end.

(** [games.filter(g => typeof g === 'number')] *)
Fixpoint filter_number (games : list selector) : list float :=
  match games with
  | [] => []
  | AppID n :: rest => n :: filter_number rest
  | CustomName _ :: rest => filter_number rest
  end.

(** [getGameName(appId)] against the answers of the store API ([None]: the
    request failed or the answer has no name). *)
Definition getGameName (store : float -> option jsstring) (appId : float) : jsstring :=
  match store appId with
  | Some name => name
  | None => js "Unknown"
  end.

Section Steam.
Context {L : NodeLib}.

Definition setEncryptionKey (key : jsstring) : M unit :=
  modify (fun w =>
    mkWorld key (tokensDir w) (dataFile w) (activeClients w)
      (accountsToReconnect w) (reconnectTimers w) (timers w) (clients w)
      (rng w) (clock w)).

(** [setTimeout(callback, delay)] and [clearTimeout(timer)]. *)
Definition setTimeout (t : Task) (ms : Z) : M nat :=
  w <- get ;;
  let handle := fresh (dom (timers w)) in
  modify (set_timers (<[handle := mkTimer t ms Armed]> (timers w))) ;;
  ret handle.

Definition clearTimeout (handle : nat) : M unit :=
  modify (fun w => set_timers
    (alter (fun t => mkTimer (task t) (delay t) Cleared) handle (timers w)) w).

(** ** cleanCache *)

(** The body of the loop, for one name of the listing; [cleaned] is the
    counter. *)
Definition cleanCache_step (cleaned : nat) (file : jsstring) : M nat :=
  stat <- statSync file ;;
  if endsWith file (js ".token") then ret cleaned
  else
    now <- gets clock ;;
    let isOld := PrimFloat.ltb WEEK_MS (PrimFloat.sub now (mtime stat)) in
    let isCacheFile :=
      includes file (js "sentry") || includes file (js "machine")
      || endsWith file (js ".bin") in
    if isCacheFile || isOld then
      try_catch
        ((if isDirectory stat then rmSync_recursive file else unlinkSync file) ;;
         ret (S cleaned))
        (fun _ => ret cleaned)
    else ret cleaned.

Fixpoint cleanCache_loop (files : list jsstring) (cleaned : nat) : M nat :=
  match files with
  | [] => ret cleaned
  | file :: rest =>
      cleaned' <- cleanCache_step cleaned file ;;
      cleanCache_loop rest cleaned'
  end.

Definition cleanCache : M unit :=
  present <- existsSync_dir ;;
  if negb present then ret tt
  else
    files <- readdirSync ;;
    cleaned <- cleanCache_loop files 0%nat ;;
    when (0 <? cleaned)%nat (console_log (LogCleaned cleaned)).

(** ** The token vault *)

Definition saveToken (username token : jsstring) : M unit :=
  key <- gets encryptionKey ;;
  if negb (string_truthy key) then ret tt
  else
    encrypted <- call_encrypt
      (JSON_stringify (JObject [(js "refreshToken", JString token)])) key ;;
    writeFileSync (tokenPath username) encrypted.

Definition loadToken (username : jsstring) : M (option json) :=
  key <- gets encryptionKey ;;
  if negb (string_truthy key) then ret None
  else
    present <- existsSync (tokenPath username) ;;
    if negb present then ret None
    else
      try_catch
        (encrypted <- readFileSync (tokenPath username) ;;
         decrypted <- call_decrypt encrypted key ;;
         data <- call_JSON_parse decrypted ;;
         v <- lift_sum (get_property data (js "refreshToken")) ;;
         ret (or_null v))
        (fun _ =>
           console_log (LogInvalidToken username) ;;
           unlinkSync (tokenPath username) ;;
           ret None).

Definition deleteToken (username : jsstring) : M unit :=
  present <- existsSync (tokenPath username) ;;
  when present (unlinkSync (tokenPath username)).

Definition hasToken (username : jsstring) : M bool :=
  t <- loadToken username ;;
  ret (match t with Some _ => true | None => false end).

(** ** The reconnect scheduler *)

Definition isOnline (username : jsstring) : M bool :=
  gets (fun w => match activeClients w !! username with
                 | Some _ => true | None => false end).

Definition isPendingReconnect (username : jsstring) : M bool :=
  gets (fun w => match reconnectTimers w !! username with
                 | Some _ => true | None => false end).

Definition scheduleReconnect (account : Account) : M unit :=
  scheduled <- isPendingReconnect (username account) ;;
  if scheduled then console_log (LogAlreadyScheduled (username account))
  else
    tokenExists <- hasToken (username account) ;;
    let canAutoReconnect :=
      tokenExists || option_truthy (sharedSecret account)
      || is_guard_none (guardType account) in
    if negb canAutoReconnect
    then console_log (LogCannotReconnect (username account))
    else
      console_log (LogScheduling (username account)) ;;
      modify (fun w => set_accountsToReconnect
                (<[username account := account]> (accountsToReconnect w)) w) ;;
      timer <- setTimeout (ReconnectTask account) RECONNECT_DELAY ;;
      modify (fun w => set_reconnectTimers
                (<[username account := timer]> (reconnectTimers w)) w) ;;
      console_log (LogTimerSet (username account)).

Definition cancelReconnect (username : jsstring) : M unit :=
  timer <- gets (fun w => reconnectTimers w !! username) ;;
  match timer with
  | Some t =>
      clearTimeout t ;;
      modify (fun w => set_reconnectTimers (delete username (reconnectTimers w)) w)
  | None => ret tt
  end ;;
  modify (fun w => set_accountsToReconnect
            (delete username (accountsToReconnect w)) w).

(** ** login *)

(** [new SteamUser(...)]: a fresh handle, with no listener yet. *)
Definition new_SteamUser (account : Account) : M nat :=
  w <- get ;;
  let handle := fresh (dom (clients w)) in
  modify (set_clients (<[handle := mkClient account false None None]> (clients w))) ;;
  ret handle.

Definition removeAllListeners (client : nat) : M unit :=
  modify (fun w => set_clients
    (alter (fun c => mkClient (cl_account c) false (cl_promise c) (cl_timeout c))
       client (clients w)) w).

(** [resolve(r)]: it settles the promise of the call once. *)
Definition resolve (client : nat) (r : LoginResult) : M unit :=
  modify (fun w => set_clients
    (alter (fun c =>
              match cl_promise c with
              | Some _ => c
              | None => mkClient (cl_account c) (cl_listening c) (Some r) (cl_timeout c)
              end) client (clients w)) w).

(** Lines 212 to 232 of [login]: the object passed to [logOn]. *)
Definition build_logOnOptions (account : Account) : M LogOnOptions :=
  savedToken <- loadToken (username account) ;;
  if match savedToken with Some token => truthy token | None => false end
  then
    console_log (LogUsingSavedToken (username account)) ;;
    ret (mkLogOnOptions true (js "t.me/sensejke") savedToken None None None)
  else
    now <- gets clock ;;
    ret (mkLogOnOptions true (js "t.me/sensejke") None
           (Some (username account)) (Some (password account))
           (match sharedSecret account with
            | Some secret =>
                if string_truthy secret
                then Some (generateAuthCode secret now) else None
            | None => None
            end)).

(** The executor of the promise [login] returns, up to the registration
    of the listeners; the result is the handle of the new client. *)
Definition login (account : Account) : M nat :=
  cancelReconnect (username account) ;;
  existing <- gets (fun w => activeClients w !! username account) ;;
  match existing with
  | Some c =>
      removeAllListeners c ;;
      emit (Call c LogOff) ;;
      modify (fun w => set_activeClients (delete (username account) (activeClients w)) w)
  | None => ret tt
  end ;;
  steamUser <- new_SteamUser account ;;
  logOnOptions <- build_logOnOptions account ;;
  emit (Call steamUser (LogOn logOnOptions)) ;;
  timeout <- setTimeout (LoginTimeoutTask steamUser) LOGIN_TIMEOUT ;;
  modify (fun w => set_clients
            (<[steamUser := mkClient account true None (Some timeout)]> (clients w)) w) ;;
  ret steamUser.

(** The listener of ['error'] that [login] registers on [steamUser],
    with the variables of its closure. *)
Definition login_on_error (steamUser : nat) (account : Account)
    (timeout : nat) (message : jsstring) : M unit :=
  clearTimeout timeout ;;
  console_log (LogLoginError (username account) message) ;;
  modify (fun w => set_activeClients (delete (username account) (activeClients w)) w) ;;
  when (is_credential_error message)
    (deleteToken (username account) ;;
     console_log (LogDeletedToken (username account))) ;;
  removeAllListeners steamUser ;;
  when (is_temporary_error message) (scheduleReconnect account) ;;
  resolve steamUser (mkLoginResult false (Some message)).

(** The listener of ['refreshToken']. *)
Definition login_on_refreshToken (account : Account) (token : jsstring) : M unit :=
  console_log (LogSavingToken (username account)) ;;
  saveToken (username account) token.

(** ** playGames and updateGames *)


(** The loop over [appIds] of both functions: each one is pushed, then
    its name is looked up and logged with the line of the caller. *)
Fixpoint push_appIds (store : float -> option jsstring)
    (line : jsstring -> float -> LogLine)
    (appIds : list float) (gamesToPlay : list GameEntry) : M (list GameEntry) :=
  match appIds with
  | [] => ret gamesToPlay
  | appId :: rest =>
      console_log (line (getGameName store appId) appId) ;;
      push_appIds store line rest (gamesToPlay ++ [SteamGame appId])
  end.

Definition playGames (store : float -> option jsstring) (steamUser : nat)
    (account : Account) : M unit :=
  let customGame := find_string (games account) in
  let appIds := filter_number (games account) in
  gamesToPlay <-
    match customGame with
    | Some name =>
        if string_truthy name then
          console_log (LogCustomGame name (username account)) ;;
          ret [NonSteamGame (js "15190414816125648896") name]
        else ret []
    | None => ret []
    end ;;
  gamesToPlay <- push_appIds store
    (fun name appId => LogGame name appId (username account)) appIds gamesToPlay ;;
  emit (Call steamUser (GamesPlayed gamesToPlay)).

Definition updateGames (store : float -> option jsstring) (username : jsstring)
    (selectors : list selector) : M bool :=
  client <- gets (fun w => activeClients w !! username) ;;
  match client with
  | None => ret false
  | Some c =>
      let customGame := find_string selectors in
      let appIds := filter_number selectors in
      gamesToPlay <-
        match customGame with
        | Some name =>
            if string_truthy name then
              console_log (LogUpdatedCustom name username) ;;
              ret [NonSteamGame (js "15190414816125648896") name]
            else ret []
        | None => ret []
        end ;;
      gamesToPlay <- push_appIds store
        (fun name appId => LogUpdatedGame name appId username) appIds gamesToPlay ;;
      emit (Call c (GamesPlayed gamesToPlay)) ;;
      ret true
  end.

(** The listener of ['loggedOn'] that [login] registers, with the
    variables of its closure. *)
Definition login_on_loggedOn (store : float -> option jsstring) (steamUser : nat)
    (account : Account) (timeout : nat) : M unit :=
  clearTimeout timeout ;;
  console_log (LogLoggedIn (username account)) ;;
  modify (fun w => set_activeClients
            (<[username account := steamUser]> (activeClients w)) w) ;;
  emit (Call steamUser (SetPersona (status account))) ;;
  playGames store steamUser account ;;
  resolve steamUser (mkLoginResult true None).
End Steam.

(* ================================================================== *)
(** * A small library to run the model on *)
(* ================================================================== *)

(** A deterministic stand-in for the library: a counter for the entropy
    source, a keyed shift for the cipher with a checksum tag, two
    hexadecimal digits per byte for the text encoding, and a parser that
    knows three shapes.  It satisfies [NodeLaws] and is what the examples
    and the instances of the theorems are evaluated on. *)
Module TestLib.

Definition sum_bytes (b : buffer) : Z := fold_right Z.add 0 b.

Fixpoint counter_bytes (n : nat) (start : Z) : buffer :=
  match n with
  | O => []
  | S n' => (start mod 256) :: counter_bytes n' (start + 1)
  end.

Definition randomBytes (n : Z) (g : Z) : buffer * Z :=
  (counter_bytes (Z.to_nat n) g, g + n).

Definition pbkdf2Sync (pw salt : buffer) (iterations keylen : Z) (digest : jsstring)
  : buffer :=
  counter_bytes (Z.to_nat keylen) (sum_bytes pw + sum_bytes salt + iterations).

Definition shift_of (key : buffer) : Z := sum_bytes key mod 256.

Definition checksum (key iv ct : buffer) : buffer :=
  repeat ((sum_bytes key + sum_bytes iv + sum_bytes ct) mod 256) 16.

Definition key_ok (alg : jsstring) (key : buffer) : bool :=
  bool_decide (alg = js "aes-256-gcm") && (Z.of_nat (length key) =? 32).

Definition cipher_seal (alg : jsstring) (key iv pt : buffer)
  : option (buffer * buffer) :=
  if key_ok alg key then
    let ct := List.map (fun b => (b + shift_of key) mod 256) pt in
    Some (ct, checksum key iv ct)
  else None.

Definition decipher_open (alg : jsstring) (key iv tag ct : buffer) : option buffer :=
  if key_ok alg key && bool_decide (tag = checksum key iv ct)
  then Some (List.map (fun c => (c - shift_of key) mod 256) ct)
  else None.

Definition hex_digit (d : Z) : Z := if d <? 10 then 48 + d else 87 + d.
Definition hex_value (c : Z) : Z := if c <? 58 then c - 48 else c - 87.

Fixpoint hex_encode (b : buffer) : jsstring :=
  match b with
  | [] => []
  | x :: rest => hex_digit (x / 16) :: hex_digit (x mod 16) :: hex_encode rest
  end.

Fixpoint hex_decode (s : jsstring) : buffer :=
  match s with
  | hi :: lo :: rest => (hex_value hi * 16 + hex_value lo) :: hex_decode rest
  | _ => []
  end.

(** [{"refreshToken":"..."}] is written as an opening brace followed by
    the token. *)
Definition JSON_stringify (v : json) : jsstring :=
  match v with
  | JObject [(_, JString s)] => 123 :: s
  | JArray [] => js "[]"
  | _ => js "null"
  end.

Definition JSON_parse (s : jsstring) : option json :=
  match s with
  | 123 :: token => Some (JObject [(js "refreshToken", JString token)])
  | _ =>
      if bool_decide (s = js "null") then Some JNull
      else if bool_decide (s = js "[]") then Some (JArray [])
      else None
  end.

Definition generateAuthCode (secret : jsstring) (now : float) : jsstring :=
  firstn 5 (secret ++ js "00000").

Definition lib : NodeLib :=
  Build_NodeLib Z randomBytes pbkdf2Sync cipher_seal decipher_open
    hex_encode hex_decode JSON_parse JSON_stringify generateAuthCode.
End TestLib.

(* ================================================================== *)
(** * Vocabulary of the statements *)
(* ================================================================== *)

Section Vocabulary.
Context {L : NodeLib}.

(** What the [try] block of [loadToken] computes from the bytes of a
    token file: [None] when decryption, parsing or the property access
    throws, otherwise the value returned. *)
Definition read_token (key : jsstring) (content : buffer) : option (option json) :=
  match decrypt (utf8_decode content) key with
  | Some decrypted =>
      match JSON_parse decrypted with
      | Some data =>
          match get_property data (js "refreshToken") with
          | inr v => Some (or_null v)
          | inl _ => None
          end
      | None => None
      end
  | None => None
  end.

(** The world without the entry [name] of the tokens directory. *)
Definition remove_entry (name : jsstring) (w : World) : World :=
  match tokensDir w with
  | Some d => set_tokensDir (Some (delete name d)) w
  | None => w
  end.

(** The entry of the token file is not a subdirectory. *)
Definition token_not_directory (u : jsstring) (w : World) : Prop :=
  forall t, lookup_entry (tokenPath u) w <> Some (Directory t).

(** The saved token of an account, as [loadToken] would return it. *)
Definition saved_token (u : jsstring) (w : World) : option json :=
  if string_truthy (encryptionKey w) then
    match lookup_entry (tokenPath u) w with
    | Some (File c _) =>
        match read_token (encryptionKey w) c with
        | Some v => v
        | None => None
        end
    | _ => None
    end
  else None.

(** The condition [canAutoReconnect] of [scheduleReconnect]. *)
Definition eligible (a : Account) (w : World) : bool :=
  match saved_token (username a) w with Some _ => true | None => false end
  || option_truthy (sharedSecret a)
  || is_guard_none (guardType a).

(** The world after [scheduleReconnect] recorded the account and armed
    its timer. *)
Definition armed (a : Account) (w : World) : World :=
  set_reconnectTimers
    (<[username a := fresh (dom (timers w))]> (reconnectTimers w))
    (set_timers
       (<[fresh (dom (timers w)) := mkTimer (ReconnectTask a) RECONNECT_DELAY Armed]>
          (timers w))
       (set_accountsToReconnect (<[username a := a]> (accountsToReconnect w)) w)).

(** The armed timers that will reconnect the account [u]. *)
Definition reconnects (u : jsstring) (t : Timer) : bool :=
  match state t, task t with
  | Armed, ReconnectTask a => bool_decide (username a = u)
  | _, _ => false
  end.

Definition armed_reconnects (u : jsstring) (w : World) : gmap nat Timer :=
  filter (fun it => reconnects u it.2 = true) (timers w).

(** What the [try] block of [loadAccounts] computes from the accounts
    file: [None] when reading, decryption or parsing throws. *)
Definition read_accounts (key : jsstring) (e : Dirent) : option json :=
  match e with
  | File content _ =>
      match decrypt (utf8_decode content) key with
      | Some decrypted => JSON_parse decrypted
      | None => None
      end
  | Directory _ => None
  end.


(** The vault is the key and the tokens directory: a world that agrees
    with [w] on them, and on the clock, has the same saved tokens. *)
Definition same_vault (w w' : World) : Prop :=
  encryptionKey w' = encryptionKey w /\ tokensDir w' = tokensDir w /\
  clock w' = clock w.

(** The [twoFactorCode] of a password login at a given time. *)
Definition two_factor (a : Account) (now : float) : option jsstring :=
  match sharedSecret a with
  | Some secret =>
      if string_truthy secret then Some (generateAuthCode secret now) else None
  | None => None
  end.

(** The [logOn] calls among the events of a run. *)
Fixpoint logOn_calls (evs : list Event) : list (nat * LogOnOptions) :=
  match evs with
  | [] => []
  | Call c (LogOn o) :: rest => (c, o) :: logOn_calls rest
  | _ :: rest => logOn_calls rest
  end.


(** The lines with which [scheduleReconnect] starts: one of them is
    written by every call. *)
Definition schedule_line (u : jsstring) (e : Event) : bool :=
  match e with
  | Console (LogAlreadyScheduled v)
  | Console (LogCannotReconnect v)
  | Console (LogScheduling v) => bool_decide (v = u)
  | _ => false
  end.
End Vocabulary.

(** Worlds and accounts for the examples, on the small library. *)
Module Samples.
Definition key16 : jsstring := js "0123456789abcdef".

Definition empty_world : World (L := TestLib.lib) :=
  mkWorld (L := TestLib.lib) key16 (Some ∅) None ∅ ∅ ∅ ∅ ∅ 5 0%float.

Definition alice : Account :=
  mkAccount (js "alice") (js "pw-alice") None (Some guard_mobile)
    [AppID 730%float] Online 1%float.

Definition bob : Account :=
  mkAccount (js "bob") (js "pw1") None (Some guard_none)
    [AppID 730%float; CustomName (js "t.me/sensejke"); AppID 570%float]
    Online 2%float.

Definition carol : Account :=
  mkAccount (js "carol") (js "pw-carol") (Some (js "c2VjcmV0")) (Some guard_secret)
    [CustomName []; CustomName (js "Dota")] Away 3%float.

(** A world whose tokens directory holds one file for [alice] that is
    not a ciphertext. *)
Definition corrupted_world : World (L := TestLib.lib) :=
  set_tokensDir (Some {[ tokenPath (js "alice") := File [1; 2; 3] 0%float ]})
    empty_world.

(** The same world with no encryption key. *)
Definition keyless_world : World (L := TestLib.lib) :=
  mkWorld (L := TestLib.lib) []
    (Some {[ tokenPath (js "alice") := File [1; 2; 3] 0%float ]})
    None ∅ ∅ ∅ ∅ ∅ 5 0%float.

(** A tokens directory with a token file, a cache file of the client
    library and a subdirectory, all older than a week. *)
Definition cache_world : World (L := TestLib.lib) :=
  mkWorld (L := TestLib.lib) key16
    (Some (<[ tokenPath (js "alice") := File [1; 2; 3] 0%float ]>
           (<[ js "sentry_alice.bin" := File [9] 0%float ]>
            (<[ js "old" := Directory 0%float ]> ∅))))
    None ∅ ∅ ∅ ∅ ∅ 5 1000000000000%float.

(** The world after [login] started an attempt for [bob]: client 0 and
    its timeout are pending. *)
Definition bob_world : World (L := TestLib.lib) := world (login bob empty_world).

(** The world after [saveToken] wrote a token for [alice]. *)
Definition saved_world : World (L := TestLib.lib) :=
  world (saveToken (js "alice") (js "eyJhbGciOi") empty_world).
End Samples.
(* ================================================================== *)
(** * steamFunctions.ts: timeout, logout and the auto-reconnect switches *)
(* ================================================================== *)

Section Session.
Context {L : NodeLib}.

(** The callback of the timeout that [login] arms for [steamUser]. *)
Definition login_on_timeout (steamUser : nat) : M unit :=
  removeAllListeners steamUser ;;
  resolve steamUser (mkLoginResult false (Some (js "Login timeout (30s)"))).

Definition logout (username : jsstring) : M bool :=
  cancelReconnect username ;;
  client <- gets (fun w => activeClients w !! username) ;;
  match client with
  | Some c =>
      removeAllListeners c ;;
      emit (Call c LogOff) ;;
      modify (fun w => set_activeClients (delete username (activeClients w)) w) ;;
      ret true
  | None => ret false
  end.

Definition enableAutoReconnect (account : Account) : M unit :=
  modify (fun w => set_accountsToReconnect
            (<[username account := account]> (accountsToReconnect w)) w).

Definition disableAutoReconnect (username : jsstring) : M unit :=
  cancelReconnect username.
End Session.

(* ================================================================== *)
(** * storage.ts: the writing half of [SecureStorage] *)
(* ================================================================== *)

Section StorageWrites.
Context {L : NodeLib}.

Definition set_dataFile (e : option Dirent) (w : World) : World :=
  mkWorld (encryptionKey w) (tokensDir w) e (activeClients w)
    (accountsToReconnect w) (reconnectTimers w) (timers w) (clients w)
    (rng w) (clock w).

(** [fs.writeFileSync(DATA_FILE, data, 'utf8')]; the directory of the
    file is the one the constructor of [SecureStorage] made. *)
Definition writeFileSync_data (data : jsstring) : M unit :=
  w <- get ;;
  match dataFile w with
  | Some (Directory _) => throw EISDIR
  | _ => modify (set_dataFile (Some (File (utf8_encode data) (clock w))))
  end.

Definition saveAccounts (this : SecureStorage) (accounts : json) : M unit :=
  let data := JSON_stringify accounts in
  encrypted <- call_encrypt data (storage_encryptionKey this) ;;
  writeFileSync_data encrypted.

(** [x === y] where one side was just made by [JSON.parse]: an object or
    an array is identical to no other value; [None] is [undefined]. *)
Definition strict_equal (x y : option json) : bool :=
  match x, y with
  | None, None => true
  | Some JNull, Some JNull => true
  | Some (JBool a), Some (JBool b) => Bool.eqb a b
  | Some (JNumber a), Some (JNumber b) => PrimFloat.eqb a b
  | Some (JString a), Some (JString b) => bool_decide (a = b)
  | _, _ => false
  end.

(** [accounts.findIndex(a => a.username === account.username)], from
    index [i] on. *)
Fixpoint findIndex_username (accounts : list json) (account : json) (i : nat)
    : Exn + option nat :=
  match accounts with
  | [] => inr None
  | a :: rest =>
      match get_property a (js "username") with
      | inl e => inl e
      | inr x =>
          match get_property account (js "username") with
          | inl e => inl e
          | inr y =>
              if strict_equal x y then inr (Some i)
              else findIndex_username rest account (S i)
          end
      end
  end.

(** [accounts.filter(a => a.username !== username)] *)
Fixpoint filter_username (accounts : list json) (username : jsstring)
    : Exn + list json :=
  match accounts with
  | [] => inr []
  | a :: rest =>
      match get_property a (js "username") with
      | inl e => inl e
      | inr x =>
          match filter_username rest username with
          | inl e => inl e
          | inr kept =>
              if strict_equal x (Some (JString username)) then inr kept
              else inr (a :: kept)
          end
      end
  end.

(** [accounts.find(a => a.username === username)] *)
Fixpoint find_username (accounts : list json) (username : jsstring)
    : Exn + option json :=
  match accounts with
  | [] => inr None
  | a :: rest =>
      match get_property a (js "username") with
      | inl e => inl e
      | inr x =>
          if strict_equal x (Some (JString username)) then inr (Some a)
          else find_username rest username
      end
  end.

(** The methods of [Array.prototype] exist on arrays only: on any other
    value the call throws a [TypeError]. *)
Definition as_array (v : json) : M (list json) :=
  match v with
  | JArray items => ret items
  | _ => throw TypeError
  end.

Definition addAccount (this : SecureStorage) (account : json) : M unit :=
  loaded <- loadAccounts this ;;
  accounts <- as_array loaded ;;
  existingIndex <- lift_sum (findIndex_username accounts account 0) ;;
  saveAccounts this
    (JArray (match existingIndex with
             | Some i => <[i := account]> accounts
             | None => accounts ++ [account]
             end)).

Definition removeAccount (this : SecureStorage) (username : jsstring) : M bool :=
  loaded <- loadAccounts this ;;
  accounts <- as_array loaded ;;
  filtered <- lift_sum (filter_username accounts username) ;;
  if (length filtered =? length accounts)%nat then ret false
  else
    saveAccounts this (JArray filtered) ;;
    ret true.

Definition getAccount (this : SecureStorage) (username : jsstring)
    : M (option json) :=
  loaded <- loadAccounts this ;;
  accounts <- as_array loaded ;;
  lift_sum (find_username accounts username).
End StorageWrites.
(* ================================================================== *)
(** * What the round trips through a file rely on *)
(* ================================================================== *)

(** A file is written and read back as UTF-8: the text that [encrypt]
    returns survives it because base64 text is ASCII. *)
Class Base64Text (L : NodeLib) : Prop := {
  base64_encode_text : forall b, is_bytes b -> well_formed (base64_encode b) = true;
}.

Section MoreVocabulary.
Context {L : NodeLib}.

(** [JSON.parse(JSON.stringify(v))] gives [v] back, and the text has no
    unpaired surrogate. *)
Definition json_roundtrips (v : json) : Prop :=
  well_formed (JSON_stringify v) = true /\
  JSON_parse (JSON_stringify v) = Some v.

(** The object that [saveToken] serialises. *)
Definition token_record (token : jsstring) : json :=
  JObject [(js "refreshToken", JString token)].
End MoreVocabulary.

(* ================================================================== *)
(** * Vocabulary of the session statements *)
(* ================================================================== *)

Section SessionVocabulary.
Context {L : NodeLib}.

(** What [clearTimeout] does to a timer, and [removeAllListeners] to a
    client. *)
Definition disarm (t : Timer) : Timer := mkTimer (task t) (delay t) Cleared.

Definition mute (c : Client) : Client :=
  mkClient (cl_account c) false (cl_promise c) (cl_timeout c).

(** The timers once the reconnect recorded for [u] is cancelled. *)
Definition cancelled (u : jsstring) (w : World) : gmap nat Timer :=
  match reconnectTimers w !! u with
  | Some h => alter disarm h (timers w)
  | None => timers w
  end.

(** The clients once the session registered for [u] is torn down. *)
Definition torn_down (u : jsstring) (w : World) : gmap nat Client :=
  match activeClients w !! u with
  | Some c => alter mute c (clients w)
  | None => clients w
  end.

(** The options [login] passes to [logOn], from the token saved for the
    account. *)
Definition credentials (a : Account) (w : World) : LogOnOptions :=
  match saved_token (username a) w with
  | Some token =>
      mkLogOnOptions true (js "t.me/sensejke") (Some token) None None None
  | None =>
      mkLogOnOptions true (js "t.me/sensejke") None
        (Some (username a)) (Some (password a)) (two_factor a (clock w))
  end.

(** The [logOff] calls among the events of a run. *)
Fixpoint logOff_calls (evs : list Event) : list nat :=
  match evs with
  | [] => []
  | Call c LogOff :: rest => c :: logOff_calls rest
  | _ :: rest => logOff_calls rest
  end.

(** The armed timeouts of the login attempt of a client. *)
Definition times_out (c : nat) (t : Timer) : bool :=
  match state t, task t with
  | Armed, LoginTimeoutTask c' => bool_decide (c' = c)
  | _, _ => false
  end.
End SessionVocabulary.

Section SweepVocabulary.
Context {L : NodeLib}.



End SweepVocabulary.

Section StorageVocabulary.
Context {L : NodeLib}.

(** The accounts file is not a directory. *)
Definition data_not_directory (w : World) : Prop :=
  forall t, dataFile w <> Some (Directory t).
End StorageVocabulary.

Section CollectionVocabulary.
(** The array [addAccount] saves, from the array it loaded. *)
Definition upserted (accounts : list json) (account : json) : list json :=
  match findIndex_username accounts account 0 with
  | inr (Some i) => <[i := account]> accounts
  | _ => accounts ++ [account]
  end.
End CollectionVocabulary.

(* ================================================================== *)
(** * steamFunctions.ts: the callbacks that report to the owner *)
(* ================================================================== *)

(** [msg || eresult] of the ['disconnected'] listener. *)
Inductive Reason : Type :=
| ReasonText (msg : jsstring)
| ReasonCode (eresult : float).

(** The two messages passed to [notify]. *)
Inductive Notice : Type :=
| NoticeReconnected (u : jsstring)
| NoticeDisconnected (u : jsstring) (reason : Reason).

(** The lines these callbacks write to the console. *)
Inductive OwnerLine : Type :=
| LogAutoReconnecting (u : jsstring)
| LogAlreadyOnline (u : jsstring)
| LogReconnectFailed (u : jsstring) (error : option jsstring)
| LogStillPlaying
| LogGuardRequired (u : jsstring) (domain : option jsstring)
| LogDisconnected (u : jsstring) (reason : Reason)
| LogBlocked (u : jsstring) (playingApp : float)
| LogUnblocked (u : jsstring)
| LogLoggedOut (u : jsstring).

(** What these callbacks do to the outside: the events of the functions
    above, their own lines, the calls of [notifyCallback], the calls of
    [guardCallback] and of the [callback] of ['steamGuard']. *)
Inductive Signal : Type :=
| Earlier (e : Event)
| OwnerConsole (line : OwnerLine)
| Notify (userId : float) (n : Notice)
| GuardRequest (client : nat) (type : GuardType)
| GuardCode (client : nat) (code : jsstring).

Section Owner.
Context {L : NodeLib}.

(** The state of the module: the world, and [notifyCallback] ([false]
    while it is [null]). *)
Record Runtime : Type := mkRuntime {
  base : World;
  notifyCallback : bool;
}.

Definition N (A : Type) : Type := Runtime -> Res A * Runtime * list Signal.

Definition retN {A} (a : A) : N A := fun r => (Ok a, r, []).

Definition bindN {A B} (m : N A) (k : A -> N B) : N B :=
  fun r =>
    match m r with
    | (Ok a, r1, t1) =>
        match k a r1 with
        | (x, r2, t2) => (x, r2, t1 ++ t2)
        end
    | (Throw e, r1, t1) => (Throw e, r1, t1)
    end.

(** A computation of the functions above, run on the world of the
    module. *)
Definition lift {A} (m : M A) : N A :=
  fun r =>
    match m (base r) with
    | (x, w, evs) => (x, mkRuntime w (notifyCallback r), List.map Earlier evs)
    end.

Definition emitN (s : Signal) : N unit := fun r => (Ok tt, r, [s]).
Definition owner_log (l : OwnerLine) : N unit := emitN (OwnerConsole l).
End Owner.

Declare Scope N_scope.
Delimit Scope N_scope with N_.
Notation "x <- m ;; k" := (bindN m (fun x => k))
  (at level 100, m at next level, k at level 200, right associativity) : N_scope.
Notation "m ;; k" := (bindN m (fun _ => k))
  (at level 100, k at level 200, right associativity) : N_scope.

Section OwnerCallbacks.
Context {L : NodeLib}.
Local Open Scope N_scope.

Definition setNotifyCallback : N unit :=
  fun r => (Ok tt, mkRuntime (base r) true, []).

Definition notify (account : Account) (message : Notice) : N unit :=
  fun r =>
    if notifyCallback r && number_truthy (ownerId account)
    then (Ok tt, r, [Notify (ownerId account) message])
    else (Ok tt, r, []).

(** The callback of the timer of [scheduleReconnect], up to its
    [await]: the account and the client of the [login] it waits for,
    when it makes one. *)
Definition reconnect_on_timer (account : Account) : N (option (Account * nat)) :=
  owner_log (LogAutoReconnecting (username account)) ;;
  lift (modify (fun w => set_reconnectTimers
                  (delete (username account) (reconnectTimers w)) w)) ;;
  acc <- lift (gets (fun w => accountsToReconnect w !! username account)) ;;
  lift (modify (fun w => set_accountsToReconnect
                  (delete (username account) (accountsToReconnect w)) w)) ;;
  match acc with
  | Some acc =>
      online <- lift (isOnline (username acc)) ;;
      if online then
        owner_log (LogAlreadyOnline (username acc)) ;;
        retN None
      else
        steamUser <- lift (login acc) ;;
        retN (Some (acc, steamUser))
  | None => retN None
  end.

(** The rest of that callback, once [login] has resolved with
    [result]. *)
Definition reconnect_on_result (acc : Account) (result : LoginResult) : N unit :=
  if success result then notify acc (NoticeReconnected (username acc))
  else
    owner_log (LogReconnectFailed (username acc) (error result)) ;;
    if match error result with
       | Some e => includes e (js "LoggedInElsewhere")
       | None => false
       end
    then
      owner_log LogStillPlaying ;;
      lift (scheduleReconnect acc)
    else retN tt.

(** The event loop runs the callback of an armed timer, which is then
    no longer armed; a cleared timer never fires. *)
Definition run_timer (handle : nat) : N (option (Account * nat)) :=
  t <- lift (gets (fun w => timers w !! handle)) ;;
  match t with
  | Some (mkTimer todo _ Armed) =>
      lift (clearTimeout handle) ;;
      match todo with
      | ReconnectTask account => reconnect_on_timer account
      | LoginTimeoutTask steamUser =>
          lift (login_on_timeout steamUser) ;;
          retN None
      end
  | _ => retN None
  end.

(** The listener of ['steamGuard'], up to its [await]; [guardCallback]
    tells whether [login] was given one. *)
Definition login_on_steamGuard (steamUser : nat) (account : Account)
    (timeout : nat) (guardCallback : bool) (domain : option jsstring) : N unit :=
  owner_log (LogGuardRequired (username account) domain) ;;
  if guardCallback then
    emitN (GuardRequest steamUser
             (if option_truthy domain then guard_email else guard_mobile))
  else
    lift (clearTimeout timeout ;;
          removeAllListeners steamUser ;;
          resolve steamUser
            (mkLoginResult false (Some (js "Steam Guard required but no callback"))))%M.

(** The rest of the listener, once [guardCallback] has resolved with
    [code]. *)
Definition login_on_guardCode (steamUser : nat) (timeout : nat)
    (code : jsstring) : N unit :=
  if string_truthy code then emitN (GuardCode steamUser code)
  else
    lift (clearTimeout timeout ;;
          removeAllListeners steamUser ;;
          resolve steamUser
            (mkLoginResult false (Some (js "Steam Guard code not provided"))))%M.

(** The listener of ['disconnected']. *)
Definition login_on_disconnected (account : Account) (eresult : float)
    (msg : option jsstring) : N unit :=
  let reason :=
    match msg with
    | Some m => if string_truthy m then ReasonText m else ReasonCode eresult
    | None => ReasonCode eresult
    end in
  owner_log (LogDisconnected (username account) reason) ;;
  lift (modify (fun w => set_activeClients
                  (delete (username account) (activeClients w)) w)) ;;
  notify account (NoticeDisconnected (username account) reason) ;;
  lift (scheduleReconnect account).

(** The listener of ['playingState']. *)
Definition login_on_playingState (store : float -> option jsstring)
    (steamUser : nat) (account : Account) (blocked : bool) (playingApp : float)
    : N unit :=
  if blocked then owner_log (LogBlocked (username account) playingApp)
  else
    owner_log (LogUnblocked (username account)) ;;
    lift (playGames store steamUser account).

(** [logoutAll], for the order in which the two maps list their
    entries. *)
Fixpoint cancel_each (usernames : list jsstring) : N unit :=
  match usernames with
  | [] => retN tt
  | u :: rest => lift (cancelReconnect u) ;; cancel_each rest
  end.

Fixpoint logOff_each (sessions : list (jsstring * nat)) : N unit :=
  match sessions with
  | [] => retN tt
  | (u, client) :: rest =>
      lift (removeAllListeners client) ;;
      lift (emit (Call client LogOff)) ;;
      owner_log (LogLoggedOut u) ;;
      logOff_each rest
  end.

Definition logoutAll (pending : list jsstring) (sessions : list (jsstring * nat))
    : N unit :=
  cancel_each pending ;;
  logOff_each sessions ;;
  lift (modify (set_activeClients ∅)).
End OwnerCallbacks.

(* ================================================================== *)
(** * The module as a machine *)
(* ================================================================== *)

(** The events a [SteamUser] emits to the listeners of [login]. *)
Inductive ClientEvent : Type :=
| EvError (message : jsstring)
| EvRefreshToken (token : jsstring)
| EvSteamGuard (domain : option jsstring)
| EvLoggedOn
| EvDisconnected (eresult : float) (msg : option jsstring)
| EvPlayingState (blocked : bool) (playingApp : float).

Section Machine.
Context {L : NodeLib}.
Local Open Scope N_scope.

(** [steamUser.emit(event)]: the listeners [login] registered run with
    the variables of that call, until [removeAllListeners]; [store] are
    the answers of the store API and [guardCallback] tells whether the
    call of [login] was given one. *)
Definition deliver (store : float -> option jsstring) (guardCallback : bool)
    (steamUser : nat) (ev : ClientEvent) : N unit :=
  c <- lift (gets (fun w => clients w !! steamUser)) ;;
  match c with
  | Some (mkClient account true _ (Some timeout)) =>
      match ev with
      | EvError message => lift (login_on_error steamUser account timeout message)
      | EvRefreshToken token => lift (login_on_refreshToken account token)
      | EvSteamGuard domain =>
          login_on_steamGuard steamUser account timeout guardCallback domain
      | EvLoggedOn => lift (login_on_loggedOn store steamUser account timeout)
      | EvDisconnected eresult msg => login_on_disconnected account eresult msg
      | EvPlayingState blocked playingApp =>
          login_on_playingState store steamUser account blocked playingApp
      end
  | _ => retN tt
  end.

(** [guardCallback] resolves with [code] for the attempt of
    [steamUser]. *)
Definition answer_guard (steamUser : nat) (code : jsstring) : N unit :=
  c <- lift (gets (fun w => clients w !! steamUser)) ;;
  match c with
  | Some (mkClient _ _ _ (Some timeout)) => login_on_guardCode steamUser timeout code
  | _ => retN tt
  end.

(** What can happen to the module: a call of one of its exported
    functions, an event of a client, a timer that fires, a promise that
    resolves. *)
Inductive Op : Type :=
| OpSetEncryptionKey (key : jsstring)
| OpSetNotifyCallback
| OpCleanCache
| OpLogin (account : Account)
| OpLogout (username : jsstring)
| OpLogoutAll (pending : list jsstring) (sessions : list (jsstring * nat))
| OpUpdateGames (store : float -> option jsstring) (username : jsstring)
    (selectors : list selector)
| OpHasToken (username : jsstring)
| OpEnableAutoReconnect (account : Account)
| OpDisableAutoReconnect (username : jsstring)
| OpDeliver (store : float -> option jsstring) (guardCallback : bool)
    (steamUser : nat) (ev : ClientEvent)
| OpAnswerGuard (steamUser : nat) (code : jsstring)
| OpRunTimer (handle : nat)
| OpLoginResolved (acc : Account) (result : LoginResult).

Definition run_op (op : Op) : N unit :=
  match op with
  | OpSetEncryptionKey key => lift (setEncryptionKey key)
  | OpSetNotifyCallback => setNotifyCallback
  | OpCleanCache => lift cleanCache
  | OpLogin account => lift (login account) ;; retN tt
  | OpLogout username => lift (logout username) ;; retN tt
  | OpLogoutAll pending sessions => logoutAll pending sessions
  | OpUpdateGames store username selectors =>
      lift (updateGames store username selectors) ;; retN tt
  | OpHasToken username => lift (hasToken username) ;; retN tt
  | OpEnableAutoReconnect account => lift (enableAutoReconnect account)
  | OpDisableAutoReconnect username => lift (disableAutoReconnect username)
  | OpDeliver store guardCallback steamUser ev =>
      deliver store guardCallback steamUser ev
  | OpAnswerGuard steamUser code => answer_guard steamUser code
  | OpRunTimer handle => run_timer handle ;; retN tt
  | OpLoginResolved acc result => reconnect_on_result acc result
  end.

(** The runtime after a sequence of them, from [r]; an operation that
    throws leaves the state it reached. *)
Definition run_ops (ops : list Op) (r : Runtime) : Runtime :=
  fold_left (fun r op => (run_op op r).1.2) ops r.

(** The scheduler is consistent: the armed reconnect timers are the
    ones [reconnectTimers] records, each under the name of its account
    and with the account on record, and the timeout a client holds is
    the timeout of its own attempt. *)
Record consistent (w : World) : Prop := mkConsistent {
  armed_recorded : forall h t a,
    timers w !! h = Some t -> state t = Armed -> task t = ReconnectTask a ->
    reconnectTimers w !! username a = Some h;
  recorded_armed : forall u h,
    reconnectTimers w !! u = Some h ->
    exists a d, timers w !! h = Some (mkTimer (ReconnectTask a) d Armed) /\
                username a = u;
  recorded_account : forall u h,
    reconnectTimers w !! u = Some h -> is_Some (accountsToReconnect w !! u);
  account_named : forall u acc,
    accountsToReconnect w !! u = Some acc -> username acc = u;
  timeout_owned : forall c cl tmo,
    clients w !! c = Some cl -> cl_timeout cl = Some tmo ->
    exists t, timers w !! tmo = Some t /\ task t = LoginTimeoutTask c;
}.

(** A consistent world in which the client [c] holds [timeout]: the
    state a listener of [c] runs in. *)
Definition holds_timeout (c timeout : nat) (w : World) : Prop :=
  consistent w /\
  exists cl, clients w !! c = Some cl /\ cl_timeout cl = Some timeout.

(** The client [c] has no listener. *)
Definition muted (c : nat) (w : World) : Prop :=
  forall cl, clients w !! c = Some cl -> cl_listening cl = false.

(** The module as it is loaded: no client, no timer, nothing
    scheduled. *)
Definition loaded (r : Runtime) : Prop :=
  activeClients (base r) = ∅ /\ accountsToReconnect (base r) = ∅ /\
  reconnectTimers (base r) = ∅ /\ timers (base r) = ∅ /\ clients (base r) = ∅.
End Machine.

(* ================================================================== *)
(** * Assertions about runs *)
(* ================================================================== *)

Section Logic.
Context {L : NodeLib}.

(** The part of the world that holds the sessions and the scheduler. *)
Definition session (w : World) :
    gmap jsstring nat * gmap jsstring Account * gmap jsstring nat
    * gmap nat Timer * gmap nat Client :=
  (activeClients w, accountsToReconnect w, reconnectTimers w, timers w, clients w).

(** [m] leaves that part as it is, whether it returns or throws. *)
Definition keeps_session {A} (m : M A) : Prop :=
  forall w, session (world (m w)) = session w.

(** Started in a world of [P], [m] returns [a] in a world of [Q a], or
    throws in a world of [E]. *)
Definition hoare {A} (P : World -> Prop) (m : M A) (Q : A -> World -> Prop)
    (E : World -> Prop) : Prop :=
  forall w, P w ->
    match result (m w) with
    | Ok a => Q a (world (m w))
    | Throw _ => E (world (m w))
    end.

(** The same for the callbacks that report to the owner, about the
    world of the runtime. *)
Definition hoareN {A} (P : World -> Prop) (m : N A) (Q : A -> World -> Prop)
    (E : World -> Prop) : Prop :=
  forall r, P (base r) ->
    match (m r).1.1 with
    | Ok a => Q a (base (m r).1.2)
    | Throw _ => E (base (m r).1.2)
    end.

(** [m] keeps the scheduler consistent, whether it returns or throws. *)
Definition stays {A} (m : N A) : Prop :=
  hoareN consistent m (fun _ => consistent) consistent.
End Logic.

Section SignalVocabulary.
Context {L : NodeLib}.

(** The events of the functions above among the signals of a run, and
    the users notified. *)
Fixpoint earlier (signals : list Signal) : list Event :=
  match signals with
  | [] => []
  | Earlier e :: rest => e :: earlier rest
  | _ :: rest => earlier rest
  end.

Fixpoint notified (signals : list Signal) : list (float * Notice) :=
  match signals with
  | [] => []
  | Notify userId n :: rest => (userId, n) :: notified rest
  | _ :: rest => notified rest
  end.

(** The codes handed to the [callback] of ['steamGuard']. *)
Fixpoint guard_codes (signals : list Signal) : list (nat * jsstring) :=
  match signals with
  | [] => []
  | GuardCode c code :: rest => (c, code) :: guard_codes rest
  | _ :: rest => guard_codes rest
  end.
End SignalVocabulary.

(** Runs of the module for the examples, on the small library. *)
Module Scenarios.
Import Samples.

(** The module as loaded. *)
Definition loaded_runtime : Runtime (L := TestLib.lib) := mkRuntime empty_world false.

(** [bob] logs in, is logged on, and is disconnected. *)
Definition bob_disconnected : list Op :=
  [OpLogin bob;
   OpDeliver (fun _ => None) false 0%nat EvLoggedOn;
   OpDeliver (fun _ => None) false 0%nat (EvDisconnected 6%float None)].

(** Then [alice] logs in and is logged on: one session, and one
    reconnect pending. *)
Definition alice_online : list Op :=
  bob_disconnected ++
  [OpLogin alice; OpDeliver (fun _ => None) false 1%nat EvLoggedOn].

(** [bob] logs in twice, and the second client is logged on while the
    first attempt is still pending. *)
Definition two_attempts : list Op :=
  [OpLogin bob; OpLogin bob; OpDeliver (fun _ => None) false 1%nat EvLoggedOn].
End Scenarios.

(** A second small library, with a printer and a parser of JSON text for
    the values made of [null], booleans, strings without quote or
    backslash, arrays and objects; a number is printed as [0]. *)
Module TestJson.
Fixpoint print (v : json) : jsstring :=
  match v with
  | JNull => js "null"
  | JBool true => js "true"
  | JBool false => js "false"
  | JNumber _ => js "0"
  | JString s => 34 :: s ++ [34]
  | JArray items =>
      91 :: (fix go (l : list json) : jsstring :=
               match l with
               | [] => []
               | [x] => print x
               | x :: rest => print x ++ 44 :: go rest
               end) items ++ [93]
  | JObject fields =>
      123 :: (fix go (l : list (jsstring * json)) : jsstring :=
                match l with
                | [] => []
                | [(k, x)] => 34 :: k ++ 34 :: 58 :: print x
                | (k, x) :: rest => 34 :: k ++ 34 :: 58 :: print x ++ 44 :: go rest
                end) fields ++ [125]
  end.

(** The characters up to the closing quote, and what follows it. *)
Fixpoint read_string (s : jsstring) : option (jsstring * jsstring) :=
  match s with
  | [] => None
  | c :: rest =>
      if c =? 34 then Some ([], rest)
      else match read_string rest with
           | Some (str, r) => Some (c :: str, r)
           | None => None
           end
  end.

(** The elements of an array up to its bracket, read with [pv]. *)
Fixpoint items_with (pv : jsstring -> option (json * jsstring)) (n : nat)
    (s : jsstring) : option (list json * jsstring) :=
  match n with
  | O => None
  | S n =>
      match pv s with
      | Some (v, 44 :: rest) =>
          match items_with pv n rest with
          | Some (vs, r) => Some (v :: vs, r)
          | None => None
          end
      | Some (v, 93 :: rest) => Some ([v], rest)
      | _ => None
      end
  end.

(** The members of an object up to its brace. *)
Fixpoint members_with (pv : jsstring -> option (json * jsstring)) (n : nat)
    (s : jsstring) : option (list (jsstring * json) * jsstring) :=
  match n with
  | O => None
  | S n =>
      match s with
      | 34 :: s1 =>
          match read_string s1 with
          | Some (k, 58 :: s2) =>
              match pv s2 with
              | Some (v, 44 :: rest) =>
                  match members_with pv n rest with
                  | Some (vs, r) => Some ((k, v) :: vs, r)
                  | None => None
                  end
              | Some (v, 125 :: rest) => Some ([(k, v)], rest)
              | _ => None
              end
          | _ => None
          end
      | _ => None
      end
  end.

Fixpoint parse_value (fuel : nat) (s : jsstring) : option (json * jsstring) :=
  match fuel with
  | O => None
  | S fuel =>
      match s with
      | 110 :: 117 :: 108 :: 108 :: rest => Some (JNull, rest)
      | 116 :: 114 :: 117 :: 101 :: rest => Some (JBool true, rest)
      | 102 :: 97 :: 108 :: 115 :: 101 :: rest => Some (JBool false, rest)
      | 48 :: rest => Some (JNumber 0%float, rest)
      | 34 :: rest =>
          match read_string rest with
          | Some (str, r) => Some (JString str, r)
          | None => None
          end
      | 91 :: 93 :: rest => Some (JArray [], rest)
      | 91 :: rest =>
          match items_with (parse_value fuel) (length rest) rest with
          | Some (vs, r) => Some (JArray vs, r)
          | None => None
          end
      | 123 :: 125 :: rest => Some (JObject [], rest)
      | 123 :: rest =>
          match members_with (parse_value fuel) (length rest) rest with
          | Some (vs, r) => Some (JObject vs, r)
          | None => None
          end
      | _ => None
      end
  end.

Definition parse (s : jsstring) : option json :=
  match parse_value (S (length s)) s with
  | Some (v, []) => Some v
  | _ => None
  end.

Definition json_lib : NodeLib :=
  Build_NodeLib Z TestLib.randomBytes TestLib.pbkdf2Sync TestLib.cipher_seal
    TestLib.decipher_open TestLib.hex_encode TestLib.hex_decode
    parse print TestLib.generateAuthCode.

(** Two accounts as [JSON.parse] gives them. *)
Definition dave : json :=
  JObject [(js "username", JString (js "dave")); (js "password", JString (js "pw-dave"))].

Definition erin : json :=
  JObject [(js "username", JString (js "erin")); (js "password", JString (js "pw-erin"))].

Definition erin2 : json :=
  JObject [(js "username", JString (js "erin")); (js "password", JString (js "changed"))].

Definition store16 : SecureStorage := mkSecureStorage (js "0123456789abcdef").

(** A world with no accounts file. *)
Definition fresh_world : World (L := json_lib) :=
  mkWorld (L := json_lib) (js "0123456789abcdef") (Some ∅) None ∅ ∅ ∅ ∅ ∅ 5 0%float.

(** The world after the accounts of dave and erin were saved, and a
    world whose accounts file is not a ciphertext. *)
Definition two_accounts_world : World (L := json_lib) :=
  world (saveAccounts store16 (JArray [dave; erin]) fresh_world).

Definition damaged_world : World (L := json_lib) :=
  set_dataFile (Some (File [1; 2; 3] 0%float)) fresh_world.
End TestJson.

(* ================================================================== *)
(** * Tactics *)
(* ================================================================== *)

Ltac unfold_M :=
  unfold when, lift_option, lift_sum, console_log in *;
  unfold emit, try_catch, get, gets, modify, bind, ret, throw in *.

(** Alternate computation and rewriting with the equations at hand. *)
Ltac use_equations :=
  match goal with
  | H : ?x = Some _ |- context [?x] => rewrite H
  | H : ?x = None |- context [?x] => rewrite H
  | H : ?x = true |- context [?x] => rewrite H
  | H : ?x = false |- context [?x] => rewrite H
  | H : ?x = inl _ |- context [?x] => rewrite H
  | H : ?x = inr _ |- context [?x] => rewrite H
  end.

Ltac run := unfold_M; cbn; repeat (use_equations; cbn).

(** The same, leaving the hypotheses as they are. *)
Ltac run_goal :=
  unfold when, lift_option, lift_sum, console_log;
  unfold emit, try_catch, get, gets, modify, bind, ret, throw;
  cbn; repeat (use_equations; cbn).

Ltac open_world w :=
  destruct w as [key tdir dfile actives pending rtimers tmrs cls g clk]; cbn in *.

(** The functions of the source are unfolded by name, never by
    simplification. *)
Arguments loadToken : simpl never.
Arguments saveToken : simpl never.
Arguments deleteToken : simpl never.
Arguments hasToken : simpl never.
Arguments scheduleReconnect : simpl never.
Arguments cancelReconnect : simpl never.
Arguments build_logOnOptions : simpl never.
Arguments encrypt : simpl never.
Arguments decrypt : simpl never.
Arguments includes : simpl never.
Arguments endsWith : simpl never.

(** Decide the comparisons of the goal one at a time, from linear facts. *)
Ltac decide_test :=
  match goal with
  | |- context [Z.leb ?a ?b] =>
      first [ replace (Z.leb a b) with true by (symmetry; apply Z.leb_le; lia)
            | replace (Z.leb a b) with false by (symmetry; apply Z.leb_gt; lia) ]
  | |- context [Z.ltb ?a ?b] =>
      first [ replace (Z.ltb a b) with true by (symmetry; apply Z.ltb_lt; lia)
            | replace (Z.ltb a b) with false by (symmetry; apply Z.ltb_ge; lia) ]
  | |- context [Z.eqb ?a ?b] =>
      first [ replace (Z.eqb a b) with true by (symmetry; apply Z.eqb_eq; lia)
            | replace (Z.eqb a b) with false by (symmetry; apply Z.eqb_neq; lia) ]
  end.
Ltac decide_tests := repeat (decide_test; cbn [andb orb negb]).


(* ================================================================== *)
(** * The UTF-8 codec *)
(* ================================================================== *)

Example utf8_encode_ascii : utf8_encode (js "a.token") = [97; 46; 116; 111; 107; 101; 110].
Proof. reflexivity. Qed.

Example utf8_encode_euro : utf8_encode [0x20AC] = [0xE2; 0x82; 0xAC].
Proof. reflexivity. Qed.

Example utf8_encode_pair : utf8_encode [0xD83D; 0xDE00] = [0xF0; 0x9F; 0x98; 0x80].
Proof. reflexivity. Qed.

Example utf8_decode_pair : utf8_decode [0xF0; 0x9F; 0x98; 0x80] = [0xD83D; 0xDE00].
Proof. reflexivity. Qed.


Lemma utf8_decode_1 (b0 : Z) (r : buffer) :
  0 <= b0 < 0x80 -> utf8_decode (b0 :: r) = b0 :: utf8_decode r.
Proof. intros H. cbn [utf8_decode]. decide_tests. reflexivity. Qed.

Lemma utf8_decode_2 (b0 b1 : Z) (r : buffer) :
  0xC2 <= b0 <= 0xDF -> 0x80 <= b1 <= 0xBF ->
  utf8_decode (b0 :: b1 :: r) = ((b0 - 0xC0) * 64 + (b1 - 0x80)) :: utf8_decode r.
Proof.
  intros H0 H1. cbn [utf8_decode]. unfold is_continuation.
  decide_tests. reflexivity.
Qed.

Lemma utf8_decode_3 (b0 b1 b2 : Z) (r : buffer) :
  0xE0 <= b0 <= 0xEF -> 0x80 <= b1 <= 0xBF -> 0x80 <= b2 <= 0xBF ->
  (b0 = 0xE0 -> 0xA0 <= b1) -> (b0 = 0xED -> b1 <= 0x9F) ->
  utf8_decode (b0 :: b1 :: b2 :: r)
  = ((b0 - 0xE0) * 4096 + (b1 - 0x80) * 64 + (b2 - 0x80)) :: utf8_decode r.
Proof.
  intros H0 H1 H2 Hlo Hhi. cbn [utf8_decode].
  unfold is_continuation, is_second, second_lower, second_upper.
  destruct (Z.eq_dec b0 0xE0) as [E|E]; [specialize (Hlo E)|clear Hlo];
  (destruct (Z.eq_dec b0 0xED) as [E'|E']; [specialize (Hhi E')|clear Hhi]);
  try (exfalso; lia); decide_tests; reflexivity.
Qed.

Lemma utf8_decode_4 (b0 b1 b2 b3 : Z) (r : buffer) :
  0xF0 <= b0 <= 0xF4 -> 0x80 <= b1 <= 0xBF -> 0x80 <= b2 <= 0xBF ->
  0x80 <= b3 <= 0xBF ->
  (b0 = 0xF0 -> 0x90 <= b1) -> (b0 = 0xF4 -> b1 <= 0x8F) ->
  utf8_decode (b0 :: b1 :: b2 :: b3 :: r)
  = utf16_of_code_point
      ((b0 - 0xF0) * 262144 + (b1 - 0x80) * 4096 + (b2 - 0x80) * 64 + (b3 - 0x80))
    ++ utf8_decode r.
Proof.
  intros H0 H1 H2 H3 Hlo Hhi. cbn [utf8_decode].
  unfold is_continuation, is_second, second_lower, second_upper.
  destruct (Z.eq_dec b0 0xF0) as [E|E]; [specialize (Hlo E)|clear Hlo];
  (destruct (Z.eq_dec b0 0xF4) as [E'|E']; [specialize (Hhi E')|clear Hhi]);
  try (exfalso; lia); decide_tests; reflexivity.
Qed.

Lemma utf8_decode_code_point (cp : Z) (r : buffer) :
  0 <= cp < 0x110000 -> ~ (0xD800 <= cp <= 0xDFFF) ->
  utf8_decode (utf8_of_code_point cp ++ r) = utf16_of_code_point cp ++ utf8_decode r.
Proof.
  intros Hr Hs. unfold utf8_of_code_point.
  destruct (Z.ltb_spec cp 0x80).
  { cbn [app]. rewrite utf8_decode_1 by lia.
    unfold utf16_of_code_point. decide_tests. reflexivity. }
  destruct (Z.ltb_spec cp 0x800).
  { cbn [app]. rewrite utf8_decode_2 by (Z.div_mod_to_equations; lia).
    unfold utf16_of_code_point. decide_tests. cbn [app]. f_equal.
    Z.div_mod_to_equations; lia. }
  destruct (Z.ltb_spec cp 0x10000).
  { cbn [app]. rewrite utf8_decode_3 by (Z.div_mod_to_equations; lia).
    unfold utf16_of_code_point. decide_tests. cbn [app]. f_equal.
    Z.div_mod_to_equations; lia. }
  { cbn [app]. rewrite utf8_decode_4 by (Z.div_mod_to_equations; lia).
    f_equal. f_equal. Z.div_mod_to_equations; lia. }
Qed.

Lemma utf16_of_pair (c d : Z) :
  0xD800 <= c <= 0xDBFF -> 0xDC00 <= d <= 0xDFFF ->
  utf16_of_code_point (0x10000 + (c - 0xD800) * 1024 + (d - 0xDC00)) = [c; d].
Proof.
  intros Hc Hd. unfold utf16_of_code_point. decide_tests.
  f_equal; [|f_equal]; Z.div_mod_to_equations; lia.
Qed.

Lemma utf8_roundtrip_bounded (n : nat) :
  forall s : jsstring, (length s <= n)%nat -> well_formed s = true ->
    utf8_decode (utf8_encode s) = s.
Proof.
  induction n as [|n IH]; intros s Hlen Hwf.
  { destruct s; [reflexivity | cbn in Hlen; lia]. }
  destruct s as [|c rest]; [reflexivity|].
  cbn [well_formed] in Hwf. cbn [utf8_encode].
  apply andb_prop in Hwf as [Hcu Hwf]. apply andb_prop in Hcu as [Hc0 Hc1].
  apply Z.leb_le in Hc0. apply Z.ltb_lt in Hc1.
  destruct (is_high_surrogate c) eqn:Hh.
  - destruct rest as [|d rest']; [discriminate|].
    apply andb_prop in Hwf as [Hl Hwf]. rewrite Hl.
    unfold is_high_surrogate in Hh. unfold is_low_surrogate in Hl.
    apply andb_prop in Hh as [Hh0 Hh1]. apply andb_prop in Hl as [Hl0 Hl1].
    apply Z.leb_le in Hh0, Hh1, Hl0, Hl1.
    rewrite utf8_decode_code_point by lia.
    rewrite utf16_of_pair by lia.
    rewrite IH; [reflexivity | cbn in Hlen; lia | exact Hwf].
  - apply andb_prop in Hwf as [Hl Hwf]. apply negb_true_iff in Hl. rewrite Hl.
    assert (Hns : ~ (0xD800 <= c <= 0xDFFF)).
    { unfold is_high_surrogate in Hh. unfold is_low_surrogate in Hl.
      apply andb_false_iff in Hh. apply andb_false_iff in Hl.
      rewrite !Z.leb_gt in Hh, Hl. lia. }
    rewrite utf8_decode_code_point by lia.
    unfold utf16_of_code_point. decide_tests. cbn [app].
    rewrite IH; [reflexivity | cbn in Hlen; lia | exact Hwf].
Qed.

Lemma utf8_roundtrip (s : jsstring) :
  well_formed s = true -> utf8_decode (utf8_encode s) = s.
Proof. apply (utf8_roundtrip_bounded (length s)). lia. Qed.

Lemma utf8_of_code_point_bytes (cp : Z) :
  0 <= cp < 0x110000 -> is_bytes (utf8_of_code_point cp).
Proof.
  intros H. unfold utf8_of_code_point, is_bytes, byte_ok.
  destruct (Z.ltb_spec cp 0x80); [repeat constructor; lia|].
  destruct (Z.ltb_spec cp 0x800);
    [repeat constructor; Z.div_mod_to_equations; lia|].
  destruct (Z.ltb_spec cp 0x10000);
    repeat constructor; Z.div_mod_to_equations; lia.
Qed.


Lemma utf8_encode_bytes_bounded (n : nat) :
  forall s : jsstring, (length s <= n)%nat -> well_formed s = true ->
    is_bytes (utf8_encode s).
Proof.
  induction n as [|n IH]; intros s Hlen Hwf.
  { destruct s; [constructor | cbn in Hlen; lia]. }
  destruct s as [|c rest]; [constructor|].
  cbn [well_formed] in Hwf. cbn [utf8_encode].
  apply andb_prop in Hwf as [Hcu Hwf]. apply andb_prop in Hcu as [Hc0 Hc1].
  apply Z.leb_le in Hc0. apply Z.ltb_lt in Hc1.
  destruct (is_high_surrogate c) eqn:Hh.
  - destruct rest as [|d rest']; [discriminate|].
    apply andb_prop in Hwf as [Hl Hwf]. rewrite Hl.
    unfold is_high_surrogate in Hh. unfold is_low_surrogate in Hl.
    apply andb_prop in Hh as [Hh0 Hh1]. apply andb_prop in Hl as [Hl0 Hl1].
    apply Z.leb_le in Hh0, Hh1, Hl0, Hl1.
    apply Forall_app. split.
    + apply utf8_of_code_point_bytes. lia.
    + apply IH; [cbn in Hlen; lia | exact Hwf].
  - apply andb_prop in Hwf as [Hl Hwf]. apply negb_true_iff in Hl. rewrite Hl.
    apply Forall_app. split.
    + apply utf8_of_code_point_bytes. lia.
    + apply IH; [cbn in Hlen; lia | exact Hwf].
Qed.

Lemma utf8_encode_bytes (s : jsstring) :
  well_formed s = true -> is_bytes (utf8_encode s).
Proof. apply (utf8_encode_bytes_bounded (length s)). lia. Qed.

(** Slicing [salt ‖ iv ‖ tag ‖ ciphertext] at 64, 80 and 96 gives the four
    parts back. *)
Lemma slices_of_app (a b c d : buffer) :
  take (length a) (a ++ b ++ c ++ d) = a /\
  take (length b) (drop (length a) (a ++ b ++ c ++ d)) = b /\
  take (length c) (drop (length a + length b) (a ++ b ++ c ++ d)) = c /\
  drop (length a + length b + length c) (a ++ b ++ c ++ d) = d.
Proof.
  repeat split.
  - apply take_app_length.
  - rewrite drop_app_length. apply take_app_length.
  - rewrite <- drop_drop, !drop_app_length. apply take_app_length.
  - rewrite <- !drop_drop, !drop_app_length. reflexivity.
Qed.

Lemma subarray_layout (salt iv tag ct : buffer) :
  Z.of_nat (length salt) = SALT_LENGTH ->
  Z.of_nat (length iv) = IV_LENGTH ->
  Z.of_nat (length tag) = TAG_LENGTH ->
  subarray (salt ++ iv ++ tag ++ ct) 0 SALT_LENGTH = salt /\
  subarray (salt ++ iv ++ tag ++ ct) SALT_LENGTH (SALT_LENGTH + IV_LENGTH) = iv /\
  subarray (salt ++ iv ++ tag ++ ct) (SALT_LENGTH + IV_LENGTH)
    (SALT_LENGTH + IV_LENGTH + TAG_LENGTH) = tag /\
  subarray_from (salt ++ iv ++ tag ++ ct) (SALT_LENGTH + IV_LENGTH + TAG_LENGTH) = ct.
Proof.
  unfold subarray, subarray_from. intros Hs Hi Ht.
  replace (Z.to_nat (SALT_LENGTH - 0)) with (length salt) by lia.
  replace (Z.to_nat 0) with 0%nat by lia.
  replace (Z.to_nat (SALT_LENGTH + IV_LENGTH - SALT_LENGTH)) with (length iv) by lia.
  replace (Z.to_nat (SALT_LENGTH + IV_LENGTH + TAG_LENGTH - (SALT_LENGTH + IV_LENGTH)))
    with (length tag) by lia.
  replace (Z.to_nat (SALT_LENGTH + IV_LENGTH + TAG_LENGTH))
    with (length salt + length iv + length tag)%nat by lia.
  replace (Z.to_nat (SALT_LENGTH + IV_LENGTH))
    with (length salt + length iv)%nat by lia.
  replace (Z.to_nat SALT_LENGTH) with (length salt) by lia.
  cbn [skipn]. apply slices_of_app.
Qed.

Section CryptoFacts.
Context {L : NodeLib} {Laws : NodeLaws L}.

End CryptoFacts.

(* ================================================================== *)
(** * The small library satisfies the laws *)
(* ================================================================== *)

Module TestLibFacts.
Import TestLib.

Lemma counter_bytes_length (n : nat) (start : Z) :
  length (counter_bytes n start) = n.
Proof. revert start. induction n as [|n IH]; intros start; cbn; [|rewrite IH]; reflexivity. Qed.

Lemma counter_bytes_ok (n : nat) (start : Z) : is_bytes (counter_bytes n start).
Proof.
  revert start. induction n as [|n IH]; intros start; cbn; constructor.
  - unfold byte_ok. apply Z.mod_pos_bound. lia.
  - apply IH.
Qed.

Lemma hex_digit_value (d : Z) : 0 <= d < 16 -> hex_value (hex_digit d) = d.
Proof.
  intros H. unfold hex_value, hex_digit.
  destruct (Z.ltb_spec d 10).
  - destruct (Z.ltb_spec (48 + d) 58); lia.
  - destruct (Z.ltb_spec (87 + d) 58); lia.
Qed.

Lemma hex_roundtrip (b : buffer) : is_bytes b -> hex_decode (hex_encode b) = b.
Proof.
  induction 1 as [|x rest Hx _ IH]; [reflexivity|].
  cbn [hex_encode hex_decode]. rewrite IH. f_equal.
  unfold byte_ok in Hx.
  rewrite !hex_digit_value by (Z.div_mod_to_equations; lia).
  Z.div_mod_to_equations; lia.
Qed.

Lemma unshift_shift (k : Z) (pt : buffer) :
  is_bytes pt ->
  List.map (fun c => (c - k) mod 256) (List.map (fun b => (b + k) mod 256) pt) = pt.
Proof.
  induction 1 as [|x rest Hx _ IH]; [reflexivity|].
  cbn [List.map]. rewrite IH. f_equal.
  rewrite Zminus_mod_idemp_l. replace (x + k - k) with x by lia.
  apply Z.mod_small. exact Hx.
Qed.

Lemma shifted_bytes (k : Z) (pt : buffer) :
  is_bytes (List.map (fun b => (b + k) mod 256) pt).
Proof.
  induction pt as [|x rest IH]; cbn; constructor; [|exact IH].
  unfold byte_ok. apply Z.mod_pos_bound. lia.
Qed.

Lemma checksum_bytes (key iv ct : buffer) : is_bytes (checksum key iv ct).
Proof.
  unfold checksum, is_bytes. apply Forall_forall. intros x Hx.
  apply list_elem_of_In, repeat_spec in Hx. subst x. unfold byte_ok. apply Z.mod_pos_bound. lia.
Qed.

Lemma laws : NodeLaws lib.
Proof.
  constructor; cbn.
  - intros n g Hn. unfold randomBytes. cbn. rewrite counter_bytes_length. lia.
  - intros n g. apply counter_bytes_ok.
  - intros pw salt iters keylen Hk. unfold pbkdf2Sync.
    rewrite counter_bytes_length. lia.
  - intros. apply counter_bytes_ok.
  - intros key iv pt Bk Lk Bi Li Bp.
    unfold cipher_seal, decipher_open, key_ok.
    rewrite bool_decide_eq_true_2 by reflexivity.
    replace (Z.of_nat (length key) =? 32) with true by (symmetry; apply Z.eqb_eq; exact Lk).
    cbn [andb].
    eexists _, _. split; [reflexivity|].
    split; [apply shifted_bytes|].
    split; [apply checksum_bytes|].
    split; [unfold checksum; rewrite repeat_length; reflexivity|].
    rewrite bool_decide_eq_true_2 by reflexivity.
    rewrite unshift_shift by exact Bp. reflexivity.
  - apply hex_roundtrip.
Qed.
End TestLibFacts.

(* ================================================================== *)
(** * The encryption scheme (crypto.ts) *)
(* ================================================================== *)





(* ================================================================== *)
(** * The token vault (steamFunctions.ts) *)
(* ================================================================== *)

Section VaultFacts.
Context {L : NodeLib}.

Lemma lookup_entry_remove_eq (name : jsstring) (w : World) :
  lookup_entry name (remove_entry name w) = None.
Proof.
  unfold lookup_entry, remove_entry. open_world w.
  destruct tdir as [d|]; cbn; [apply lookup_delete_eq | reflexivity].
Qed.

Lemma lookup_entry_remove_ne (name other : jsstring) (w : World) :
  name <> other -> lookup_entry other (remove_entry name w) = lookup_entry other w.
Proof.
  intros Hne. unfold lookup_entry, remove_entry. open_world w.
  destruct tdir as [d|]; cbn; [by apply lookup_delete_ne | reflexivity].
Qed.

Lemma encryptionKey_remove (name : jsstring) (w : World) :
  encryptionKey (remove_entry name w) = encryptionKey w.
Proof. unfold remove_entry. destruct (tokensDir w); reflexivity. Qed.

Lemma loadToken_no_key (u : jsstring) (w : World) :
  string_truthy (encryptionKey w) = false -> loadToken u w = (Ok None, w, []).
Proof. intros H. unfold loadToken. run. reflexivity. Qed.

Lemma loadToken_absent (u : jsstring) (w : World) :
  lookup_entry (tokenPath u) w = None -> loadToken u w = (Ok None, w, []).
Proof.
  intros H. unfold loadToken, existsSync.
  destruct (string_truthy (encryptionKey w)) eqn:Hk; run; reflexivity.
Qed.

Lemma loadToken_file (u : jsstring) (w : World) (c : buffer) (t : float) :
  string_truthy (encryptionKey w) = true ->
  lookup_entry (tokenPath u) w = Some (File c t) ->
  loadToken u w =
    match read_token (encryptionKey w) c with
    | Some v => (Ok v, w, [])
    | None => (Ok None, remove_entry (tokenPath u) w, [Console (LogInvalidToken u)])
    end.
Proof.
  intros Hk Hf. unfold read_token.
  destruct (decrypt (utf8_decode c) (encryptionKey w)) as [dec|] eqn:E1.
  2:{ unfold loadToken, existsSync, readFileSync, call_decrypt,
        call_JSON_parse, unlinkSync, remove_entry, lookup_entry in *.
      open_world w. destruct tdir as [d|]; [|discriminate].
      run. reflexivity. }
  destruct (JSON_parse dec) as [data|] eqn:E2.
  2:{ unfold loadToken, existsSync, readFileSync, call_decrypt,
        call_JSON_parse, unlinkSync, remove_entry, lookup_entry in *.
      open_world w. destruct tdir as [d|]; [|discriminate].
      run. reflexivity. }
  destruct (get_property data (js "refreshToken")) as [e|v] eqn:E3;
    unfold loadToken, existsSync, readFileSync, call_decrypt,
        call_JSON_parse, unlinkSync, remove_entry, lookup_entry in *;
    open_world w; (destruct tdir as [d|]; [|discriminate]);
    run; reflexivity.
Qed.

Lemma loadToken_directory (u : jsstring) (w : World) (t : float) :
  string_truthy (encryptionKey w) = true ->
  lookup_entry (tokenPath u) w = Some (Directory t) ->
  loadToken u w = (Throw EPERM, w, [Console (LogInvalidToken u)]).
Proof.
  intros Hk Hf.
  unfold loadToken, existsSync, readFileSync, unlinkSync, lookup_entry in *.
  open_world w. destruct tdir as [d|]; [|discriminate].
  run. reflexivity.
Qed.

(** [loadToken] returns [saved_token]; it changes the world only by
    removing a token file it could not read. *)
Lemma loadToken_saved_token (u : jsstring) (w : World) :
  token_not_directory u w ->
  result (loadToken u w) = Ok (saved_token u w) /\
  (world (loadToken u w) = w \/
   (saved_token u w = None /\ world (loadToken u w) = remove_entry (tokenPath u) w)).
Proof.
  intros Hnd. unfold saved_token.
  destruct (string_truthy (encryptionKey w)) eqn:Hk.
  2:{ rewrite loadToken_no_key by exact Hk. split; [reflexivity | left; reflexivity]. }
  destruct (lookup_entry (tokenPath u) w) as [[c t|t]|] eqn:Hf.
  - rewrite (loadToken_file u w c t Hk Hf).
    destruct (read_token (encryptionKey w) c) as [v|].
    + split; [reflexivity | left; reflexivity].
    + split; [reflexivity | right; split; reflexivity].
  - exfalso. exact (Hnd t Hf).
  - rewrite loadToken_absent by exact Hf. split; [reflexivity | left; reflexivity].
Qed.

Lemma saved_token_truthy (u : jsstring) (w : World) (v : json) :
  saved_token u w = Some v -> truthy v = true.
Proof.
  unfold saved_token, read_token.
  destruct (string_truthy (encryptionKey w)); [|discriminate].
  destruct (lookup_entry (tokenPath u) w) as [[c t|t]|]; try discriminate.
  destruct (decrypt _ _) as [dec|]; [|discriminate].
  destruct (JSON_parse dec) as [data|]; [|discriminate].
  destruct (get_property data _) as [e|[x|]]; try discriminate.
  cbn. destruct (truthy x) eqn:Hx; [|discriminate].
  intros [= <-]. exact Hx.
Qed.

Lemma saved_token_remove (u : jsstring) (w : World) :
  saved_token u (remove_entry (tokenPath u) w) = None.
Proof.
  unfold saved_token. rewrite lookup_entry_remove_eq.
  destruct (string_truthy _); reflexivity.
Qed.

Lemma saveToken_no_key (u token : jsstring) (w : World) :
  string_truthy (encryptionKey w) = false -> saveToken u token w = (Ok tt, w, []).
Proof. intros H. unfold saveToken. run. reflexivity. Qed.

Lemma deleteToken_file (u : jsstring) (w : World) (c : buffer) (t : float) :
  lookup_entry (tokenPath u) w = Some (File c t) ->
  deleteToken u w = (Ok tt, remove_entry (tokenPath u) w, []).
Proof.
  intros Hf. unfold deleteToken, existsSync, unlinkSync, remove_entry, lookup_entry in *.
  open_world w. destruct tdir as [d|]; [|discriminate].
  run. reflexivity.
Qed.

Lemma deleteToken_absent (u : jsstring) (w : World) :
  lookup_entry (tokenPath u) w = None -> deleteToken u w = (Ok tt, w, []).
Proof. intros Hf. unfold deleteToken, existsSync. run. reflexivity. Qed.

(** [deleteToken] on an entry that is not a subdirectory: the entry is
    gone and nothing else changed. *)
Lemma deleteToken_run (u : jsstring) (w : World) :
  token_not_directory u w ->
  deleteToken u w = (Ok tt, remove_entry (tokenPath u) w, []).
Proof.
  intros Hnd. destruct (lookup_entry (tokenPath u) w) as [[c t|t]|] eqn:Hf.
  - exact (deleteToken_file u w c t Hf).
  - exfalso. exact (Hnd t Hf).
  - rewrite deleteToken_absent by exact Hf. f_equal. f_equal.
    unfold remove_entry, lookup_entry in *. open_world w.
    destruct tdir as [d|]; [|reflexivity].
    unfold set_tokensDir; cbn. by rewrite delete_id.
Qed.
End VaultFacts.

Section VaultClaims.
Context {L : NodeLib}.

Lemma hasToken_result (u : jsstring) (w : World) :
  hasToken u w =
    (match result (loadToken u w) with
     | Ok t => Ok (match t with Some _ => true | None => false end)
     | Throw e => Throw e
     end, world (loadToken u w), events (loadToken u w)).
Proof.
  unfold hasToken, result, world, events. unfold_M.
  destruct (loadToken u w) as [[[t|e] w1] evs]; cbn; [rewrite app_nil_r|]; reflexivity.
Qed.

(** C2. With an encryption key set, when the token file of an account
    cannot be decrypted (wrong passphrase, corrupted ciphertext) or its
    plaintext cannot be parsed (bad JSON, or the JSON value [null]),
    [loadToken] returns [null] without throwing and the only change to
    the world is that the file is removed; so [hasToken] answers
    [false], and a second [loadToken] returns [null] again and changes
    nothing. *)
Theorem loadToken_failure_deletes (u : jsstring) (w : World) (c : buffer) (t : float) :
  string_truthy (encryptionKey w) = true ->
  lookup_entry (tokenPath u) w = Some (File c t) ->
  (decrypt (utf8_decode c) (encryptionKey w) = None \/
   exists d, decrypt (utf8_decode c) (encryptionKey w) = Some d /\
             (JSON_parse d = None \/ JSON_parse d = Some JNull)) ->
  loadToken u w
    = (Ok None, remove_entry (tokenPath u) w, [Console (LogInvalidToken u)]) /\
  lookup_entry (tokenPath u) (remove_entry (tokenPath u) w) = None /\
  result (hasToken u w) = Ok false /\
  world (hasToken u w) = remove_entry (tokenPath u) w /\
  loadToken u (remove_entry (tokenPath u) w)
    = (Ok None, remove_entry (tokenPath u) w, []) /\
  result (hasToken u (remove_entry (tokenPath u) w)) = Ok false.
Proof.
  intros Hk Hf Hfail.
  assert (Hread : read_token (encryptionKey w) c = None).
  { unfold read_token. destruct Hfail as [-> | (d & -> & [-> | ->])]; reflexivity. }
  assert (Hload : loadToken u w
    = (Ok None, remove_entry (tokenPath u) w, [Console (LogInvalidToken u)])).
  { rewrite (loadToken_file u w c t Hk Hf), Hread. reflexivity. }
  assert (Hagain : loadToken u (remove_entry (tokenPath u) w)
    = (Ok None, remove_entry (tokenPath u) w, [])).
  { apply loadToken_absent, lookup_entry_remove_eq. }
  repeat split.
  - exact Hload.
  - apply lookup_entry_remove_eq.
  - rewrite hasToken_result, Hload. reflexivity.
  - rewrite hasToken_result, Hload. reflexivity.
  - exact Hagain.
  - rewrite hasToken_result, Hagain. reflexivity.
Qed.

(** C7 (as amended). With no encryption key set, [saveToken] writes
    nothing and [loadToken] returns [null] without reading: both leave
    the world as it is and emit nothing.  [deleteToken] does not look at
    the key: it removes the token file when there is one. *)
Theorem vault_without_key (u token : jsstring) (w : World) :
  string_truthy (encryptionKey w) = false ->
  saveToken u token w = (Ok tt, w, []) /\
  loadToken u w = (Ok None, w, []) /\
  (forall c t, lookup_entry (tokenPath u) w = Some (File c t) ->
     deleteToken u w = (Ok tt, remove_entry (tokenPath u) w, []) /\
     lookup_entry (tokenPath u) (world (deleteToken u w)) = None) /\
  (lookup_entry (tokenPath u) w = None -> deleteToken u w = (Ok tt, w, [])).
Proof.
  intros Hk. repeat split.
  - apply saveToken_no_key, Hk.
  - apply loadToken_no_key, Hk.
  - apply (deleteToken_file u w c t H).
  - rewrite (deleteToken_file u w c t H). apply lookup_entry_remove_eq.
  - apply deleteToken_absent.
Qed.
End VaultClaims.

Import Samples.

Lemma loadToken_failure_deletes_witness :
  string_truthy (encryptionKey corrupted_world) = true /\
  lookup_entry (tokenPath (js "alice")) corrupted_world = Some (File [1; 2; 3] 0%float) /\
  decrypt (L := TestLib.lib) (utf8_decode [1; 2; 3]) (encryptionKey corrupted_world) = None /\
  result (loadToken (js "alice") corrupted_world) = Ok None /\
  result (hasToken (js "alice") (remove_entry (tokenPath (js "alice")) corrupted_world))
  = Ok false.
Proof.
  assert (Hk : string_truthy (encryptionKey corrupted_world) = true) by reflexivity.
  assert (Hf : lookup_entry (tokenPath (js "alice")) corrupted_world
               = Some (File [1; 2; 3] 0%float)) by (vm_compute; reflexivity).
  assert (Hd : decrypt (L := TestLib.lib) (utf8_decode [1; 2; 3])
                 (encryptionKey corrupted_world) = None) by (vm_compute; reflexivity).
  destruct (loadToken_failure_deletes (js "alice") corrupted_world [1; 2; 3] 0%float
              Hk Hf (or_introl Hd)) as (H1 & _ & _ & _ & _ & H6).
  split; [exact Hk|]. split; [exact Hf|]. split; [exact Hd|].
  split; [rewrite H1; reflexivity | exact H6].
Defined.

Lemma vault_without_key_witness :
  string_truthy (encryptionKey keyless_world) = false /\
  saveToken (js "alice") (js "eyJhbGciOi") keyless_world = (Ok tt, keyless_world, []) /\
  loadToken (js "alice") keyless_world = (Ok None, keyless_world, []).
Proof.
  assert (Hk : string_truthy (encryptionKey keyless_world) = false) by reflexivity.
  destruct (vault_without_key (js "alice") (js "eyJhbGciOi") keyless_world Hk)
    as (H1 & H2 & _).
  split; [exact Hk|]. split; assumption.
Defined.

(** C7 as stated fails for [deleteToken]: with no key set and a token file
    stored for alice, the file is gone after the call. *)
Lemma deleteToken_without_key_deletes :
  string_truthy (encryptionKey keyless_world) = false /\
  lookup_entry (tokenPath (js "alice")) keyless_world = Some (File [1; 2; 3] 0%float) /\
  result (deleteToken (js "alice") keyless_world) = Ok tt /\
  lookup_entry (tokenPath (js "alice")) (world (deleteToken (js "alice") keyless_world))
  = None /\
  world (deleteToken (js "alice") keyless_world) <> keyless_world.
Proof.
  repeat split; try (vm_compute; reflexivity).
  intros H. apply (f_equal (lookup_entry (tokenPath (js "alice")))) in H.
  vm_compute in H. discriminate.
Qed.

(* ================================================================== *)
(** * The reconnect scheduler *)
(* ================================================================== *)

Section SchedulerFacts.
Context {L : NodeLib}.

Lemma remove_entry_fields (name : jsstring) (w : World) :
  encryptionKey (remove_entry name w) = encryptionKey w /\
  activeClients (remove_entry name w) = activeClients w /\
  accountsToReconnect (remove_entry name w) = accountsToReconnect w /\
  reconnectTimers (remove_entry name w) = reconnectTimers w /\
  timers (remove_entry name w) = timers w /\
  clients (remove_entry name w) = clients w.
Proof. unfold remove_entry. destruct (tokensDir w); repeat split; reflexivity. Qed.

(** The world [loadToken] leaves: the same one, or the one without the
    unreadable token file. *)
Lemma loadToken_world (u : jsstring) (w : World) :
  token_not_directory u w ->
  events (loadToken u w) = [] /\ world (loadToken u w) = w \/
  saved_token u w = None /\
  events (loadToken u w) = [Console (LogInvalidToken u)] /\
  world (loadToken u w) = remove_entry (tokenPath u) w.
Proof.
  intros Hnd. unfold saved_token.
  destruct (string_truthy (encryptionKey w)) eqn:Hk.
  2:{ rewrite loadToken_no_key by exact Hk. left. split; reflexivity. }
  destruct (lookup_entry (tokenPath u) w) as [[c t|t]|] eqn:Hf.
  - rewrite (loadToken_file u w c t Hk Hf).
    destruct (read_token (encryptionKey w) c) as [v|].
    + left. split; reflexivity.
    + right. repeat split; reflexivity.
  - exfalso. exact (Hnd t Hf).
  - rewrite loadToken_absent by exact Hf. left. split; reflexivity.
Qed.

Lemma loadToken_keeps_maps (u : jsstring) (w : World) :
  token_not_directory u w ->
  encryptionKey (world (loadToken u w)) = encryptionKey w /\
  activeClients (world (loadToken u w)) = activeClients w /\
  accountsToReconnect (world (loadToken u w)) = accountsToReconnect w /\
  reconnectTimers (world (loadToken u w)) = reconnectTimers w /\
  timers (world (loadToken u w)) = timers w /\
  clients (world (loadToken u w)) = clients w.
Proof.
  intros Hnd. destruct (loadToken_world u w Hnd) as [[_ ->] | (_ & _ & ->)].
  - repeat split; reflexivity.
  - apply remove_entry_fields.
Qed.

Lemma token_not_directory_remove (u name : jsstring) (w : World) :
  token_not_directory u w -> token_not_directory u (remove_entry name w).
Proof.
  intros Hnd t. destruct (decide (name = tokenPath u)) as [->|Hne].
  - rewrite lookup_entry_remove_eq. discriminate.
  - rewrite lookup_entry_remove_ne by exact Hne. apply Hnd.
Qed.

Lemma loadToken_again (u : jsstring) (w : World) :
  token_not_directory u w ->
  token_not_directory u (world (loadToken u w)) /\
  saved_token u (world (loadToken u w)) = saved_token u w /\
  loadToken u (world (loadToken u w))
  = (Ok (saved_token u w), world (loadToken u w), []).
Proof.
  intros Hnd.
  destruct (loadToken_saved_token u w Hnd) as [Hres _].
  destruct (loadToken_world u w Hnd) as [[He Hw] | (Hs & He & Hw)].
  - rewrite Hw. split; [exact Hnd|]. split; [reflexivity|].
    destruct (loadToken u w) as [[r w1] evs]. cbn in *. subst. reflexivity.
  - rewrite Hw. split; [by apply token_not_directory_remove|].
    rewrite saved_token_remove, Hs. split; [reflexivity|].
    apply loadToken_absent, lookup_entry_remove_eq.
Qed.

Lemma scheduleReconnect_pending (a : Account) (w : World) (h : nat) :
  reconnectTimers w !! username a = Some h ->
  scheduleReconnect a w = (Ok tt, w, [Console (LogAlreadyScheduled (username a))]).
Proof.
  intros Hp. unfold scheduleReconnect, isPendingReconnect. run. reflexivity.
Qed.

(** A call of [scheduleReconnect] with no reconnect pending. *)
Lemma scheduleReconnect_fresh (a : Account) (w : World) :
  reconnectTimers w !! username a = None ->
  token_not_directory (username a) w ->
  scheduleReconnect a w =
    if eligible a w
    then (Ok tt, armed a (world (loadToken (username a) w)),
          events (loadToken (username a) w)
            ++ [Console (LogScheduling (username a)); Console (LogTimerSet (username a))])
    else (Ok tt, world (loadToken (username a) w),
          events (loadToken (username a) w)
            ++ [Console (LogCannotReconnect (username a))]).
Proof.
  intros Hp Hnd. unfold eligible.
  destruct (loadToken_saved_token (username a) w Hnd) as [Hres _].
  unfold scheduleReconnect, isPendingReconnect, hasToken, setTimeout, armed.
  unfold result, world, events in *.
  destruct (loadToken (username a) w) as [[r w1] evs] eqn:Hl. cbn in Hres. subst r.
  unfold_M. cbn. rewrite Hp. rewrite Hl. cbn.
  destruct (saved_token (username a) w) as [v|]; cbn.
  - rewrite app_nil_r. reflexivity.
  - destruct (option_truthy (sharedSecret a)); cbn; [rewrite app_nil_r; reflexivity|].
    destruct (is_guard_none (guardType a)); cbn; rewrite app_nil_r; reflexivity.
Qed.

Lemma armed_fields (a : Account) (w : World) :
  reconnectTimers (armed a w)
    = <[username a := fresh (dom (timers w))]> (reconnectTimers w) /\
  timers (armed a w)
    = <[fresh (dom (timers w)) := mkTimer (ReconnectTask a) RECONNECT_DELAY Armed]> (timers w) /\
  accountsToReconnect (armed a w) = <[username a := a]> (accountsToReconnect w) /\
  tokensDir (armed a w) = tokensDir w /\
  encryptionKey (armed a w) = encryptionKey w /\
  activeClients (armed a w) = activeClients w /\
  clients (armed a w) = clients w.
Proof. repeat split; reflexivity. Qed.


End SchedulerFacts.

Section SchedulerClaims.
Context {L : NodeLib}.



End SchedulerClaims.

Lemma empty_world_not_directory (u : jsstring) :
  token_not_directory u empty_world.
Proof. intros t. unfold lookup_entry. cbn. rewrite lookup_empty. discriminate. Qed.




(* ================================================================== *)
(** * The accounts file (storage.ts) *)
(* ================================================================== *)

Section StorageClaims.
Context {L : NodeLib}.

Lemma loadAccounts_run (this : SecureStorage) (w : World) :
  loadAccounts this w =
    match dataFile w with
    | None => (Ok (JArray []), w, [])
    | Some e =>
        match read_accounts (storage_encryptionKey this) e with
        | Some v => (Ok v, w, [])
        | None => (Ok (JArray []), w, [Console LogDecryptAccountsFailed])
        end
    end.
Proof.
  unfold loadAccounts, existsSync_data, readFileSync_data, call_decrypt,
    call_JSON_parse, read_accounts.
  destruct (dataFile w) as [[c t|t]|] eqn:Hd; [| run; reflexivity | run; reflexivity].
  destruct (decrypt (utf8_decode c) (storage_encryptionKey this)) as [d|] eqn:E1;
    [|run; reflexivity].
  destruct (JSON_parse d) as [v|] eqn:E2; run; reflexivity.
Qed.

(** C10. [loadAccounts] never throws and never changes the world.  It
    returns the empty array when the accounts file does not exist, and
    also when reading it fails (it is a directory), when decryption
    fails, or when parsing fails; the file stays as it is. *)
Theorem loadAccounts_never_throws (this : SecureStorage) (w : World) :
  (exists v, result (loadAccounts this w) = Ok v) /\
  world (loadAccounts this w) = w /\
  (dataFile w = None -> result (loadAccounts this w) = Ok (JArray [])) /\
  (forall t, dataFile w = Some (Directory t) ->
     result (loadAccounts this w) = Ok (JArray [])) /\
  (forall c t, dataFile w = Some (File c t) ->
     decrypt (utf8_decode c) (storage_encryptionKey this) = None ->
     result (loadAccounts this w) = Ok (JArray [])) /\
  (forall c t d, dataFile w = Some (File c t) ->
     decrypt (utf8_decode c) (storage_encryptionKey this) = Some d ->
     JSON_parse d = None ->
     result (loadAccounts this w) = Ok (JArray [])).
Proof.
  rewrite loadAccounts_run.
  destruct (dataFile w) as [e|] eqn:Hd.
  - destruct (read_accounts (storage_encryptionKey this) e) as [v|] eqn:Hr;
      unfold result, world; cbn [fst snd].
    + split; [eauto|]. split; [reflexivity|]. split; [discriminate|].
      split; [intros t [= ->]; discriminate|].
      split.
      * intros c t [= ->] E. cbn in Hr. rewrite E in Hr. discriminate.
      * intros c t d [= ->] E1 E2. cbn in Hr. rewrite E1, E2 in Hr. discriminate.
    + split; [eauto|]. repeat split; reflexivity.
  - unfold result, world; cbn [fst snd].
    split; [eauto|]. repeat split; try reflexivity; discriminate.
Qed.
End StorageClaims.

Lemma loadAccounts_never_throws_witness :
  result (loadAccounts (mkSecureStorage key16)
            (mkWorld (L := TestLib.lib) key16 (Some ∅) (Some (File [1; 2; 3] 0%float))
               ∅ ∅ ∅ ∅ ∅ 5 0%float))
  = Ok (JArray []).
Proof.
  apply (loadAccounts_never_throws (mkSecureStorage key16)
           (mkWorld (L := TestLib.lib) key16 (Some ∅) (Some (File [1; 2; 3] 0%float))
              ∅ ∅ ∅ ∅ ∅ 5 0%float)) with (c := [1; 2; 3]) (t := 0%float).
  - reflexivity.
  - vm_compute. reflexivity.
Defined.

(* ================================================================== *)
(** * The cache sweep *)
(* ================================================================== *)

Section SweepClaims.
Context {L : NodeLib}.

Lemma startsWith_app (p rest : jsstring) : startsWith (p ++ rest) p = true.
Proof.
  induction p as [|x p IH]; [destruct rest; reflexivity|].
  cbn. rewrite Z.eqb_refl. exact IH.
Qed.

Lemma endsWith_app (s suffix : jsstring) : endsWith (s ++ suffix) suffix = true.
Proof. unfold endsWith. rewrite rev_app_distr. apply startsWith_app. Qed.

Lemma endsWith_tokenPath (u : jsstring) : endsWith (tokenPath u) (js ".token") = true.
Proof. apply endsWith_app. Qed.

(** One turn of the loop leaves the world as it is or removes the entry
    it looked at, and that only when its name does not end with
    [.token]. *)
Lemma cleanCache_step_world (cleaned : nat) (file : jsstring) (w : World) :
  world (cleanCache_step cleaned file w) = w \/
  endsWith file (js ".token") = false /\
  world (cleanCache_step cleaned file w) = remove_entry file w.
Proof.
  unfold cleanCache_step, statSync, rmSync_recursive, unlinkSync, remove_entry,
    lookup_entry.
  open_world w. destruct tdir as [d|]; [|left; run; reflexivity].
  destruct (d !! file) as [stat|] eqn:Hs; [|left; run; reflexivity].
  destruct (endsWith file (js ".token")) eqn:He; [left; run; reflexivity|].
  run.
  match goal with
  | |- context [if ?c then _ else _] => destruct c eqn:Hc
  end; [|left; reflexivity].
  right. split; [reflexivity|].
  destruct stat as [c t|t]; run; reflexivity.
Qed.

Lemma cleanCache_step_keeps (name : jsstring) (cleaned : nat) (file : jsstring)
    (w : World) :
  endsWith name (js ".token") = true ->
  lookup_entry name (world (cleanCache_step cleaned file w)) = lookup_entry name w.
Proof.
  intros Hn. destruct (cleanCache_step_world cleaned file w) as [-> | [Hf ->]];
    [reflexivity|].
  apply lookup_entry_remove_ne. intros ->. congruence.
Qed.

Lemma cleanCache_loop_keeps (name : jsstring) (files : list jsstring) :
  endsWith name (js ".token") = true ->
  forall (cleaned : nat) (w : World),
    lookup_entry name (world (cleanCache_loop files cleaned w)) = lookup_entry name w.
Proof.
  intros Hn. induction files as [|file rest IH]; intros cleaned w; [reflexivity|].
  cbn [cleanCache_loop]. unfold bind.
  pose proof (cleanCache_step_keeps name cleaned file w Hn) as Hstep.
  destruct (cleanCache_step cleaned file w) as [[[cleaned'|e] w1] evs1]; cbn in *.
  - specialize (IH cleaned' w1).
    destruct (cleanCache_loop rest cleaned' w1) as [[r w2] evs2]. cbn in *.
    congruence.
  - exact Hstep.
Qed.

(** C9. Every entry of the tokens directory whose name ends with
    [.token] is, after [cleanCache], exactly what it was before,
    whatever its age and kind; so an entry that changed has a name that
    does not end with [.token], and the token file of every account is
    kept. *)
Theorem cleanCache_keeps_tokens (w : World) (name : jsstring) :
  (endsWith name (js ".token") = true ->
   lookup_entry name (world (cleanCache w)) = lookup_entry name w) /\
  (lookup_entry name (world (cleanCache w)) <> lookup_entry name w ->
   endsWith name (js ".token") = false) /\
  (forall u, lookup_entry (tokenPath u) (world (cleanCache w))
             = lookup_entry (tokenPath u) w).
Proof.
  assert (Hkeep : forall n, endsWith n (js ".token") = true ->
            lookup_entry n (world (cleanCache w)) = lookup_entry n w).
  { intros n Hn. unfold cleanCache, existsSync_dir, readdirSync.
    destruct (tokensDir w) as [d|] eqn:Hd; [|run; reflexivity].
    pose proof (cleanCache_loop_keeps n (List.map fst (map_to_list d)) Hn 0%nat w)
      as Hloop.
    run.
    destruct (cleanCache_loop _ 0%nat w) as [[[cleaned|e] w1] evs1]; cbn in *.
    - destruct cleaned; exact Hloop.
    - exact Hloop. }
  split; [apply Hkeep|]. split.
  - intros Hne. destruct (endsWith name (js ".token")) eqn:He; [|reflexivity].
    exfalso. apply Hne, Hkeep, He.
  - intros u. apply Hkeep, endsWith_tokenPath.
Qed.
End SweepClaims.

Lemma cleanCache_keeps_tokens_witness :
  endsWith (tokenPath (js "alice")) (js ".token") = true /\
  lookup_entry (tokenPath (js "alice")) (world (cleanCache cache_world))
  = Some (File [1; 2; 3] 0%float) /\
  lookup_entry (js "sentry_alice.bin") (world (cleanCache cache_world)) = None /\
  lookup_entry (js "old") (world (cleanCache cache_world)) = None.
Proof.
  split; [reflexivity|]. split.
  - destruct (cleanCache_keeps_tokens cache_world (tokenPath (js "alice"))) as (H & _).
    rewrite (H eq_refl). vm_compute. reflexivity.
  - split; vm_compute; reflexivity.
Defined.

(* ================================================================== *)
(** * Activity selection *)
(* ================================================================== *)

Section GamesClaims.
Context {L : NodeLib}.






End GamesClaims.



(* ================================================================== *)
(** * login *)
(* ================================================================== *)

Section LoginFacts.
Context {L : NodeLib}.

Lemma logOn_calls_app (xs ys : list Event) :
  logOn_calls (xs ++ ys) = logOn_calls xs ++ logOn_calls ys.
Proof.
  induction xs as [|[l|c [o| |s|g]] xs IH]; cbn; rewrite ?IH; reflexivity.
Qed.

Lemma loadToken_no_calls (u : jsstring) (w : World) :
  token_not_directory u w -> logOn_calls (events (loadToken u w)) = [].
Proof.
  intros Hnd. destruct (loadToken_world u w Hnd) as [[-> _] | (_ & -> & _)]; reflexivity.
Qed.

Lemma remove_entry_clock (name : jsstring) (w : World) :
  clock (remove_entry name w) = clock w.
Proof. unfold remove_entry. destruct (tokensDir w); reflexivity. Qed.

Lemma build_logOnOptions_run (a : Account) (w : World) :
  token_not_directory (username a) w ->
  build_logOnOptions a w =
    match saved_token (username a) w with
    | Some token =>
        (Ok (mkLogOnOptions true (js "t.me/sensejke") (Some token) None None None),
         w, [Console (LogUsingSavedToken (username a))])
    | None =>
        (Ok (mkLogOnOptions true (js "t.me/sensejke") None
               (Some (username a)) (Some (password a)) (two_factor a (clock w))),
         world (loadToken (username a) w), events (loadToken (username a) w))
    end.
Proof.
  intros Hnd.
  destruct (loadToken_saved_token (username a) w Hnd) as [Hres _].
  pose proof (loadToken_world (username a) w Hnd) as Hw.
  pose proof (saved_token_truthy (username a) w) as Htruthy.
  remember (world (loadToken (username a) w)) as w1 eqn:Ew1.
  remember (events (loadToken (username a) w)) as evs eqn:Eevs.
  assert (Hl : loadToken (username a) w = (Ok (saved_token (username a) w), w1, evs)).
  { subst w1 evs. unfold result, world, events in *.
    destruct (loadToken (username a) w) as [[r w0] e0]. cbn in *. subst r. reflexivity. }
  clear Hres Ew1 Eevs.
  unfold build_logOnOptions, two_factor. unfold_M. rewrite Hl.
  destruct (saved_token (username a) w) as [token|]; cbn.
  - rewrite (Htruthy token eq_refl).
    destruct Hw as [[-> ->] | (Hs & _)]; [reflexivity | discriminate].
  - assert (Hclock : clock w1 = clock w).
    { destruct Hw as [[_ ->] | (_ & _ & ->)]; [reflexivity | apply remove_entry_clock]. }
    rewrite Hclock, app_nil_r. reflexivity.
Qed.
End LoginFacts.

Section LoginClaims.
Context {L : NodeLib}.

(** A run of [m ;; k] whose first part returns. *)
Lemma bind_ok {A B} (m : M A) (k : A -> M B) (w w1 : World) (x : A)
    (e1 : list Event) :
  m w = (Ok x, w1, e1) ->
  bind m k w = (result (k x w1), world (k x w1), e1 ++ events (k x w1)).
Proof.
  intros H. unfold bind, result, world, events. rewrite H.
  destruct (k x w1) as [[r w2] e2]. reflexivity.
Qed.

Lemma bind_gets {A B} (f : World -> A) (k : A -> M B) (w : World) :
  bind (gets f) k w = k (f w) w.
Proof. unfold bind, gets. destruct (k (f w) w) as [[r w1] e1]. reflexivity. Qed.

Lemma two_factor_spec (a : Account) (now : float) :
  is_Some (two_factor a now) <-> option_truthy (sharedSecret a) = true.
Proof.
  unfold two_factor, option_truthy.
  destruct (sharedSecret a) as [s|]; [destruct (string_truthy s)|]; cbn;
    split; intros H; try discriminate; try (destruct H; discriminate); eauto.
Qed.

Lemma same_vault_saved_token (u : jsstring) (w w' : World) :
  same_vault w w' ->
  saved_token u w' = saved_token u w /\
  (token_not_directory u w -> token_not_directory u w').
Proof.
  intros (Hk & Hd & _). unfold saved_token, token_not_directory, lookup_entry.
  rewrite Hk, Hd. split; auto.
Qed.

Lemma cancelReconnect_run (u : jsstring) (w : World) :
  exists w1, cancelReconnect u w = (Ok tt, w1, []) /\ same_vault w w1 /\
             activeClients w1 = activeClients w /\ clients w1 = clients w /\
             reconnectTimers w1 !! u = None /\ accountsToReconnect w1 !! u = None.
Proof.
  unfold cancelReconnect, clearTimeout, same_vault. open_world w.
  destruct (rtimers !! u) as [h|] eqn:Hr; run; eexists; split; try reflexivity;
    cbn; repeat split; try reflexivity; try apply lookup_delete_eq.
  exact Hr.
Qed.

(** Lines 200 to 205 of [login]: the session already registered for
    the account is torn down. *)
Lemma login_teardown_run (u : jsstring) (w : World) :
  exists w1 evs,
    (match activeClients w !! u with
     | Some c =>
         removeAllListeners c ;;
         emit (Call c LogOff) ;;
         modify (fun w => set_activeClients (delete u (activeClients w)) w)
     | None => ret tt
     end) w = (Ok tt, w1, evs) /\
    same_vault w w1 /\ logOn_calls evs = [] /\ activeClients w1 !! u = None.
Proof.
  unfold removeAllListeners, same_vault. open_world w.
  destruct (actives !! u) as [c|] eqn:Ha; run; eexists _, _;
    (split; [reflexivity|]); cbn; repeat split; try reflexivity.
  - apply lookup_delete_eq.
  - exact Ha.
Qed.

Lemma new_SteamUser_run (a : Account) (w : World) :
  exists w1, new_SteamUser a w = (Ok (fresh (dom (clients w))), w1, []) /\
             same_vault w w1 /\ activeClients w1 = activeClients w.
Proof.
  unfold new_SteamUser, same_vault. open_world w. run.
  eexists. split; [reflexivity|]. repeat split.
Qed.

(** C5. [login] makes exactly one [logOn] call, on the client it
    created, with options built from one credential path.  When
    [loadToken] returns a saved token, the options carry it as
    [refreshToken] and have no [accountName], no [password] and no
    [twoFactorCode].  When it returns [null], the options have no
    [refreshToken], carry the [accountName] and the [password] of the
    account, and carry a [twoFactorCode] (the time-based code of the
    secret at the current time) if and only if the account has a
    non-empty [sharedSecret]. *)
Theorem login_logOn_options (a : Account) (w : World) :
  token_not_directory (username a) w ->
  exists steamUser options,
    result (login a w) = Ok steamUser /\
    logOn_calls (events (login a w)) = [(steamUser, options)] /\
    (forall token, result (loadToken (username a) w) = Ok (Some token) ->
       options
       = mkLogOnOptions true (js "t.me/sensejke") (Some token) None None None) /\
    (result (loadToken (username a) w) = Ok None ->
       options
       = mkLogOnOptions true (js "t.me/sensejke") None
           (Some (username a)) (Some (password a)) (two_factor a (clock w)) /\
       (is_Some (twoFactorCode options) <-> option_truthy (sharedSecret a) = true)).
Proof.
  intros Hnd.
  destruct (loadToken_saved_token (username a) w Hnd) as [-> _].
  destruct (cancelReconnect_run (username a) w) as (w1 & H1 & V1 & _).
  destruct (login_teardown_run (username a) w1) as (w2 & e2 & H2 & V2 & C2 & _).
  destruct (new_SteamUser_run a w2) as (w3 & H3 & V3 & _).
  assert (V : same_vault w w3).
  { unfold same_vault in *. intuition congruence. }
  destruct (same_vault_saved_token (username a) w w3 V) as [Hsaved Hnd3].
  specialize (Hnd3 Hnd).
  pose proof (build_logOnOptions_run a w3 Hnd3) as H4. rewrite Hsaved in H4.
  pose proof (loadToken_no_calls (username a) w3 Hnd3) as C4.
  assert (Hclock : clock w3 = clock w) by apply V.
  unfold login.
  rewrite (bind_ok _ _ _ _ _ _ H1), bind_gets.
  rewrite (bind_ok _ _ _ _ _ _ H2), (bind_ok _ _ _ _ _ _ H3).
  exists (fresh (dom (clients w2))).
  destruct (saved_token (username a) w) as [token|].
  - rewrite (bind_ok _ _ _ _ _ _ H4). unfold setTimeout. run_goal.
    eexists. split; [reflexivity|]. split.
    { rewrite !logOn_calls_app, C2. reflexivity. }
    split; [intros t [= ->]; reflexivity | discriminate].
  - rewrite (bind_ok _ _ _ _ _ _ H4). unfold setTimeout. run_goal.
    eexists. split; [reflexivity|]. split.
    { rewrite !logOn_calls_app, C2, C4. reflexivity. }
    split; [discriminate|]. intros _. rewrite Hclock. split; [reflexivity|].
    apply two_factor_spec.
Qed.
End LoginClaims.

Lemma saved_world_not_directory : token_not_directory (username alice) saved_world.
Proof. intros t. vm_compute. discriminate. Qed.

Lemma login_logOn_options_witness :
  token_not_directory (username alice) saved_world /\
  token_not_directory (username carol) empty_world /\
  (exists steamUser options,
     logOn_calls (events (login alice saved_world)) = [(steamUser, options)] /\
     is_Some (refreshToken options) /\ accountName options = None /\
     opt_password options = None /\ twoFactorCode options = None) /\
  (exists steamUser options,
     logOn_calls (events (login carol empty_world)) = [(steamUser, options)] /\
     refreshToken options = None /\ accountName options = Some (js "carol") /\
     opt_password options = Some (js "pw-carol") /\ is_Some (twoFactorCode options)).
Proof.
  split; [exact saved_world_not_directory|].
  split; [apply empty_world_not_directory|].
  split.
  - destruct (login_logOn_options alice saved_world saved_world_not_directory)
      as (steamUser & options & _ & Hcalls & Htoken & _).
    exists steamUser, options. split; [exact Hcalls|].
    assert (Hsaved : exists token,
               result (loadToken (username alice) saved_world) = Ok (Some token))
      by (eexists; vm_compute; reflexivity).
    destruct Hsaved as [token Hsaved]. rewrite (Htoken token Hsaved). cbn. eauto.
  - destruct (login_logOn_options carol empty_world (empty_world_not_directory _))
      as (steamUser & options & _ & Hcalls & _ & Hpassword).
    exists steamUser, options. split; [exact Hcalls|].
    assert (Hnone : result (loadToken (username carol) empty_world) = Ok None)
      by (vm_compute; reflexivity).
    destruct (Hpassword Hnone) as [-> _]. cbn. repeat split. vm_compute. eauto.
Defined.

(* ================================================================== *)
(** * The ['error'] listener of login *)
(* ================================================================== *)

Section ErrorFacts.
Context {L : NodeLib}.

(** What a call of [scheduleReconnect] does, whatever the state. *)
Lemma scheduleReconnect_summary (a : Account) (w : World) :
  token_not_directory (username a) w ->
  exists w1 evs,
    scheduleReconnect a w = (Ok tt, w1, evs) /\
    existsb (schedule_line (username a)) evs = true /\
    ~ In (Console (LogDeletedToken (username a))) evs /\
    activeClients w1 = activeClients w /\ clients w1 = clients w /\
    saved_token (username a) w1 = saved_token (username a) w /\
    token_not_directory (username a) w1 /\
    (lookup_entry (tokenPath (username a)) w = None ->
     lookup_entry (tokenPath (username a)) w1 = None) /\
    (reconnectTimers w !! username a = None ->
     (is_Some (reconnectTimers w1 !! username a) <-> eligible a w = true)).
Proof.
  intros Hnd.
  assert (Hline : forall k : jsstring -> LogLine,
            (k = LogAlreadyScheduled \/ k = LogCannotReconnect \/ k = LogScheduling) ->
            schedule_line (username a) (Console (k (username a))) = true).
  { intros k [-> | [-> | ->]]; cbn; apply bool_decide_eq_true_2; reflexivity. }
  destruct (reconnectTimers w !! username a) as [h|] eqn:Hp.
  { exists w, [Console (LogAlreadyScheduled (username a))].
    split; [apply (scheduleReconnect_pending a w h Hp)|].
    split; [cbn [existsb]; rewrite (Hline LogAlreadyScheduled) by auto; reflexivity|].
    split; [intros [H|H]; [discriminate | destruct H]|].
    repeat split; auto. discriminate. }
  rewrite (scheduleReconnect_fresh a w Hp Hnd).
  destruct (loadToken_keeps_maps (username a) w Hnd) as (_ & Hact & Hacc & Hrt & Htm & Hcl).
  destruct (loadToken_again (username a) w Hnd) as (Hnd1 & Hsaved & _).
  assert (Hlookup : lookup_entry (tokenPath (username a)) w = None ->
            lookup_entry (tokenPath (username a)) (world (loadToken (username a) w)) = None).
  { intros Hn. rewrite loadToken_absent by exact Hn. exact Hn. }
  assert (Hevs : events (loadToken (username a) w) = [] \/
                 events (loadToken (username a) w)
                 = [Console (LogInvalidToken (username a))]).
  { destruct (loadToken_world (username a) w Hnd) as [[-> _] | (_ & -> & _)]; auto. }
  remember (world (loadToken (username a) w)) as w1 eqn:Ew1.
  remember (events (loadToken (username a) w)) as evs eqn:Eevs.
  destruct (eligible a w) eqn:He.
  - eexists _, _. split; [reflexivity|].
    split.
    { rewrite existsb_app. cbn [existsb].
      rewrite (Hline LogScheduling) by auto. rewrite orb_true_r. reflexivity. }
    split.
    { intros Hin. apply in_app_or in Hin.
      destruct Hevs as [-> | ->]; destruct Hin as [Hin|Hin]; cbn in Hin;
        intuition discriminate. }
    split; [exact Hact|]. split; [exact Hcl|].
    split; [exact Hsaved|]. split; [exact Hnd1|]. split; [exact Hlookup|].
    intros _. split; [reflexivity|]. intros _.
    destruct (armed_fields a w1) as (-> & _). rewrite lookup_insert_eq. eauto.
  - eexists _, _. split; [reflexivity|].
    split.
    { rewrite existsb_app. cbn [existsb].
      rewrite (Hline LogCannotReconnect) by auto. rewrite orb_true_r. reflexivity. }
    split.
    { intros Hin. apply in_app_or in Hin.
      destruct Hevs as [-> | ->]; destruct Hin as [Hin|Hin]; cbn in Hin;
        intuition discriminate. }
    split; [exact Hact|]. split; [exact Hcl|].
    split; [exact Hsaved|]. split; [exact Hnd1|]. split; [exact Hlookup|].
    intros _. rewrite Hrt, Hp. split; [intros [x Hx]; discriminate | discriminate].
Qed.
End ErrorFacts.

Section ErrorRun.
Context {L : NodeLib}.

Lemma when_true (m : M unit) : when true m = m.
Proof. reflexivity. Qed.

Lemma when_false (m : M unit) (w : World) : when false m w = (Ok tt, w, []).
Proof. reflexivity. Qed.

(** The run of the listener, step by step: [ws] and [evs] are the world
    and the events of the call of [scheduleReconnect], when it is
    made. *)
Lemma login_on_error_run (steamUser : nat) (a : Account) (timeout : nat)
    (message : jsstring) (w : World) :
  token_not_directory (username a) w ->
  exists wc ws evs,
    wc = (if is_credential_error message
          then remove_entry (tokenPath (username a))
                 (set_activeClients (delete (username a) (activeClients w))
                    (world (clearTimeout timeout w)))
          else set_activeClients (delete (username a) (activeClients w))
                 (world (clearTimeout timeout w))) /\
    (if is_temporary_error message
     then scheduleReconnect a (world (removeAllListeners steamUser wc))
          = (Ok tt, ws, evs)
     else ws = world (removeAllListeners steamUser wc) /\ evs = []) /\
    login_on_error steamUser a timeout message w
    = (Ok tt,
       world (resolve steamUser (mkLoginResult false (Some message)) ws),
       [Console (LogLoginError (username a) message)]
         ++ (if is_credential_error message
             then [Console (LogDeletedToken (username a))] else [])
         ++ evs).
Proof.
  intros Hnd.
  set (wb := set_activeClients (delete (username a) (activeClients w))
               (world (clearTimeout timeout w))).
  assert (Hndb : token_not_directory (username a) wb) by (intros t; apply (Hnd t)).
  set (wc := if is_credential_error message
             then remove_entry (tokenPath (username a)) wb else wb).
  assert (Hndc : token_not_directory (username a) (world (removeAllListeners steamUser wc))).
  { assert (Hc : token_not_directory (username a) wc).
    { subst wc. destruct (is_credential_error message);
        [by apply token_not_directory_remove | exact Hndb]. }
    intros t. apply (Hc t). }
  destruct (scheduleReconnect_summary a _ Hndc) as (ws & evs & Hs & _).
  exists wc.
  exists (if is_temporary_error message then ws
          else world (removeAllListeners steamUser wc)).
  exists (if is_temporary_error message then evs else []).
  split; [reflexivity|]. split.
  { destruct (is_temporary_error message); [exact Hs | split; reflexivity]. }
  unfold login_on_error.
  erewrite (bind_ok (clearTimeout timeout)) by reflexivity.
  erewrite (bind_ok (console_log _)) by reflexivity.
  erewrite (bind_ok (modify _)) by reflexivity.
  assert (Hd : when (is_credential_error message)
                 (deleteToken (username a) ;;
                  console_log (LogDeletedToken (username a))) wb
               = (Ok tt, wc,
                  if is_credential_error message
                  then [Console (LogDeletedToken (username a))] else [])).
  { subst wc. destruct (is_credential_error message); [|reflexivity].
    rewrite when_true. rewrite (bind_ok _ _ _ _ _ _ (deleteToken_run _ _ Hndb)).
    reflexivity. }
  rewrite (bind_ok _ _ _ _ _ _ Hd).
  erewrite (bind_ok (removeAllListeners steamUser)) by reflexivity.
  destruct (is_temporary_error message).
  - rewrite when_true, (bind_ok _ _ _ _ _ _ Hs).
    unfold result, events, world. cbn [fst snd]. rewrite ?app_nil_r. reflexivity.
  - erewrite (bind_ok (when false _)) by reflexivity.
    unfold result, events, world. cbn [fst snd]. rewrite ?app_nil_r. reflexivity.
Qed.
End ErrorRun.

Section ErrorOutcome.
Context {L : NodeLib}.


End ErrorOutcome.

Lemma bob_world_not_directory : token_not_directory (username bob) bob_world.
Proof. intros t. vm_compute. discriminate. Qed.


Section SettledPromise.
Context {L : NodeLib}.

(** [resolve] on a promise that is already settled does nothing: an
    ['error'] that arrives after ['loggedOn'] resolved the promise
    cannot change the result of [login]. *)
Lemma resolve_settled (steamUser : nat) (r r0 : LoginResult) (cl : Client)
    (w : World) :
  clients w !! steamUser = Some cl ->
  cl_promise cl = Some r0 ->
  resolve steamUser r w = (Ok tt, w, []).
Proof.
  intros Hcl Hp. unfold resolve, modify. f_equal. f_equal.
  assert (Hid : alter (fun c =>
                   match cl_promise c with
                   | Some _ => c
                   | None => mkClient (cl_account c) (cl_listening c) (Some r)
                               (cl_timeout c)
                   end) steamUser (clients w) = clients w).
  { apply alter_id. intros x Hx. rewrite Hcl in Hx. injection Hx as <-.
    rewrite Hp. reflexivity. }
  rewrite Hid. destruct w; reflexivity.
Qed.
End SettledPromise.
(* ================================================================== *)
(** * Round trips through the files *)
(* ================================================================== *)

Import Scenarios.

Lemma well_formed_ascii (c : Z) (rest : jsstring) :
  0 <= c < 128 -> well_formed (c :: rest) = well_formed rest.
Proof.
  intros Hc. cbn [well_formed]. unfold is_high_surrogate, is_low_surrogate.
  decide_tests. reflexivity.
Qed.

Module TestLibText.
Import TestLib.

Lemma hex_digit_ascii (d : Z) : 0 <= d < 16 -> 0 <= hex_digit d < 128.
Proof. intros Hd. unfold hex_digit. destruct (d <? 10); lia. Qed.

Lemma hex_encode_text (b : buffer) : is_bytes b -> well_formed (hex_encode b) = true.
Proof.
  induction 1 as [|x rest Hx _ IH]; [reflexivity|].
  cbn [hex_encode]. unfold byte_ok in Hx.
  rewrite !well_formed_ascii; [exact IH | |];
    apply hex_digit_ascii; Z.div_mod_to_equations; lia.
Qed.

Lemma text : Base64Text lib.
Proof. constructor. exact hex_encode_text. Qed.
End TestLibText.

Section FileRoundTrip.
Context {L : NodeLib} {Laws : NodeLaws L} {Text : Base64Text L}.

(** [encrypt] succeeds on a well-formed text, with a ciphertext that a
    file holds unchanged and that [decrypt] opens. *)
Lemma encrypt_text (t p : jsstring) (g : entropy) :
  well_formed t = true ->
  exists c g',
    encrypt t p g = (Some c, g') /\
    well_formed c = true /\
    decrypt c p = Some t.
Proof.
  intros Hwf. pose proof (utf8_encode_bytes t Hwf) as Hpt.
  destruct (randomBytes 64 g) as [salt g1] eqn:Es.
  destruct (randomBytes 16 g1) as [iv g2] eqn:Ei.
  pose proof (randomBytes_length 64 g ltac:(lia)) as Ls. rewrite Es in Ls. cbn in Ls.
  pose proof (randomBytes_length 16 g1 ltac:(lia)) as Li. rewrite Ei in Li. cbn in Li.
  pose proof (randomBytes_bytes 64 g) as Bs. rewrite Es in Bs. cbn in Bs.
  pose proof (randomBytes_bytes 16 g1) as Bi. rewrite Ei in Bi. cbn in Bi.
  set (key := pbkdf2Sync (utf8_encode p) salt 100000 32 (js "sha512")).
  pose proof (pbkdf2Sync_length (utf8_encode p) salt 100000 32 ltac:(lia)) as Lk.
  pose proof (pbkdf2Sync_bytes (utf8_encode p) salt 100000 32) as Bk.
  fold key in Lk, Bk.
  destruct (seal_open key iv (utf8_encode t) Bk Lk Bi Li Hpt)
    as (ct & tag & Hseal & Bc & Bt & Lt & Hopen).
  assert (Hall : is_bytes (salt ++ iv ++ tag ++ ct)).
  { unfold is_bytes. rewrite !Forall_app. auto. }
  exists (base64_encode (salt ++ iv ++ tag ++ ct)), g2.
  split; [|split].
  - unfold encrypt, SALT_LENGTH, IV_LENGTH, ITERATIONS, KEY_LENGTH, ALGORITHM.
    rewrite Es, Ei. fold key. rewrite Hseal. reflexivity.
  - by apply base64_encode_text.
  - unfold decrypt. rewrite base64_roundtrip by exact Hall.
    destruct (subarray_layout salt iv tag ct Ls Li Lt) as (-> & -> & -> & ->).
    unfold ITERATIONS, KEY_LENGTH, ALGORITHM. fold key. rewrite Hopen.
    f_equal. by apply utf8_roundtrip.
Qed.

Lemma call_encrypt_run (t p : jsstring) (w : World) :
  well_formed t = true ->
  exists c g,
    call_encrypt t p w = (Ok c, set_rng g w, []) /\
    well_formed c = true /\
    decrypt c p = Some t.
Proof.
  intros Hwf. destruct (encrypt_text t p (rng w) Hwf) as (c & g & He & Hc & Hd).
  exists c, g. split; [|by split].
  unfold call_encrypt. rewrite He. reflexivity.
Qed.
End FileRoundTrip.
(* ================================================================== *)
(** * The token vault: what is saved is what is loaded *)
(* ================================================================== *)

Section VaultRoundTrip.
Context {L : NodeLib} {Laws : NodeLaws L} {Text : Base64Text L}.

(** What [saveToken] leaves in the world. *)
Lemma saveToken_run (u token : jsstring) (w : World) (d : gmap jsstring Dirent) :
  string_truthy (encryptionKey w) = true ->
  tokensDir w = Some d ->
  token_not_directory u w ->
  well_formed (JSON_stringify (token_record token)) = true ->
  exists c g,
    saveToken u token w
    = (Ok tt,
       set_tokensDir (Some (<[tokenPath u := File (utf8_encode c) (clock w)]> d))
         (set_rng g w), []) /\
    well_formed c = true /\
    decrypt c (encryptionKey w) = Some (JSON_stringify (token_record token)).
Proof.
  intros Hk Hd Hnd Hwf.
  destruct (call_encrypt_run _ (encryptionKey w) w Hwf) as (c & g & He & Hc & Hdec).
  exists c, g. split; [|by split].
  unfold saveToken. rewrite (bind_gets encryptionKey), Hk. cbn [negb].
  fold (token_record token).
  rewrite (bind_ok _ _ _ _ _ _ He). cbn.
  unfold writeFileSync. run.
  destruct (d !! tokenPath u) as [[? ?|t]|] eqn:E; try reflexivity.
  exfalso. apply (Hnd t). unfold lookup_entry. by rewrite Hd.
Qed.

Lemma read_token_saved (token c key : jsstring) :
  json_roundtrips (token_record token) ->
  well_formed c = true ->
  decrypt c key = Some (JSON_stringify (token_record token)) ->
  read_token key (utf8_encode c)
  = Some (if string_truthy token then Some (JString token) else None).
Proof.
  intros [_ Hparse] Hc Hdec. unfold read_token.
  rewrite (utf8_roundtrip c Hc), Hdec, Hparse. cbn.
  rewrite bool_decide_eq_true_2 by reflexivity. reflexivity.
Qed.

(** The vault after [saveToken]. *)
Lemma saveToken_saved_token (u token : jsstring) (w : World) :
  string_truthy (encryptionKey w) = true ->
  is_Some (tokensDir w) ->
  token_not_directory u w ->
  json_roundtrips (token_record token) ->
  exists w1,
    saveToken u token w = (Ok tt, w1, []) /\
    token_not_directory u w1 /\
    saved_token u w1 = (if string_truthy token then Some (JString token) else None) /\
    loadToken u w1 = (Ok (saved_token u w1), w1, []) /\
    clients w1 = clients w /\ clock w1 = clock w.
Proof.
  intros Hk [d Hd] Hnd Hrt.
  destruct (saveToken_run u token w d Hk Hd Hnd (proj1 Hrt))
    as (c & g & Hrun & Hc & Hdec).
  rewrite Hrun. eexists. split; [reflexivity|].
  set (w1 := set_tokensDir _ _).
  assert (Hf : lookup_entry (tokenPath u) w1 = Some (File (utf8_encode c) (clock w))).
  { subst w1. unfold lookup_entry. cbn. apply lookup_insert_eq. }
  assert (Hs : saved_token u w1
               = if string_truthy token then Some (JString token) else None).
  { unfold saved_token. rewrite Hf.
    change (encryptionKey w1) with (encryptionKey w). rewrite Hk.
    by rewrite (read_token_saved token c _ Hrt Hc Hdec). }
  split; [intros t; rewrite Hf; discriminate|].
  split; [exact Hs|].
  split; [|split; reflexivity].
  rewrite (loadToken_file u w1 (utf8_encode c) (clock w) Hk Hf).
  change (encryptionKey w1) with (encryptionKey w).
  by rewrite (read_token_saved token c _ Hrt Hc Hdec), Hs.
Qed.

(** X1. With a key set and the tokens directory in place, [saveToken]
    succeeds, and a [loadToken] that follows returns the token saved and
    leaves the file where it is; the empty token is the exception: it is
    saved, and loaded as [null], so that [hasToken] answers [false]. *)
Theorem saveToken_loadToken (u token : jsstring) (w : World) :
  string_truthy (encryptionKey w) = true ->
  is_Some (tokensDir w) ->
  token_not_directory u w ->
  json_roundtrips (token_record token) ->
  result (saveToken u token w) = Ok tt /\
  loadToken u (world (saveToken u token w))
  = (Ok (if string_truthy token then Some (JString token) else None),
     world (saveToken u token w), []) /\
  result (hasToken u (world (saveToken u token w))) = Ok (string_truthy token).
Proof.
  intros Hk Hdir Hnd Hrt.
  destruct (saveToken_saved_token u token w Hk Hdir Hnd Hrt)
    as (w1 & -> & _ & Hs & Hload & _).
  cbn [result world fst snd]. rewrite Hs in Hload.
  split; [reflexivity|]. split; [exact Hload|].
  unfold hasToken, bind. rewrite Hload. cbn. by destruct (string_truthy token).
Qed.

(** X2. [deleteToken] on a token file, or on none: a [loadToken] that
    follows returns [null], a second [deleteToken] changes nothing, and
    no other entry of the tokens directory is touched. *)
Theorem deleteToken_forgets (u : jsstring) (w : World) :
  token_not_directory u w ->
  result (deleteToken u w) = Ok tt /\
  loadToken u (world (deleteToken u w)) = (Ok None, world (deleteToken u w), []) /\
  deleteToken u (world (deleteToken u w)) = (Ok tt, world (deleteToken u w), []) /\
  forall name, name <> tokenPath u ->
    lookup_entry name (world (deleteToken u w)) = lookup_entry name w.
Proof.
  intros Hnd. rewrite (deleteToken_run u w Hnd). cbn [result world fst snd].
  split; [reflexivity|].
  split; [apply loadToken_absent, lookup_entry_remove_eq|].
  split; [apply deleteToken_absent, lookup_entry_remove_eq|].
  intros name Hne. by apply lookup_entry_remove_ne.
Qed.

(** When the entry of the token file is a subdirectory, [deleteToken]
    throws and leaves it. *)
Lemma deleteToken_directory (u : jsstring) (w : World) (t : float) :
  lookup_entry (tokenPath u) w = Some (Directory t) ->
  deleteToken u w = (Throw EPERM, w, []).
Proof.
  intros Hf. unfold deleteToken, existsSync, unlinkSync, lookup_entry in *.
  open_world w. destruct tdir as [d|]; [|discriminate].
  run. reflexivity.
Qed.
End VaultRoundTrip.

Lemma token_record_roundtrips (token : jsstring) :
  well_formed token = true ->
  json_roundtrips (L := TestLib.lib) (token_record token).
Proof.
  intros Hwf. split; [|reflexivity].
  change (well_formed (123 :: token) = true).
  by rewrite well_formed_ascii by lia.
Qed.

Lemma saveToken_loadToken_witness :
  loadToken (js "alice") (world (saveToken (js "alice") (js "eyJhbGciOi") empty_world))
  = (Ok (Some (JString (js "eyJhbGciOi"))),
     world (saveToken (js "alice") (js "eyJhbGciOi") empty_world), []) /\
  loadToken (js "alice") (world (saveToken (js "alice") [] empty_world))
  = (Ok None, world (saveToken (js "alice") [] empty_world), []).
Proof.
  split.
  - apply (saveToken_loadToken (Laws := TestLibFacts.laws) (Text := TestLibText.text)
             (js "alice") (js "eyJhbGciOi") empty_world).
    + reflexivity.
    + by eexists.
    + apply empty_world_not_directory.
    + apply token_record_roundtrips. reflexivity.
  - apply (saveToken_loadToken (Laws := TestLibFacts.laws) (Text := TestLibText.text)
             (js "alice") [] empty_world).
    + reflexivity.
    + by eexists.
    + apply empty_world_not_directory.
    + apply token_record_roundtrips. reflexivity.
Defined.

Lemma deleteToken_forgets_witness :
  result (deleteToken (js "alice") saved_world) = Ok tt /\
  loadToken (js "alice") (world (deleteToken (js "alice") saved_world))
  = (Ok None, world (deleteToken (js "alice") saved_world), []).
Proof.
  destruct (deleteToken_forgets (L := TestLib.lib) (js "alice") saved_world
              saved_world_not_directory) as (H1 & H2 & _).
  split; assumption.
Defined.
(* ================================================================== *)
(** * login, seen from outside *)
(* ================================================================== *)

Section LoginSummary.
Context {L : NodeLib}.

Lemma logOff_calls_app (xs ys : list Event) :
  logOff_calls (xs ++ ys) = logOff_calls xs ++ logOff_calls ys.
Proof.
  induction xs as [|[l|c [o| |p|g]] xs IH]; cbn; rewrite ?IH; reflexivity.
Qed.

(** [loadToken] changes the tokens directory and nothing else. *)
Lemma loadToken_only_directory (u : jsstring) (w : World) :
  token_not_directory u w ->
  world (loadToken u w) = set_tokensDir (tokensDir (world (loadToken u w))) w.
Proof.
  intros Hnd. destruct (loadToken_world u w Hnd) as [[_ ->] | (_ & _ & ->)].
  - by destruct w.
  - unfold remove_entry. by destruct (tokensDir w); destruct w.
Qed.

(** Its run is determined by the key and the tokens directory. *)
Lemma loadToken_same_vault (u : jsstring) (w w' : World) :
  same_vault w w' ->
  token_not_directory u w ->
  result (loadToken u w') = result (loadToken u w) /\
  tokensDir (world (loadToken u w')) = tokensDir (world (loadToken u w)) /\
  events (loadToken u w') = events (loadToken u w).
Proof.
  intros (Hk & Hd & _) Hnd.
  assert (Hl : forall name, lookup_entry name w' = lookup_entry name w).
  { intros name. unfold lookup_entry. by rewrite Hd. }
  destruct (string_truthy (encryptionKey w)) eqn:Hkey.
  2:{ rewrite !loadToken_no_key by congruence. cbn. by rewrite Hd. }
  destruct (lookup_entry (tokenPath u) w) as [[c t|t]|] eqn:Hf.
  - rewrite (loadToken_file u w c t Hkey Hf).
    rewrite (loadToken_file u w' c t) by (rewrite ?Hl; congruence).
    rewrite Hk. destruct (read_token (encryptionKey w) c); cbn.
    + by rewrite Hd.
    + unfold remove_entry. rewrite Hd.
      destruct (tokensDir w) eqn:E; cbn; rewrite ?Hd, ?E; done.
  - exfalso. exact (Hnd t Hf).
  - rewrite !loadToken_absent by (rewrite ?Hl; assumption). cbn. by rewrite Hd.
Qed.

(** Lines 197 to 210 of [login], before the rest [k] of the function:
    the pending reconnect is cancelled, the session registered for the
    account is torn down, and a new client is made. *)
Lemma login_prefix_run {B} (a : Account) (k : nat -> M B) (w : World) :
  let w3 :=
    mkWorld (encryptionKey w) (tokensDir w) (dataFile w)
      (delete (username a) (activeClients w))
      (delete (username a) (accountsToReconnect w))
      (delete (username a) (reconnectTimers w))
      (cancelled (username a) w)
      (<[fresh (dom (clients w)) := mkClient a false None None]>
         (torn_down (username a) w))
      (rng w) (clock w) in
  (cancelReconnect (username a) ;;
   existing <- gets (fun w => activeClients w !! username a) ;;
   match existing with
   | Some c =>
       removeAllListeners c ;;
       emit (Call c LogOff) ;;
       modify (fun w => set_activeClients (delete (username a) (activeClients w)) w)
   | None => ret tt
   end ;;
   steamUser <- new_SteamUser a ;;
   k steamUser) w
  = (result (k (fresh (dom (clients w))) w3), world (k (fresh (dom (clients w))) w3),
     match activeClients w !! username a with
     | Some c => [Call c LogOff]
     | None => []
     end ++ events (k (fresh (dom (clients w))) w3)).
Proof.
  unfold cancelReconnect, clearTimeout, removeAllListeners, new_SteamUser,
    cancelled, torn_down, disarm, mute.
  open_world w.
  destruct (rtimers !! username a) as [h|] eqn:Hr;
  destruct (actives !! username a) as [c|] eqn:Ha; run;
    rewrite ?dom_alter_L;
    rewrite ?(delete_id rtimers), ?(delete_id actives) by assumption;
    cbv [set_clients set_activeClients set_accountsToReconnect set_reconnectTimers
         set_timers];
    cbn [encryptionKey tokensDir dataFile activeClients accountsToReconnect
         reconnectTimers timers clients rng clock];
    match goal with |- context [k ?c ?w] => destruct (k c w) as [[r w2] t2] end;
    reflexivity.
Qed.

Lemma dom_cancelled (u : jsstring) (w : World) :
  dom (cancelled u w) = dom (timers w).
Proof.
  unfold cancelled. destruct (reconnectTimers w !! u); [apply dom_alter_L | reflexivity].
Qed.

(** The whole of [login]: its result, its calls and the world it
    leaves. *)
Lemma login_summary (a : Account) (w : World) :
  token_not_directory (username a) w ->
  exists w' evs,
    login a w = (Ok (fresh (dom (clients w))), w', evs) /\
    logOn_calls evs = [(fresh (dom (clients w)), credentials a w)] /\
    logOff_calls evs
    = match activeClients w !! username a with Some c => [c] | None => [] end /\
    activeClients w' = delete (username a) (activeClients w) /\
    accountsToReconnect w' = delete (username a) (accountsToReconnect w) /\
    reconnectTimers w' = delete (username a) (reconnectTimers w) /\
    timers w'
    = <[fresh (dom (timers w)) :=
          mkTimer (LoginTimeoutTask (fresh (dom (clients w)))) LOGIN_TIMEOUT Armed]>
        (cancelled (username a) w) /\
    clients w'
    = <[fresh (dom (clients w)) :=
          mkClient a true None (Some (fresh (dom (timers w))))]>
        (torn_down (username a) w) /\
    encryptionKey w' = encryptionKey w /\
    tokensDir w' = tokensDir (world (loadToken (username a) w)) /\
    dataFile w' = dataFile w /\ clock w' = clock w.
Proof.
  intros Hnd. set (u := username a).
  unfold login. rewrite login_prefix_run. fold u.
  set (c := fresh (dom (clients w))).
  set (w3 := mkWorld _ _ _ _ _ _ _ _ _ _).
  assert (V : same_vault w w3) by (repeat split).
  destruct (same_vault_saved_token u w w3 V) as [Hsaved Hnd3].
  specialize (Hnd3 Hnd).
  pose proof (build_logOnOptions_run a w3 Hnd3) as H4. fold u in H4.
  destruct (loadToken_same_vault u w w3 V Hnd) as (_ & Hdir & _).
  pose proof (loadToken_only_directory u w3 Hnd3) as Hw4.
  pose proof (loadToken_no_calls u w3 Hnd3) as C4.
  assert (C5 : logOff_calls (events (loadToken u w3)) = []).
  { destruct (loadToken_world u w3 Hnd3) as [[-> _] | (_ & -> & _)]; reflexivity. }
  unfold credentials. fold u. rewrite <- Hsaved.
  destruct (saved_token u w3) as [token|] eqn:Hs.
  - assert (Hsame : tokensDir (world (loadToken u w3)) = tokensDir w).
    { destruct (loadToken_world u w3 Hnd3) as [[_ ->] | (Hn & _)];
        [reflexivity | congruence]. }
    rewrite (bind_ok _ _ _ _ _ _ H4). unfold setTimeout. run_goal.
    rewrite !dom_cancelled, insert_insert_eq. eexists _, _. split; [reflexivity|].
    rewrite !logOff_calls_app, !logOn_calls_app.
    destruct (activeClients w !! u); cbn; rewrite <- Hdir, Hsame; repeat split.
  - rewrite (bind_ok _ _ _ _ _ _ H4). unfold setTimeout. run_goal.
    rewrite Hw4. cbn. rewrite !dom_cancelled, insert_insert_eq.
    eexists _, _. split; [reflexivity|].
    rewrite !logOff_calls_app, !logOn_calls_app, C4, C5.
    destruct (activeClients w !! u); cbn; rewrite <- Hdir; repeat split.
Qed.
End LoginSummary.
(* ================================================================== *)
(** * The token between two logins *)
(* ================================================================== *)

Section LoginCompose.
Context {L : NodeLib}.

Lemma saved_token_absent (u : jsstring) (w : World) :
  lookup_entry (tokenPath u) w = None -> saved_token u w = None.
Proof.
  intros H. unfold saved_token. rewrite H. by destruct (string_truthy _).
Qed.

Lemma scheduleReconnect_clock (a : Account) (w : World) :
  token_not_directory (username a) w ->
  clock (world (scheduleReconnect a w)) = clock w.
Proof.
  intros Hnd.
  assert (Hc : clock (world (loadToken (username a) w)) = clock w).
  { destruct (loadToken_world _ _ Hnd) as [[_ ->] | (_ & _ & ->)];
      [reflexivity | apply remove_entry_clock]. }
  destruct (reconnectTimers w !! username a) as [h|] eqn:Hp.
  - by rewrite (scheduleReconnect_pending a w h Hp).
  - rewrite (scheduleReconnect_fresh a w Hp Hnd).
    destruct (eligible a w); cbn; exact Hc.
Qed.

(** The vault and the clock after the ['error'] listener ran on a
    message that names the credentials. *)
Lemma login_on_error_credentials (steamUser : nat) (a : Account) (timeout : nat)
    (message : jsstring) (w : World) :
  token_not_directory (username a) w ->
  is_credential_error message = true ->
  result (login_on_error steamUser a timeout message w) = Ok tt /\
  lookup_entry (tokenPath (username a))
    (world (login_on_error steamUser a timeout message w)) = None /\
  clock (world (login_on_error steamUser a timeout message w)) = clock w.
Proof.
  intros Hnd Hc.
  destruct (login_on_error_run steamUser a timeout message w Hnd)
    as (wc & ws & evs & Hwc & Hs & ->).
  rewrite Hc in Hwc. cbn [result world fst snd].
  split; [reflexivity|].
  assert (Hl : lookup_entry (tokenPath (username a)) wc = None)
    by (rewrite Hwc; apply lookup_entry_remove_eq).
  assert (Hk : clock wc = clock w) by (rewrite Hwc, remove_entry_clock; reflexivity).
  assert (Hndc : token_not_directory (username a) (world (removeAllListeners steamUser wc))).
  { intros t. change (lookup_entry (tokenPath (username a)) wc <> Some (Directory t)).
    rewrite Hl. discriminate. }
  destruct (is_temporary_error message).
  - destruct (scheduleReconnect_summary a _ Hndc)
      as (ws' & evs' & Hs' & _ & _ & _ & _ & _ & _ & Hkeep & _).
    pose proof (scheduleReconnect_clock a _ Hndc) as Hclock.
    rewrite Hs in Hs'. injection Hs' as <- <-.
    rewrite Hs in Hclock. cbn in Hclock.
    split; [exact (Hkeep Hl) | by rewrite <- Hk, <- Hclock].
  - destruct Hs as [-> _]. split; [exact Hl | exact Hk].
Qed.

(** X3. An error that names the credentials makes the next [login] of the
    account a password login: its one [logOn] call carries the account
    name, the password and the code of the shared secret, and no token,
    whatever token was saved before. *)
Theorem credential_error_then_login (steamUser : nat) (a : Account) (timeout : nat)
    (message : jsstring) (w : World) :
  token_not_directory (username a) w ->
  is_credential_error message = true ->
  exists next,
    result (login a (world (login_on_error steamUser a timeout message w))) = Ok next /\
    logOn_calls (events (login a (world (login_on_error steamUser a timeout message w))))
    = [(next, mkLogOnOptions true (js "t.me/sensejke") None
                (Some (username a)) (Some (password a)) (two_factor a (clock w)))].
Proof.
  intros Hnd Hc.
  destruct (login_on_error_credentials steamUser a timeout message w Hnd Hc)
    as (_ & Hl & Hk).
  set (w1 := world (login_on_error steamUser a timeout message w)) in *.
  assert (Hnd1 : token_not_directory (username a) w1)
    by (intros t; rewrite Hl; discriminate).
  destruct (login_summary a w1 Hnd1) as (w' & evs & -> & Hon & _).
  eexists. split; [reflexivity|]. cbn [events snd]. rewrite Hon.
  unfold credentials. by rewrite (saved_token_absent _ _ Hl), Hk.
Qed.
End LoginCompose.

Section TokenCompose.
Context {L : NodeLib} {Laws : NodeLaws L} {Text : Base64Text L}.

(** X4. Once the ['refreshToken'] listener has run with a non-empty token,
    the next [login] of the account presents that token and neither the
    account name nor the password. *)
Theorem refreshToken_then_login (a : Account) (token : jsstring) (w : World) :
  string_truthy (encryptionKey w) = true ->
  is_Some (tokensDir w) ->
  token_not_directory (username a) w ->
  json_roundtrips (token_record token) ->
  string_truthy token = true ->
  exists next,
    result (login a (world (login_on_refreshToken a token w))) = Ok next /\
    logOn_calls (events (login a (world (login_on_refreshToken a token w))))
    = [(next, mkLogOnOptions true (js "t.me/sensejke") (Some (JString token))
                None None None)].
Proof.
  intros Hk Hdir Hnd Hrt Ht.
  destruct (saveToken_saved_token (username a) token w Hk Hdir Hnd Hrt)
    as (w1 & Hsave & Hnd1 & Hs & _).
  assert (Hw : world (login_on_refreshToken a token w) = w1).
  { unfold login_on_refreshToken.
    erewrite (bind_ok (console_log _)) by reflexivity. by rewrite Hsave. }
  rewrite Hw.
  destruct (login_summary a w1 Hnd1) as (w' & evs & -> & Hon & _).
  eexists. split; [reflexivity|]. cbn [events snd]. rewrite Hon.
  unfold credentials. by rewrite Hs, Ht.
Qed.
End TokenCompose.

Lemma credential_error_then_login_witness :
  exists next options,
    logOn_calls (events (login bob
      (world (login_on_error 0 bob 0 (js "InvalidPassword") bob_world))))
    = [(next, options)] /\
    refreshToken options = None /\ accountName options = Some (js "bob").
Proof.
  destruct (credential_error_then_login (L := TestLib.lib) 0 bob 0
              (js "InvalidPassword") bob_world bob_world_not_directory)
    as (next & _ & H); [vm_compute; reflexivity|].
  eexists _, _. split; [exact H|]. split; reflexivity.
Defined.

Lemma refreshToken_then_login_witness :
  exists next options,
    logOn_calls (events (login alice
      (world (login_on_refreshToken alice (js "eyJhbGciOi") empty_world))))
    = [(next, options)] /\
    refreshToken options = Some (JString (js "eyJhbGciOi")) /\
    accountName options = None /\ opt_password options = None.
Proof.
  destruct (refreshToken_then_login (Laws := TestLibFacts.laws)
              (Text := TestLibText.text) alice (js "eyJhbGciOi") empty_world)
    as (next & _ & H).
  - reflexivity.
  - by eexists.
  - apply empty_world_not_directory.
  - apply token_record_roundtrips. reflexivity.
  - reflexivity.
  - eexists _, _. split; [exact H|]. repeat split.
Defined.
(* ================================================================== *)
(** * Rules for the assertions *)
(* ================================================================== *)

Section LogicRules.
Context {L : NodeLib}.

Lemma hoare_ret {A} (P : World -> Prop) (a : A) (Q : A -> World -> Prop) E :
  (forall w, P w -> Q a w) -> hoare P (ret a) Q E.
Proof. intros H w Hw. exact (H w Hw). Qed.

Lemma hoare_throw {A} (P : World -> Prop) (e : Exn) (Q : A -> World -> Prop)
    (E : World -> Prop) :
  (forall w, P w -> E w) -> hoare P (throw e) Q E.
Proof. intros H w Hw. exact (H w Hw). Qed.

Lemma hoare_gets {A} (P : World -> Prop) (f : World -> A) (Q : A -> World -> Prop) E :
  (forall w, P w -> Q (f w) w) -> hoare P (gets f) Q E.
Proof. intros H w Hw. exact (H w Hw). Qed.

Lemma hoare_get (P : World -> Prop) (Q : World -> World -> Prop) E :
  (forall w, P w -> Q w w) -> hoare P get Q E.
Proof. intros H w Hw. exact (H w Hw). Qed.

Lemma hoare_modify (P : World -> Prop) (f : World -> World)
    (Q : unit -> World -> Prop) E :
  (forall w, P w -> Q tt (f w)) -> hoare P (modify f) Q E.
Proof. intros H w Hw. exact (H w Hw). Qed.

Lemma hoare_emit (P : World -> Prop) (e : Event) (Q : unit -> World -> Prop) E :
  (forall w, P w -> Q tt w) -> hoare P (emit e) Q E.
Proof. intros H w Hw. exact (H w Hw). Qed.

Lemma hoare_bind {A B} (P : World -> Prop) (m : M A) (k : A -> M B)
    (R : A -> World -> Prop) (Q : B -> World -> Prop) (E : World -> Prop) :
  hoare P m R E -> (forall a, hoare (R a) (k a) Q E) -> hoare P (bind m k) Q E.
Proof.
  intros Hm Hk w Hw. specialize (Hm w Hw).
  unfold bind, result, world in *.
  destruct (m w) as [[[a|e] w1] t1]; cbn in *; [|exact Hm].
  specialize (Hk a w1 Hm). destruct (k a w1) as [[r w2] t2]. exact Hk.
Qed.

Lemma hoare_try_catch {A} (P : World -> Prop) (m : M A) (handler : Exn -> M A)
    (Q : A -> World -> Prop) (E' E : World -> Prop) :
  hoare P m Q E' -> (forall e, hoare E' (handler e) Q E) ->
  hoare P (try_catch m handler) Q E.
Proof.
  intros Hm Hh w Hw. specialize (Hm w Hw).
  unfold try_catch, result, world in *.
  destruct (m w) as [[[a|e] w1] t1]; cbn in *; [exact Hm|].
  specialize (Hh e w1 Hm). destruct (handler e w1) as [[r w2] t2]. exact Hh.
Qed.

Lemma hoare_weaken {A} (P P' : World -> Prop) (m : M A)
    (Q Q' : A -> World -> Prop) (E E' : World -> Prop) :
  hoare P' m Q' E' ->
  (forall w, P w -> P' w) -> (forall a w, Q' a w -> Q a w) ->
  (forall w, E' w -> E w) ->
  hoare P m Q E.
Proof.
  intros H HP HQ HE w Hw. specialize (H w (HP w Hw)).
  destruct (result (m w)); auto.
Qed.

(** ** Runs that leave the sessions alone *)

Lemma keeps_ret {A} (a : A) : keeps_session (ret a).
Proof. intros w. reflexivity. Qed.

Lemma keeps_throw {A} (e : Exn) : keeps_session (throw (A := A) e).
Proof. intros w. reflexivity. Qed.

Lemma keeps_gets {A} (f : World -> A) : keeps_session (gets f).
Proof. intros w. reflexivity. Qed.

Lemma keeps_get : keeps_session get.
Proof. intros w. reflexivity. Qed.

Lemma keeps_emit (e : Event) : keeps_session (emit e).
Proof. intros w. reflexivity. Qed.

Lemma keeps_set_tokensDir (d : option (gmap jsstring Dirent)) :
  keeps_session (modify (set_tokensDir d)).
Proof. intros w. reflexivity. Qed.

Lemma keeps_bind {A B} (m : M A) (k : A -> M B) :
  keeps_session m -> (forall a, keeps_session (k a)) -> keeps_session (bind m k).
Proof.
  intros Hm Hk w. specialize (Hm w). unfold bind, world in *.
  destruct (m w) as [[[a|e] w1] t1]; cbn in *; [|exact Hm].
  specialize (Hk a w1). destruct (k a w1) as [[r w2] t2]. cbn in *. congruence.
Qed.

Lemma keeps_try_catch {A} (m : M A) (handler : Exn -> M A) :
  keeps_session m -> (forall e, keeps_session (handler e)) ->
  keeps_session (try_catch m handler).
Proof.
  intros Hm Hh w. specialize (Hm w). unfold try_catch, world in *.
  destruct (m w) as [[[a|e] w1] t1]; cbn in *; [exact Hm|].
  specialize (Hh e w1). destruct (handler e w1) as [[r w2] t2]. cbn in *. congruence.
Qed.

(** What holds of the sessions before such a run holds after it. *)
Lemma hoare_keeps {A} (P P' : World -> Prop) (m : M A) :
  keeps_session m ->
  (forall w w', session w' = session w -> P w -> P' w') ->
  hoare P m (fun _ => P') P'.
Proof.
  intros Hm HP w Hw. specialize (Hm w).
  destruct (result (m w)); exact (HP _ _ Hm Hw).
Qed.
End LogicRules.

(** The steps of a proof that a function leaves the sessions alone. *)
Ltac keeps_step :=
  first
    [ apply keeps_ret | apply keeps_throw | apply keeps_gets | apply keeps_get
    | apply keeps_emit | apply keeps_set_tokensDir
    | apply keeps_bind; [|intros ?] | apply keeps_try_catch; [|intros ?]
    | match goal with
      | |- keeps_session (if ?c then _ else _) => destruct c
      | |- keeps_session (match ?x with _ => _ end) => destruct x
      end ].
Ltac keeps := repeat keeps_step.

Section Keepers.
Context {L : NodeLib}.

Lemma keeps_call_encrypt (t p : jsstring) : keeps_session (call_encrypt t p).
Proof. intros w. unfold call_encrypt. by destruct (encrypt t p (rng w)) as [[c|] g]. Qed.

Lemma keeps_loadToken (u : jsstring) : keeps_session (loadToken u).
Proof.
  unfold loadToken, existsSync, readFileSync, call_decrypt, call_JSON_parse,
    lift_option, lift_sum, console_log, unlinkSync.
  keeps.
Qed.

Lemma keeps_hasToken (u : jsstring) : keeps_session (hasToken u).
Proof. unfold hasToken. apply keeps_bind; [apply keeps_loadToken | intros ?; keeps]. Qed.

Lemma keeps_saveToken (u t : jsstring) : keeps_session (saveToken u t).
Proof.
  unfold saveToken, writeFileSync. keeps. apply keeps_call_encrypt.
Qed.

Lemma keeps_deleteToken (u : jsstring) : keeps_session (deleteToken u).
Proof. unfold deleteToken, existsSync, unlinkSync, when. keeps. Qed.

Lemma keeps_build_logOnOptions (a : Account) : keeps_session (build_logOnOptions a).
Proof.
  unfold build_logOnOptions, console_log.
  apply keeps_bind; [apply keeps_loadToken | intros ?; keeps].
Qed.

Lemma keeps_cleanCache_loop (files : list jsstring) (n : nat) :
  keeps_session (cleanCache_loop files n).
Proof.
  revert n. induction files as [|f rest IH]; intros n; cbn [cleanCache_loop].
  - keeps.
  - apply keeps_bind; [|intros ?; apply IH].
    unfold cleanCache_step, statSync, lift_option, rmSync_recursive, unlinkSync.
    keeps.
Qed.

Lemma keeps_cleanCache : keeps_session cleanCache.
Proof.
  unfold cleanCache, existsSync_dir, readdirSync, when, console_log.
  apply keeps_bind; [keeps|]. intros present. destruct (negb present); [keeps|].
  apply keeps_bind; [keeps|]. intros files.
  apply keeps_bind; [apply keeps_cleanCache_loop|]. intros n. keeps.
Qed.

Lemma keeps_setEncryptionKey (key : jsstring) : keeps_session (setEncryptionKey key).
Proof. intros w. reflexivity. Qed.

Lemma keeps_push_appIds store line appIds entries :
  keeps_session (push_appIds store line appIds entries).
Proof.
  revert entries. induction appIds as [|x rest IH]; intros entries; cbn [push_appIds].
  - keeps.
  - unfold console_log. apply keeps_bind; [keeps | intros _; apply IH].
Qed.

Lemma keeps_playGames store (c : nat) (a : Account) : keeps_session (playGames store c a).
Proof.
  unfold playGames, console_log.
  apply keeps_bind; [keeps|]. intros ?.
  apply keeps_bind; [apply keeps_push_appIds | intros ?; keeps].
Qed.

Lemma keeps_updateGames store (u : jsstring) sel : keeps_session (updateGames store u sel).
Proof.
  unfold updateGames, console_log.
  apply keeps_bind; [keeps|]. intros [c|]; [|keeps].
  apply keeps_bind; [keeps|]. intros ?.
  apply keeps_bind; [apply keeps_push_appIds | intros ?; keeps].
Qed.
End Keepers.
(* ================================================================== *)
(** * The scheduler stays consistent *)
(* ================================================================== *)

Section ConsistentSteps.
Context {L : NodeLib}.

Lemma consistent_fields (w w' : World) :
  accountsToReconnect w' = accountsToReconnect w ->
  reconnectTimers w' = reconnectTimers w ->
  timers w' = timers w -> clients w' = clients w ->
  consistent w -> consistent w'.
Proof.
  intros Ha Hr Ht Hc [H1 H2 H3 H4 H5].
  constructor; rewrite ?Ha, ?Hr, ?Ht, ?Hc; assumption.
Qed.

Lemma consistent_session (w w' : World) :
  session w' = session w -> consistent w -> consistent w'.
Proof.
  unfold session. intros [= _ Ha Hr Ht Hc]. by apply consistent_fields.
Qed.

Lemma lookup_alter_disarm (h h' : nat) (m : gmap nat Timer) (t : Timer) :
  alter disarm h m !! h' = Some t ->
  exists t0, m !! h' = Some t0 /\ task t = task t0 /\
    (state t = Armed -> h' <> h /\ t = t0).
Proof.
  destruct (decide (h = h')) as [->|Hne].
  - rewrite lookup_alter_eq. destruct (m !! h') as [t0|]; [|discriminate].
    intros [= <-]. exists t0. split; [reflexivity|]. split; [reflexivity|].
    intros; discriminate.
  - rewrite lookup_alter_ne by exact Hne. intros H. exists t.
    split; [exact H|]. split; [reflexivity|]. intros _. split; [congruence | reflexivity].
Qed.

(** [clearTimeout] of a timer that [reconnectTimers] does not record. *)
Lemma consistent_clearTimeout (h : nat) (w : World) :
  consistent w ->
  (forall u, reconnectTimers w !! u <> Some h) ->
  consistent (world (clearTimeout h w)).
Proof.
  intros [H1 H2 H3 H4 H5] Hnot. unfold clearTimeout, modify, world. cbn.
  fold disarm. constructor; cbn.
  - intros h' t a Ht Hs Hk.
    destruct (lookup_alter_disarm _ _ _ _ Ht) as (t0 & Ht0 & Htask & Harmed).
    destruct (Harmed Hs) as [_ ->]. eauto.
  - intros u h' Hu. destruct (H2 u h' Hu) as (a & d & Ht & Hn).
    exists a, d. split; [|exact Hn].
    rewrite lookup_alter_ne; [exact Ht|]. intros ->. exact (Hnot u Hu).
  - exact H3.
  - exact H4.
  - intros c cl tmo Hc Ht. destruct (H5 c cl tmo Hc Ht) as (t & Htm & Hk).
    destruct (decide (h = tmo)) as [->|Hne].
    + exists (disarm t). by rewrite lookup_alter_eq, Htm.
    + exists t. by rewrite lookup_alter_ne.
Qed.

(** The timeout of a client is not a reconnect timer on record. *)
Lemma timeout_not_recorded (w : World) (c : nat) (cl : Client) (tmo : nat) :
  consistent w -> clients w !! c = Some cl -> cl_timeout cl = Some tmo ->
  forall u, reconnectTimers w !! u <> Some tmo.
Proof.
  intros [H1 H2 H3 H4 H5] Hc Ht u Hu.
  destruct (H5 c cl tmo Hc Ht) as (t & Htm & Hk).
  destruct (H2 u tmo Hu) as (a & d & Htm' & _).
  rewrite Htm in Htm'. injection Htm' as ->. discriminate.
Qed.

Lemma consistent_cancelReconnect (u : jsstring) (w : World) :
  consistent w ->
  consistent (world (cancelReconnect u w)) /\
  reconnectTimers (world (cancelReconnect u w)) !! u = None.
Proof.
  intros [H1 H2 H3 H4 H5]. unfold cancelReconnect, clearTimeout.
  unfold_M. cbn. fold disarm.
  destruct (reconnectTimers w !! u) as [h|] eqn:Hr; cbn.
  - split; [|apply lookup_delete_eq]. constructor; cbn.
    + intros h' t a Ht Hs Hk.
      destruct (lookup_alter_disarm _ _ _ _ Ht) as (t0 & Ht0 & Htask & Harmed).
      destruct (Harmed Hs) as [Hne ->].
      pose proof (H1 h' t0 a Ht0 Hs Hk) as Hrec.
      rewrite lookup_delete_ne; [exact Hrec|]. intros ->. congruence.
    + intros u' h' Hu'.
      destruct (decide (u = u')) as [->|Hne]; [by rewrite lookup_delete_eq in Hu'|].
      rewrite lookup_delete_ne in Hu' by exact Hne.
      destruct (H2 u' h' Hu') as (a & d & Ht & Hn).
      exists a, d. split; [|exact Hn].
      rewrite lookup_alter_ne; [exact Ht|]. intros ->.
      destruct (H2 u h' Hr) as (a' & d' & Ht' & Hn').
      rewrite Ht in Ht'. injection Ht' as <- _. congruence.
    + intros u' h' Hu'.
      destruct (decide (u = u')) as [->|Hne]; [by rewrite lookup_delete_eq in Hu'|].
      rewrite lookup_delete_ne in Hu' by exact Hne.
      rewrite lookup_delete_ne by exact Hne. eauto.
    + intros u' acc Hacc.
      destruct (decide (u = u')) as [->|Hne]; [by rewrite lookup_delete_eq in Hacc|].
      rewrite lookup_delete_ne in Hacc by exact Hne. eauto.
    + intros c cl tmo Hc Ht. destruct (H5 c cl tmo Hc Ht) as (t & Htm & Hk).
      destruct (decide (h = tmo)) as [->|Hne].
      * exists (disarm t). by rewrite lookup_alter_eq, Htm.
      * exists t. by rewrite lookup_alter_ne.
  - split; [|exact Hr]. constructor; cbn; try assumption.
    + intros u' h' Hu'. destruct (decide (u = u')) as [->|Hne]; [congruence|].
      rewrite lookup_delete_ne by exact Hne. eauto.
    + intros u' acc Hacc.
      destruct (decide (u = u')) as [->|Hne]; [by rewrite lookup_delete_eq in Hacc|].
      rewrite lookup_delete_ne in Hacc by exact Hne. eauto.
Qed.

Lemma fresh_timer_absent (m : gmap nat Timer) : m !! fresh (dom m) = None.
Proof. apply not_elem_of_dom, is_fresh. Qed.

Lemma fresh_client_absent (m : gmap nat Client) : m !! fresh (dom m) = None.
Proof. apply not_elem_of_dom, is_fresh. Qed.

(** The world after [scheduleReconnect] armed a timer for an account
    that had none on record. *)
Lemma consistent_armed (a : Account) (w : World) :
  consistent w -> reconnectTimers w !! username a = None -> consistent (armed a w).
Proof.
  intros [H1 H2 H3 H4 H5] Hn. unfold armed.
  pose proof (fresh_timer_absent (timers w)) as Hfresh.
  set (h := fresh (dom (timers w))) in *.
  constructor; cbn.
  - intros h' t a' Ht Hs Hk.
    destruct (decide (h = h')) as [<-|Hne].
    + rewrite lookup_insert_eq in Ht. injection Ht as <-. cbn in Hk.
      injection Hk as <-. apply lookup_insert_eq.
    + rewrite lookup_insert_ne in Ht by exact Hne.
      pose proof (H1 h' t a' Ht Hs Hk) as Hrec.
      rewrite lookup_insert_ne; [exact Hrec|]. intros Heq. congruence.
  - intros u h' Hu.
    destruct (decide (username a = u)) as [<-|Hne].
    + rewrite lookup_insert_eq in Hu. injection Hu as <-.
      exists a, RECONNECT_DELAY. by rewrite lookup_insert_eq.
    + rewrite lookup_insert_ne in Hu by exact Hne.
      destruct (H2 u h' Hu) as (a' & d & Ht & Hn').
      exists a', d. split; [|exact Hn'].
      rewrite lookup_insert_ne; [exact Ht|]. intros <-. congruence.
  - intros u h' Hu.
    destruct (decide (username a = u)) as [<-|Hne]; [by rewrite lookup_insert_eq|].
    rewrite lookup_insert_ne in Hu by exact Hne.
    rewrite lookup_insert_ne by exact Hne. eauto.
  - intros u acc Hacc.
    destruct (decide (username a = u)) as [<-|Hne].
    + rewrite lookup_insert_eq in Hacc. by injection Hacc as <-.
    + rewrite lookup_insert_ne in Hacc by exact Hne. eauto.
  - intros c cl tmo Hc Ht. destruct (H5 c cl tmo Hc Ht) as (t & Htm & Hk).
    exists t. split; [|exact Hk].
    rewrite lookup_insert_ne; [exact Htm|]. intros <-. congruence.
Qed.

Lemma consistent_scheduleReconnect (a : Account) :
  hoare consistent (scheduleReconnect a) (fun _ => consistent) consistent.
Proof.
  intros w Hw.
  destruct (reconnectTimers w !! username a) as [h|] eqn:Hp.
  { rewrite (scheduleReconnect_pending a w h Hp). exact Hw. }
  pose proof (keeps_hasToken (username a) w) as Hkeep.
  unfold scheduleReconnect, isPendingReconnect, setTimeout.
  unfold_M. cbn. rewrite Hp. unfold world in Hkeep.
  destruct (hasToken (username a) w) as [[[b|e] w1] e1]; cbn in *.
  2:{ exact (consistent_session _ _ Hkeep Hw). }
  assert (Hw1 : consistent w1) by exact (consistent_session _ _ Hkeep Hw).
  assert (Hp1 : reconnectTimers w1 !! username a = None).
  { unfold session in Hkeep. injection Hkeep as _ _ -> _ _. exact Hp. }
  destruct (negb _); cbn; [exact Hw1|].
  exact (consistent_armed a w1 Hw1 Hp1).
Qed.

Lemma consistent_removeAllListeners (c : nat) (w : World) :
  consistent w -> consistent (world (removeAllListeners c w)).
Proof.
  intros [H1 H2 H3 H4 H5]. constructor; try assumption. cbn.
  intros c' cl tmo Hc Ht.
  destruct (decide (c = c')) as [->|Hne].
  - rewrite lookup_alter_eq in Hc. destruct (clients w !! c') as [cl0|] eqn:E; [|discriminate].
    injection Hc as <-. exact (H5 c' cl0 tmo E Ht).
  - rewrite lookup_alter_ne in Hc by exact Hne. eauto.
Qed.

Lemma consistent_resolve (c : nat) (r : LoginResult) (w : World) :
  consistent w -> consistent (world (resolve c r w)).
Proof.
  intros [H1 H2 H3 H4 H5]. constructor; try assumption. cbn.
  intros c' cl tmo Hc Ht.
  destruct (decide (c = c')) as [->|Hne].
  - rewrite lookup_alter_eq in Hc. destruct (clients w !! c') as [cl0|] eqn:E; [|discriminate].
    injection Hc as <-. apply (H5 c' cl0 tmo E).
    by destruct (cl_promise cl0).
  - rewrite lookup_alter_ne in Hc by exact Hne. eauto.
Qed.

Lemma consistent_set_activeClients (m : gmap jsstring nat) (w : World) :
  consistent w -> consistent (set_activeClients m w).
Proof. by apply consistent_fields. Qed.

Lemma consistent_new_SteamUser (a : Account) (w : World) :
  consistent w -> consistent (world (new_SteamUser a w)).
Proof.
  intros [H1 H2 H3 H4 H5]. constructor; try assumption. cbn.
  intros c cl tmo Hc Ht.
  destruct (decide (fresh (dom (clients w)) = c)) as [<-|Hne].
  - rewrite lookup_insert_eq in Hc. injection Hc as <-. discriminate.
  - rewrite lookup_insert_ne in Hc by exact Hne. eauto.
Qed.

(** The last two steps of [login]: the timeout is armed and the client
    holds it. *)
Lemma consistent_login_timeout (a : Account) (c : nat) (w : World) :
  consistent w ->
  consistent
    (set_clients
       (<[c := mkClient a true None (Some (fresh (dom (timers w))))]> (clients w))
       (set_timers
          (<[fresh (dom (timers w)) := mkTimer (LoginTimeoutTask c) LOGIN_TIMEOUT Armed]>
             (timers w)) w)).
Proof.
  intros [H1 H2 H3 H4 H5].
  pose proof (fresh_timer_absent (timers w)) as Hfresh.
  set (h := fresh (dom (timers w))) in *.
  constructor; cbn; try assumption.
  - intros h' t a' Ht Hs Hk.
    destruct (decide (h = h')) as [<-|Hne].
    + rewrite lookup_insert_eq in Ht. injection Ht as <-. discriminate.
    + rewrite lookup_insert_ne in Ht by exact Hne. eauto.
  - intros u h' Hu. destruct (H2 u h' Hu) as (a' & d & Ht & Hn).
    exists a', d. split; [|exact Hn].
    rewrite lookup_insert_ne; [exact Ht|]. intros <-. congruence.
  - intros c' cl tmo Hc Ht.
    destruct (decide (c = c')) as [<-|Hne].
    + rewrite lookup_insert_eq in Hc. injection Hc as <-. cbn in Ht.
      injection Ht as <-. eexists. by rewrite lookup_insert_eq.
    + rewrite lookup_insert_ne in Hc by exact Hne.
      destruct (H5 c' cl tmo Hc Ht) as (t & Htm & Hk).
      exists t. split; [|exact Hk].
      rewrite lookup_insert_ne; [exact Htm|]. intros <-. congruence.
Qed.

Lemma consistent_enableAutoReconnect (a : Account) (w : World) :
  consistent w -> consistent (world (enableAutoReconnect a w)).
Proof.
  intros [H1 H2 H3 H4 H5]. constructor; try assumption; cbn.
  - intros u h Hu.
    destruct (decide (username a = u)) as [<-|Hne]; [by rewrite lookup_insert_eq|].
    rewrite lookup_insert_ne by exact Hne. eauto.
  - intros u acc Hacc.
    destruct (decide (username a = u)) as [<-|Hne].
    + rewrite lookup_insert_eq in Hacc. by injection Hacc as <-.
    + rewrite lookup_insert_ne in Hacc by exact Hne. eauto.
Qed.
End ConsistentSteps.
Section ConsistentCalls.
Context {L : NodeLib}.

Lemma hoare_consistent_keeps {A} (m : M A) :
  keeps_session m -> hoare consistent m (fun _ => consistent) consistent.
Proof. intros Hm. apply (hoare_keeps _ _ m Hm). apply consistent_session. Qed.

Lemma hoare_consistent_step (f : World -> World) :
  (forall w, consistent w -> consistent (f w)) ->
  hoare consistent (modify f) (fun _ => consistent) consistent.
Proof. intros H. apply hoare_modify. exact H. Qed.

Lemma consistent_cancel (u : jsstring) :
  hoare consistent (cancelReconnect u) (fun _ => consistent) consistent.
Proof.
  intros w Hw. destruct (consistent_cancelReconnect u w Hw) as [H _].
  destruct (cancelReconnect_run u w) as (w1 & Hrun & _).
  rewrite Hrun in *. exact H.
Qed.

Lemma consistent_teardown (u : jsstring) (existing : option nat) :
  hoare consistent
    (match existing with
     | Some c =>
         removeAllListeners c ;;
         emit (Call c LogOff) ;;
         modify (fun w => set_activeClients (delete u (activeClients w)) w)
     | None => ret tt
     end) (fun _ => consistent) consistent.
Proof.
  destruct existing as [c|]; [|by apply hoare_ret].
  apply hoare_bind with (R := fun _ => consistent).
  { apply hoare_consistent_step. apply consistent_removeAllListeners. }
  intros _. apply hoare_bind with (R := fun _ => consistent); [by apply hoare_emit|].
  intros _. apply hoare_consistent_step. intros w. apply consistent_set_activeClients.
Qed.

Lemma consistent_login (a : Account) :
  hoare consistent (login a) (fun _ => consistent) consistent.
Proof.
  unfold login.
  apply hoare_bind with (R := fun _ => consistent); [apply consistent_cancel|].
  intros _. apply hoare_bind with (R := fun _ => consistent); [by apply hoare_gets|].
  intros existing.
  apply hoare_bind with (R := fun _ => consistent); [apply consistent_teardown|].
  intros _. apply hoare_bind with (R := fun _ => consistent).
  { intros w Hw. exact (consistent_new_SteamUser a w Hw). }
  intros c. apply hoare_bind with (R := fun _ => consistent).
  { apply hoare_consistent_keeps, keeps_build_logOnOptions. }
  intros options. apply hoare_bind with (R := fun _ => consistent); [by apply hoare_emit|].
  intros _. intros w Hw. exact (consistent_login_timeout a c w Hw).
Qed.

Lemma consistent_logout (u : jsstring) :
  hoare consistent (logout u) (fun _ => consistent) consistent.
Proof.
  unfold logout.
  apply hoare_bind with (R := fun _ => consistent); [apply consistent_cancel|].
  intros _. apply hoare_bind with (R := fun _ => consistent); [by apply hoare_gets|].
  intros [c|]; [|by apply hoare_ret].
  apply hoare_bind with (R := fun _ => consistent).
  { apply hoare_consistent_step. apply consistent_removeAllListeners. }
  intros _. apply hoare_bind with (R := fun _ => consistent); [by apply hoare_emit|].
  intros _. apply hoare_bind with (R := fun _ => consistent).
  { apply hoare_consistent_step. intros w. apply consistent_set_activeClients. }
  intros _. by apply hoare_ret.
Qed.

Lemma consistent_clear_own (c timeout : nat) :
  hoare (holds_timeout c timeout) (clearTimeout timeout) (fun _ => consistent) consistent.
Proof.
  intros w (Hw & cl & Hc & Ht).
  apply (consistent_clearTimeout timeout w Hw).
  exact (timeout_not_recorded w c cl timeout Hw Hc Ht).
Qed.

Lemma consistent_teardown_attempt (c timeout : nat) (r : LoginResult) :
  hoare (holds_timeout c timeout)
    (clearTimeout timeout ;; removeAllListeners c ;; resolve c r)
    (fun _ => consistent) consistent.
Proof.
  apply hoare_bind with (R := fun _ => consistent); [apply consistent_clear_own|].
  intros _. apply hoare_bind with (R := fun _ => consistent).
  { apply hoare_consistent_step. apply consistent_removeAllListeners. }
  intros _. apply hoare_consistent_step. apply consistent_resolve.
Qed.

Lemma consistent_login_on_error (c : nat) (a : Account) (timeout : nat)
    (message : jsstring) :
  hoare (holds_timeout c timeout) (login_on_error c a timeout message)
    (fun _ => consistent) consistent.
Proof.
  unfold login_on_error, console_log.
  apply hoare_bind with (R := fun _ => consistent); [apply consistent_clear_own|].
  intros _. apply hoare_bind with (R := fun _ => consistent); [by apply hoare_emit|].
  intros _. apply hoare_bind with (R := fun _ => consistent).
  { apply hoare_consistent_step. intros w. apply consistent_set_activeClients. }
  intros _. apply hoare_bind with (R := fun _ => consistent).
  { apply hoare_consistent_keeps. unfold when.
    destruct (is_credential_error message); [|apply keeps_ret].
    apply keeps_bind; [apply keeps_deleteToken | intros _; apply keeps_emit]. }
  intros _. apply hoare_bind with (R := fun _ => consistent).
  { apply hoare_consistent_step. apply consistent_removeAllListeners. }
  intros _. apply hoare_bind with (R := fun _ => consistent).
  { unfold when. destruct (is_temporary_error message);
      [apply consistent_scheduleReconnect | by apply hoare_ret]. }
  intros _. apply hoare_consistent_step. apply consistent_resolve.
Qed.

Lemma consistent_login_on_loggedOn store (c : nat) (a : Account) (timeout : nat) :
  hoare (holds_timeout c timeout) (login_on_loggedOn store c a timeout)
    (fun _ => consistent) consistent.
Proof.
  unfold login_on_loggedOn, console_log.
  apply hoare_bind with (R := fun _ => consistent); [apply consistent_clear_own|].
  intros _. apply hoare_bind with (R := fun _ => consistent); [by apply hoare_emit|].
  intros _. apply hoare_bind with (R := fun _ => consistent).
  { apply hoare_consistent_step. intros w. apply consistent_set_activeClients. }
  intros _. apply hoare_bind with (R := fun _ => consistent); [by apply hoare_emit|].
  intros _. apply hoare_bind with (R := fun _ => consistent).
  { apply hoare_consistent_keeps, keeps_playGames. }
  intros _. apply hoare_consistent_step. apply consistent_resolve.
Qed.

Lemma consistent_login_on_timeout (c : nat) :
  hoare consistent (login_on_timeout c) (fun _ => consistent) consistent.
Proof.
  unfold login_on_timeout.
  apply hoare_bind with (R := fun _ => consistent).
  { apply hoare_consistent_step. apply consistent_removeAllListeners. }
  intros _. apply hoare_consistent_step. apply consistent_resolve.
Qed.
End ConsistentCalls.
Section OwnerRules.
Context {L : NodeLib}.

Lemma hoareN_ret {A} (P : World -> Prop) (a : A) (Q : A -> World -> Prop) E :
  (forall w, P w -> Q a w) -> hoareN P (retN a) Q E.
Proof. intros H r Hr. exact (H _ Hr). Qed.

Lemma hoareN_emit (P : World -> Prop) (s : Signal) (Q : unit -> World -> Prop) E :
  (forall w, P w -> Q tt w) -> hoareN P (emitN s) Q E.
Proof. intros H r Hr. exact (H _ Hr). Qed.

Lemma hoareN_notify (P : World -> Prop) (a : Account) (n : Notice)
    (Q : unit -> World -> Prop) E :
  (forall w, P w -> Q tt w) -> hoareN P (notify a n) Q E.
Proof.
  intros H r Hr. unfold notify.
  destruct (notifyCallback r && number_truthy (ownerId a)); exact (H _ Hr).
Qed.

Lemma hoareN_setNotifyCallback (P : World -> Prop) (Q : unit -> World -> Prop) E :
  (forall w, P w -> Q tt w) -> hoareN P setNotifyCallback Q E.
Proof. intros H r Hr. exact (H _ Hr). Qed.

Lemma hoareN_lift {A} (P : World -> Prop) (m : M A) (Q : A -> World -> Prop) E :
  hoare P m Q E -> hoareN P (lift m) Q E.
Proof.
  intros H r Hr. specialize (H _ Hr). unfold lift, result, world in *.
  destruct (m (base r)) as [[x w1] evs]. exact H.
Qed.

Lemma hoareN_weaken {A} (P P' : World -> Prop) (m : N A)
    (Q : A -> World -> Prop) (E : World -> Prop) :
  hoareN P' m Q E -> (forall w, P w -> P' w) -> hoareN P m Q E.
Proof. intros H HP r Hr. exact (H r (HP _ Hr)). Qed.

Lemma hoareN_bind {A B} (P : World -> Prop) (m : N A) (k : A -> N B)
    (R : A -> World -> Prop) (Q : B -> World -> Prop) (E : World -> Prop) :
  hoareN P m R E -> (forall a, hoareN (R a) (k a) Q E) -> hoareN P (bindN m k) Q E.
Proof.
  intros Hm Hk r Hr. specialize (Hm r Hr). unfold bindN.
  destruct (m r) as [[[a|e] r1] t1]; cbn in *; [|exact Hm].
  specialize (Hk a r1 Hm). destruct (k a r1) as [[x r2] t2]. exact Hk.
Qed.
End OwnerRules.

Section ConsistentOps.
Context {L : NodeLib}.

Lemma stays_lift {A} (m : M A) :
  hoare consistent m (fun _ => consistent) consistent -> stays (lift m).
Proof. apply hoareN_lift. Qed.

Lemma stays_log (l : OwnerLine) : stays (owner_log l).
Proof. by apply hoareN_emit. Qed.

Lemma stays_bind {A B} (m : N A) (k : A -> N B) :
  stays m -> (forall a, stays (k a)) -> stays (bindN m k).
Proof. intros Hm Hk. by apply hoareN_bind with (R := fun _ => consistent). Qed.

Lemma stays_weaken {A} (P : World -> Prop) (m : N A) :
  stays m -> (forall w, P w -> consistent w) ->
  hoareN P m (fun _ => consistent) consistent.
Proof. intros H HP r Hr. exact (H r (HP _ Hr)). Qed.

Lemma stays_reconnect_on_result (acc : Account) (r : LoginResult) :
  stays (reconnect_on_result acc r).
Proof.
  unfold reconnect_on_result.
  destruct (success r); [by apply hoareN_notify|].
  apply stays_bind; [apply stays_log|]. intros _.
  destruct (match error r with Some e => _ | None => false end).
  - apply stays_bind; [apply stays_log|]. intros _.
    apply stays_lift, consistent_scheduleReconnect.
  - by apply hoareN_ret.
Qed.

Lemma stays_login_on_disconnected (a : Account) (eresult : float)
    (msg : option jsstring) :
  stays (login_on_disconnected a eresult msg).
Proof.
  unfold login_on_disconnected.
  apply stays_bind; [apply stays_log|]. intros _.
  apply stays_bind.
  { apply stays_lift, hoare_consistent_step. intros w. apply consistent_set_activeClients. }
  intros _. apply stays_bind; [by apply hoareN_notify|]. intros _.
  apply stays_lift, consistent_scheduleReconnect.
Qed.

Lemma stays_login_on_playingState store (c : nat) (a : Account) (blocked : bool)
    (app : float) :
  stays (login_on_playingState store c a blocked app).
Proof.
  unfold login_on_playingState. destruct blocked; [apply stays_log|].
  apply stays_bind; [apply stays_log|]. intros _.
  apply stays_lift, hoare_consistent_keeps, keeps_playGames.
Qed.

Lemma stays_login_on_steamGuard (c : nat) (a : Account) (timeout : nat)
    (guardCallback : bool) (domain : option jsstring) :
  hoareN (holds_timeout c timeout)
    (login_on_steamGuard c a timeout guardCallback domain)
    (fun _ => consistent) consistent.
Proof.
  unfold login_on_steamGuard.
  apply hoareN_bind with (R := fun _ => holds_timeout c timeout).
  { apply hoareN_emit. auto. }
  intros _. destruct guardCallback.
  - apply hoareN_emit. by intros w [Hw _].
  - apply hoareN_lift, consistent_teardown_attempt.
Qed.

Lemma stays_login_on_guardCode (c timeout : nat) (code : jsstring) :
  hoareN (holds_timeout c timeout) (login_on_guardCode c timeout code)
    (fun _ => consistent) consistent.
Proof.
  unfold login_on_guardCode. destruct (string_truthy code).
  - apply hoareN_emit. by intros w [Hw _].
  - apply hoareN_lift, consistent_teardown_attempt.
Qed.

Lemma hoareN_gets {A B} (P : World -> Prop) (f : World -> A) (k : A -> N B)
    (Q : B -> World -> Prop) E :
  (forall x, hoareN (fun w => P w /\ f w = x) (k x) Q E) ->
  hoareN P (bindN (lift (gets f)) k) Q E.
Proof.
  intros H r Hr. unfold bindN, lift, gets. cbn.
  specialize (H (f (base r)) r (conj Hr eq_refl)).
  destruct r as [w cb]. cbn in *.
  destruct (k (f w) _) as [[x r2] t2]. exact H.
Qed.

Lemma stays_deliver store (guardCallback : bool) (c : nat) (ev : ClientEvent) :
  stays (deliver store guardCallback c ev).
Proof.
  unfold deliver. apply hoareN_gets. intros [[a [|] p [timeout|]]|];
    try (apply hoareN_ret; tauto).
  assert (Hpre : forall w, consistent w /\
              clients w !! c = Some (mkClient a true p (Some timeout)) ->
              holds_timeout c timeout w).
  { intros w [Hw Hc]. split; [exact Hw|]. eexists. split; [exact Hc | reflexivity]. }
  destruct ev as [message|token|domain| |eresult msg|blocked app].
  - eapply hoareN_weaken; [|exact Hpre].
    apply hoareN_lift, consistent_login_on_error.
  - apply stays_weaken; [|tauto].
    apply stays_lift, hoare_consistent_keeps.
    unfold login_on_refreshToken, console_log.
    apply keeps_bind; [apply keeps_emit | intros _; apply keeps_saveToken].
  - eapply hoareN_weaken; [|exact Hpre]. apply stays_login_on_steamGuard.
  - eapply hoareN_weaken; [|exact Hpre].
    apply hoareN_lift, consistent_login_on_loggedOn.
  - apply stays_weaken; [apply stays_login_on_disconnected | tauto].
  - apply stays_weaken; [apply stays_login_on_playingState | tauto].
Qed.

Lemma stays_answer_guard (c : nat) (code : jsstring) : stays (answer_guard c code).
Proof.
  unfold answer_guard. apply hoareN_gets. intros [[a l p [timeout|]]|];
    try (apply hoareN_ret; tauto).
  eapply hoareN_weaken; [apply stays_login_on_guardCode|].
  intros w [Hw Hc]. split; [exact Hw|]. eexists. split; [exact Hc | reflexivity].
Qed.
End ConsistentOps.
Section TimerRuns.
Context {L : NodeLib}.

Lemma bindN_ok {A B} (m : N A) (k : A -> N B) (r r1 : Runtime) (x : A)
    (e1 : list Signal) :
  m r = (Ok x, r1, e1) ->
  bindN m k r = ((k x r1).1.1, (k x r1).1.2, e1 ++ (k x r1).2).
Proof.
  intros H. unfold bindN. rewrite H. by destruct (k x r1) as [[y r2] e2].
Qed.

(** A reconnect timer that fires: the schedule of the account is
    consumed as by [cancelReconnect], then the account on record, if it
    is offline, is logged in. *)
Lemma run_timer_reconnect (h : nat) (a : Account) (d : Z) (r : Runtime) :
  timers (base r) !! h = Some (mkTimer (ReconnectTask a) d Armed) ->
  reconnectTimers (base r) !! username a = Some h ->
  run_timer h r
  = (let r1 := mkRuntime (world (cancelReconnect (username a) (base r)))
                 (notifyCallback r) in
     let o :=
       match accountsToReconnect (base r) !! username a with
       | Some acc =>
           bindN (lift (isOnline (username acc))) (fun online =>
             if online then
               bindN (owner_log (LogAlreadyOnline (username acc)))
                 (fun _ => retN None)
             else
               bindN (lift (login acc)) (fun steamUser =>
                 retN (Some (acc, steamUser))))
       | None => retN None
       end r1 in
     (o.1.1, o.1.2, OwnerConsole (LogAutoReconnecting (username a)) :: o.2)).
Proof.
  intros Ht Hr. destruct r as [w cb]. cbn [base notifyCallback] in *.
  assert (Hc : cancelReconnect (username a) w
    = (Ok tt,
       set_accountsToReconnect (delete (username a) (accountsToReconnect w))
         (set_reconnectTimers (delete (username a) (reconnectTimers w))
            (set_timers (alter disarm h (timers w)) w)), [])).
  { unfold cancelReconnect, clearTimeout. unfold_M. cbn. rewrite Hr. reflexivity. }
  rewrite Hc. cbn [world fst snd].
  unfold run_timer, reconnect_on_timer.
  erewrite (bindN_ok (lift (gets _))) by reflexivity.
  cbn [base]. rewrite Ht. cbn [fst snd app].
  erewrite (bindN_ok (lift (clearTimeout h))) by reflexivity. cbn [fst snd app].
  erewrite (bindN_ok (owner_log _)) by reflexivity. cbn [fst snd app].
  erewrite (bindN_ok (lift (modify _))) by reflexivity. cbn [fst snd app].
  erewrite (bindN_ok (lift (gets _))) by reflexivity. cbn [fst snd app].
  erewrite (bindN_ok (lift (modify _))) by reflexivity. cbn [fst snd app].
  reflexivity.
Qed.
End TimerRuns.

Section ConsistentMachine.
Context {L : NodeLib}.

Lemma stays_reconnect_attempt (acc : option Account) :
  stays (match acc with
         | Some acc =>
             bindN (lift (isOnline (username acc))) (fun online =>
               if online then
                 bindN (owner_log (LogAlreadyOnline (username acc)))
                   (fun _ => retN None)
               else
                 bindN (lift (login acc)) (fun steamUser =>
                   retN (Some (acc, steamUser))))
         | None => retN None
         end).
Proof.
  destruct acc as [acc|]; [|by apply hoareN_ret].
  apply stays_bind; [apply stays_lift; by apply hoare_gets|].
  intros [|].
  - apply stays_bind; [apply stays_log | intros _; by apply hoareN_ret].
  - apply stays_bind; [apply stays_lift, consistent_login|].
    intros c. by apply hoareN_ret.
Qed.

Lemma stays_run_timer (h : nat) : stays (run_timer h).
Proof.
  intros r Hr.
  destruct (timers (base r) !! h) as [[[a|c] d [|]]|] eqn:Ht.
  - pose proof (armed_recorded _ Hr h _ a Ht eq_refl eq_refl) as Hrec.
    rewrite (run_timer_reconnect h a d r Ht Hrec). cbn zeta. cbn [fst snd].
    apply (stays_reconnect_attempt _ (mkRuntime _ _)). cbn [base].
    apply consistent_cancelReconnect, Hr.
  - unfold run_timer. erewrite (bindN_ok (lift (gets _))) by reflexivity.
    cbn [base]. rewrite Ht. cbn. exact Hr.
  - assert (Hs : hoareN
              (fun w => consistent w /\ forall u, reconnectTimers w !! u <> Some h)
              (bindN (lift (clearTimeout h))
                 (fun _ => bindN (lift (login_on_timeout c))
                    (fun _ => retN (None : option (Account * nat)))))
              (fun _ => consistent) consistent).
    { apply hoareN_bind with (R := fun _ => consistent).
      { apply hoareN_lift. intros w [Hw Hn]. exact (consistent_clearTimeout h w Hw Hn). }
      intros _. apply stays_bind; [apply stays_lift, consistent_login_on_timeout|].
      intros _. by apply hoareN_ret. }
    unfold run_timer. erewrite (bindN_ok (lift (gets _))) by reflexivity.
    cbn [base]. rewrite Ht. cbn [fst snd app].
    apply (Hs (mkRuntime _ _)). cbn [base]. split; [exact Hr|].
    intros u Hu. destruct (recorded_armed _ Hr u h Hu) as (a & d' & Ht' & _).
    rewrite Ht in Ht'. discriminate.
  - unfold run_timer. erewrite (bindN_ok (lift (gets _))) by reflexivity.
    cbn [base]. rewrite Ht. cbn. exact Hr.
  - unfold run_timer. erewrite (bindN_ok (lift (gets _))) by reflexivity.
    cbn [base]. rewrite Ht. cbn. exact Hr.
Qed.

Lemma stays_cancel_each (usernames : list jsstring) : stays (cancel_each usernames).
Proof.
  induction usernames as [|u rest IH]; cbn [cancel_each]; [by apply hoareN_ret|].
  apply stays_bind; [apply stays_lift, consistent_cancel | intros _; exact IH].
Qed.

Lemma stays_logOff_each (sessions : list (jsstring * nat)) : stays (logOff_each sessions).
Proof.
  induction sessions as [|[u c] rest IH]; cbn [logOff_each]; [by apply hoareN_ret|].
  apply stays_bind.
  { apply stays_lift, hoare_consistent_step, consistent_removeAllListeners. }
  intros _. apply stays_bind; [apply stays_lift; by apply hoare_emit|].
  intros _. apply stays_bind; [apply stays_log | intros _; exact IH].
Qed.

Lemma stays_run_op (op : Op) : stays (run_op op).
Proof.
  destruct op; cbn [run_op].
  - apply stays_lift, hoare_consistent_keeps, keeps_setEncryptionKey.
  - by apply hoareN_setNotifyCallback.
  - apply stays_lift, hoare_consistent_keeps, keeps_cleanCache.
  - apply stays_bind; [apply stays_lift, consistent_login|].
    intros _. by apply hoareN_ret.
  - apply stays_bind; [apply stays_lift, consistent_logout|].
    intros _. by apply hoareN_ret.
  - unfold logoutAll. apply stays_bind; [apply stays_cancel_each|].
    intros _. apply stays_bind; [apply stays_logOff_each|].
    intros _. apply stays_lift, hoare_consistent_step.
    intros w. apply consistent_set_activeClients.
  - apply stays_bind; [apply stays_lift, hoare_consistent_keeps, keeps_updateGames|].
    intros _. by apply hoareN_ret.
  - apply stays_bind; [apply stays_lift, hoare_consistent_keeps, keeps_hasToken|].
    intros _. by apply hoareN_ret.
  - apply stays_lift. intros w Hw. exact (consistent_enableAutoReconnect _ w Hw).
  - apply stays_lift, consistent_cancel.
  - apply stays_deliver.
  - apply stays_answer_guard.
  - apply stays_bind; [apply stays_run_timer|]. intros _. by apply hoareN_ret.
  - apply stays_reconnect_on_result.
Qed.

Lemma loaded_consistent (r : Runtime) : loaded r -> consistent (base r).
Proof.
  intros (_ & Ha & Hr & Ht & Hc).
  constructor; intros *; rewrite ?Ha, ?Hr, ?Ht, ?Hc, lookup_empty; discriminate.
Qed.

Lemma run_op_world_consistent (op : Op) (r : Runtime) :
  consistent (base r) -> consistent (base (run_op op r).1.2).
Proof.
  intros Hr. pose proof (stays_run_op op r Hr) as H.
  by destruct ((run_op op r).1.1).
Qed.

Lemma run_ops_consistent (ops : list Op) (r : Runtime) :
  consistent (base r) -> consistent (base (run_ops ops r)).
Proof.
  revert r. induction ops as [|op rest IH]; intros r Hr; [exact Hr|].
  cbn [run_ops fold_left]. apply IH, run_op_world_consistent, Hr.
Qed.
End ConsistentMachine.
(* ================================================================== *)
(** * What the scheduler records is what is armed *)
(* ================================================================== *)

Section Exactness.
Context {L : NodeLib}.

Lemma reconnects_spec (u : jsstring) (t : Timer) :
  reconnects u t = true <->
  exists a, task t = ReconnectTask a /\ state t = Armed /\ username a = u.
Proof.
  unfold reconnects. destruct t as [[a|c] d [|]]; cbn.
  - rewrite bool_decide_eq_true. split; [eauto|].
    intros (a' & [= <-] & _ & H). exact H.
  - split; [discriminate|]. intros (a' & _ & H & _). discriminate.
  - split; [discriminate|]. intros (a' & H & _). discriminate.
  - split; [discriminate|]. intros (a' & H & _). discriminate.
Qed.

(** In a consistent world the armed timers that will reconnect an
    account are the one on record for it, or none. *)
Lemma consistent_armed_reconnects (u : jsstring) (w : World) :
  consistent w ->
  match reconnectTimers w !! u with
  | Some h => exists t, timers w !! h = Some t /\ armed_reconnects u w = {[h := t]}
  | None => armed_reconnects u w = ∅
  end.
Proof.
  intros Hw.
  assert (Hin : forall h t, armed_reconnects u w !! h = Some t ->
            timers w !! h = Some t /\ reconnectTimers w !! u = Some h).
  { intros h t Ht. unfold armed_reconnects in Ht.
    apply map_lookup_filter_Some in Ht as [Ht Hrec]. cbn in Hrec.
    apply reconnects_spec in Hrec as (a & Hk & Hs & <-).
    split; [exact Ht|]. exact (armed_recorded _ Hw h t a Ht Hs Hk). }
  destruct (reconnectTimers w !! u) as [h|] eqn:Hr.
  - destruct (recorded_armed _ Hw u h Hr) as (a & d & Ht & Hn).
    eexists. split; [exact Ht|]. apply map_eq. intros h'.
    destruct (decide (h = h')) as [<-|Hne].
    + rewrite lookup_singleton_eq. unfold armed_reconnects.
      apply map_lookup_filter_Some. split; [exact Ht|]. cbn.
      by apply bool_decide_eq_true.
    + rewrite lookup_singleton_ne by exact Hne.
      destruct (armed_reconnects u w !! h') as [t|] eqn:E; [|reflexivity].
      destruct (Hin h' t E) as [_ [= ->]]. congruence.
  - apply map_eq. intros h'. rewrite lookup_empty.
    destruct (armed_reconnects u w !! h') as [t|] eqn:E; [|reflexivity].
    destruct (Hin h' t E) as [_ [=]].
Qed.

(** X5. From the module as loaded, after any sequence of calls, client
    events, timers firing and logins resolving: an account is pending
    reconnect exactly when one armed timer will reconnect it.  When it
    is not pending no such timer is armed; when it is, the timer on
    record is the only one, and the account to log in is on record
    under its own name. *)
Theorem schedule_exact (ops : list Op) (r : Runtime) (u : jsstring) :
  loaded r ->
  (result (isPendingReconnect u (base (run_ops ops r))) = Ok false /\
   armed_reconnects u (base (run_ops ops r)) = ∅) \/
  (result (isPendingReconnect u (base (run_ops ops r))) = Ok true /\
   exists h t acc,
     reconnectTimers (base (run_ops ops r)) !! u = Some h /\
     armed_reconnects u (base (run_ops ops r)) = {[h := t]} /\
     accountsToReconnect (base (run_ops ops r)) !! u = Some acc /\
     username acc = u).
Proof.
  intros Hl.
  pose proof (run_ops_consistent ops r (loaded_consistent r Hl)) as Hw.
  set (w := base (run_ops ops r)) in *.
  pose proof (consistent_armed_reconnects u w Hw) as He.
  unfold isPendingReconnect, gets, result. cbn.
  destruct (reconnectTimers w !! u) as [h|] eqn:Hr; [right | left; by split].
  split; [reflexivity|]. destruct He as (t & _ & He).
  destruct (recorded_account _ Hw u h Hr) as [acc Hacc].
  exists h, t, acc. repeat split; try assumption.
  exact (account_named _ Hw u acc Hacc).
Qed.
End Exactness.

Lemma loaded_runtime_loaded : loaded loaded_runtime.
Proof. repeat split. Qed.

Lemma schedule_exact_witness :
  result (isPendingReconnect (js "bob") (base (run_ops bob_disconnected loaded_runtime)))
  = Ok true /\
  exists h t,
    armed_reconnects (js "bob") (base (run_ops bob_disconnected loaded_runtime))
    = {[h := t]}.
Proof.
  destruct (schedule_exact bob_disconnected loaded_runtime (js "bob")
              loaded_runtime_loaded) as [[H _] | [H (h & t & _ & _ & He & _)]].
  - exfalso. vm_compute in H. discriminate.
  - split; [exact H | by exists h, t].
Defined.

(* ================================================================== *)
(** * A reconnect timer fires *)
(* ================================================================== *)

Section TimerFires.
Context {L : NodeLib}.

Lemma earlier_map (evs : list Event) : earlier (List.map Earlier evs) = evs.
Proof. induction evs as [|e evs IH]; cbn; [reflexivity | by rewrite IH]. Qed.

Lemma earlier_app (xs ys : list Signal) : earlier (xs ++ ys) = earlier xs ++ earlier ys.
Proof. induction xs as [|[e|l|i n|c g|c s] xs IH]; cbn; rewrite ?IH; reflexivity. Qed.

Lemma lift_run {A} (m : M A) (r : Runtime) :
  lift m r
  = (result (m (base r)), mkRuntime (world (m (base r))) (notifyCallback r),
     List.map Earlier (events (m (base r)))).
Proof. unfold lift, result, world, events. by destruct (m (base r)) as [[x w] evs]. Qed.

Lemma not_pending_none_armed (u : jsstring) (w : World) :
  consistent w -> reconnectTimers w !! u = None -> armed_reconnects u w = ∅.
Proof.
  intros Hw Hr. pose proof (consistent_armed_reconnects u w Hw) as H.
  by rewrite Hr in H.
Qed.

Lemma hoare_run {A} (P : World -> Prop) (m : M A) (w : World) :
  hoare P m (fun _ => P) P -> P w -> P (world (m w)).
Proof. intros H Hw. specialize (H w Hw). by destruct (result (m w)). Qed.

(** The run of a reconnect timer on record, for an account that is
    offline. *)
Lemma run_timer_offline (h : nat) (u : jsstring) (r : Runtime) :
  consistent (base r) ->
  reconnectTimers (base r) !! u = Some h ->
  activeClients (base r) !! u = None ->
  token_not_directory u (base r) ->
  exists acc w' evs,
    accountsToReconnect (base r) !! u = Some acc /\ username acc = u /\
    run_timer h r
    = (Ok (Some (acc, fresh (dom (clients (base r))))),
       mkRuntime w' (notifyCallback r),
       OwnerConsole (LogAutoReconnecting u) :: List.map Earlier evs) /\
    consistent w' /\
    logOn_calls evs = [(fresh (dom (clients (base r))), credentials acc (base r))] /\
    activeClients w' !! u = None /\
    reconnectTimers w' !! u = None /\
    accountsToReconnect w' !! u = None /\
    timers w' !! fresh (dom (timers (base r)))
    = Some (mkTimer (LoginTimeoutTask (fresh (dom (clients (base r)))))
              LOGIN_TIMEOUT Armed) /\
    clients w' !! fresh (dom (clients (base r)))
    = Some (mkClient acc true None (Some (fresh (dom (timers (base r)))))).
Proof.
  intros Hw Hr Hoff Hnd.
  destruct (recorded_armed _ Hw u h Hr) as (a & d & Ht & <-).
  destruct (recorded_account _ Hw _ h Hr) as [acc Hacc].
  pose proof (account_named _ Hw _ acc Hacc) as Hname.
  rewrite (run_timer_reconnect h a d r Ht Hr). cbn zeta. rewrite Hacc. cbn [fst snd].
  destruct (cancelReconnect_run (username a) (base r))
    as (wc & Hc & V & Hact & Hcl & Hrt & Hat).
  pose proof (consistent_cancelReconnect (username a) (base r) Hw) as [Hwc _].
  assert (Htm : timers wc = alter disarm h (timers (base r))).
  { revert Hc. unfold cancelReconnect, clearTimeout. unfold_M. cbn. rewrite Hr. cbn.
    by intros [= <-]. }
  rewrite Hc in *. cbn [world fst snd] in *.
  erewrite (bindN_ok (lift (isOnline (username acc)))) by (rewrite lift_run; reflexivity).
  cbn [base fst snd app notifyCallback].
  change (world (isOnline (username acc) wc)) with wc.
  change (result (isOnline (username acc) wc))
    with (Ok (match activeClients wc !! username acc with
              | Some _ => true | None => false end)).
  change (events (isOnline (username acc) wc)) with (@nil Event).
  rewrite Hact, Hname, Hoff. cbn [List.map app].
  destruct (same_vault_saved_token (username a) (base r) wc V) as [Hsaved Hnd'].
  specialize (Hnd' Hnd). rewrite <- Hname in Hnd'.
  destruct (login_summary acc wc Hnd')
    as (w' & evs & Hl & Hon' & _ & Hact' & Hat' & Hrt' & Htm' & Hcl' & Hk' & Hd' & _ & Hclk').
  pose proof (hoare_run consistent (login acc) wc (consistent_login acc) Hwc) as Hw'.
  erewrite (bindN_ok (lift (login acc))) by (rewrite lift_run; cbn [base]; rewrite Hl; reflexivity).
  rewrite Hl in Hw'. cbn [world fst snd] in Hw'.
  unfold result, world, events. cbn [base fst snd app retN].
  rewrite app_nil_r, Hcl.
  exists acc, w', evs. split; [reflexivity|]. split; [exact Hname|].
  split; [reflexivity|]. split; [exact Hw'|].
  split.
  { rewrite Hon', Hcl. do 2 f_equal. unfold credentials. rewrite Hname, Hsaved.
    destruct V as (_ & _ & ->). reflexivity. }
  split; [rewrite Hact', Hname; apply lookup_delete_eq|].
  split; [rewrite Hrt', Hname; apply lookup_delete_eq|].
  split; [rewrite Hat', Hname; apply lookup_delete_eq|].
  split.
  { rewrite Htm', Htm, dom_alter_L, Hcl. apply lookup_insert_eq. }
  rewrite Hcl', Htm, dom_alter_L, Hcl. apply lookup_insert_eq.
Qed.

(** X6. When the reconnect timer on record for an account fires, the
    schedule of the account is consumed; if the account is online
    nothing else happens, and otherwise one [login] is started for the
    account on record, with the credentials [login] would use now. *)
Theorem reconnect_timer_fires (h : nat) (u : jsstring) (r : Runtime) :
  consistent (base r) ->
  reconnectTimers (base r) !! u = Some h ->
  token_not_directory u (base r) ->
  exists acc,
    accountsToReconnect (base r) !! u = Some acc /\ username acc = u /\
    reconnectTimers (base (run_timer h r).1.2) !! u = None /\
    accountsToReconnect (base (run_timer h r).1.2) !! u = None /\
    armed_reconnects u (base (run_timer h r).1.2) = ∅ /\
    match activeClients (base r) !! u with
    | Some _ =>
        (run_timer h r).1.1 = Ok None /\
        logOn_calls (earlier (run_timer h r).2) = []
    | None =>
        (run_timer h r).1.1 = Ok (Some (acc, fresh (dom (clients (base r))))) /\
        logOn_calls (earlier (run_timer h r).2)
        = [(fresh (dom (clients (base r))), credentials acc (base r))]
    end.
Proof.
  intros Hw Hr Hnd.
  destruct (recorded_armed _ Hw u h Hr) as (a & d & Ht & <-).
  destruct (recorded_account _ Hw _ h Hr) as [acc Hacc].
  pose proof (account_named _ Hw _ acc Hacc) as Hname.
  exists acc. split; [exact Hacc|]. split; [exact Hname|].
  rewrite (run_timer_reconnect h a d r Ht Hr). cbn zeta. rewrite Hacc. cbn [fst snd].
  destruct (cancelReconnect_run (username a) (base r))
    as (wc & Hc & V & Hact & Hcl & Hrt & Hat).
  pose proof (consistent_cancelReconnect (username a) (base r) Hw) as [Hwc _].
  rewrite Hc in *. cbn [world fst snd] in *.
  erewrite (bindN_ok (lift (isOnline (username acc)))) by (rewrite lift_run; reflexivity).
  cbn [base fst snd app notifyCallback].
  change (world (isOnline (username acc) wc)) with wc.
  change (result (isOnline (username acc) wc))
    with (Ok (match activeClients wc !! username acc with
              | Some _ => true | None => false end)).
  change (events (isOnline (username acc) wc)) with (@nil Event).
  rewrite Hact, Hname. cbn [List.map app].
  destruct (activeClients (base r) !! username a) as [c|] eqn:Hon.
  - erewrite (bindN_ok (owner_log _)) by reflexivity. cbn.
    repeat split; try assumption. by apply not_pending_none_armed.
  - destruct (same_vault_saved_token (username a) (base r) wc V) as [Hsaved Hnd'].
    specialize (Hnd' Hnd). rewrite <- Hname in Hnd'.
    destruct (login_summary acc wc Hnd') as (w' & evs & Hl & Hon' & _ & _ & Hat' & Hrt' & _).
    pose proof (hoare_run consistent (login acc) wc (consistent_login acc) Hwc) as Hw'.
    erewrite (bindN_ok (lift (login acc))) by (rewrite lift_run; cbn [base]; rewrite Hl; reflexivity).
    rewrite Hl in Hw'. cbn [world fst snd] in Hw'.
    unfold result, world, events. cbn [base fst snd app retN].
    rewrite app_nil_r. cbn [earlier]. rewrite earlier_map, Hon', Hcl.
    assert (Hrt'' : reconnectTimers w' !! username a = None).
    { rewrite Hrt', Hname. apply lookup_delete_eq. }
    split; [exact Hrt''|].
    split; [rewrite Hat', Hname; apply lookup_delete_eq|].
    split; [by apply not_pending_none_armed|].
    split; [reflexivity|].
    do 2 f_equal. unfold credentials. rewrite Hname, Hsaved.
    destruct V as (_ & _ & ->). reflexivity.
Qed.
End TimerFires.

Lemma bob_disconnected_consistent :
  consistent (base (run_ops bob_disconnected loaded_runtime)).
Proof. apply run_ops_consistent, loaded_consistent, loaded_runtime_loaded. Qed.

Lemma bob_disconnected_not_directory (u : jsstring) :
  token_not_directory u (base (run_ops bob_disconnected loaded_runtime)).
Proof. intros t. vm_compute. discriminate. Qed.

Lemma reconnect_timer_fires_witness :
  exists acc,
    accountsToReconnect (base (run_ops bob_disconnected loaded_runtime)) !! js "bob"
    = Some acc /\
    (run_timer 1 (run_ops bob_disconnected loaded_runtime)).1.1 = Ok (Some (acc, 1%nat)).
Proof.
  destruct (reconnect_timer_fires 1 (js "bob") (run_ops bob_disconnected loaded_runtime)
              bob_disconnected_consistent)
    as (acc & Hacc & _ & _ & _ & _ & H).
  - vm_compute. reflexivity.
  - apply bob_disconnected_not_directory.
  - exists acc. split; [exact Hacc|].
    assert (Hoff : activeClients (base (run_ops bob_disconnected loaded_runtime))
                     !! js "bob" = None) by (vm_compute; reflexivity).
    rewrite Hoff in H. destruct H as [-> _]. do 3 f_equal.
Defined.
(* ================================================================== *)
(** * What becomes of a reconnect that fails *)
(* ================================================================== *)

Section TimeoutDrop.
Context {L : NodeLib}.

(** The timeout of a login attempt that fires. *)
Lemma run_timer_timeout (tmo c : nat) (d : Z) (r : Runtime) :
  timers (base r) !! tmo = Some (mkTimer (LoginTimeoutTask c) d Armed) ->
  run_timer tmo r
  = (Ok None,
     mkRuntime
       (world (login_on_timeout c (world (clearTimeout tmo (base r)))))
       (notifyCallback r), []).
Proof.
  intros Ht. destruct r as [w cb]. cbn [base notifyCallback] in *.
  unfold run_timer.
  erewrite (bindN_ok (lift (gets _))) by reflexivity.
  cbn [base]. rewrite Ht. cbn [fst snd app].
  erewrite (bindN_ok (lift (clearTimeout tmo))) by reflexivity. cbn [fst snd app].
  erewrite (bindN_ok (lift (login_on_timeout c))) by reflexivity. reflexivity.
Qed.

(** X7. A reconnect whose login runs into the 30 s timeout is not tried
    again: after the reconnect timer of an offline account fired, the
    timeout of the attempt fired, and the callback went on with the
    result, the attempt has failed with ['Login timeout (30s)'], and the
    account is offline with no reconnect pending and no timer armed to
    reconnect it. *)
Theorem reconnect_timeout_is_final (h : nat) (u : jsstring) (r : Runtime) :
  consistent (base r) ->
  reconnectTimers (base r) !! u = Some h ->
  activeClients (base r) !! u = None ->
  token_not_directory u (base r) ->
  exists acc,
    accountsToReconnect (base r) !! u = Some acc /\
    (run_timer h r).1.1 = Ok (Some (acc, fresh (dom (clients (base r))))) /\
    forall r3,
      r3 = run_ops
             [OpRunTimer h;
              OpRunTimer (fresh (dom (timers (base r))));
              OpLoginResolved acc
                (mkLoginResult false (Some (js "Login timeout (30s)")))] r ->
      clients (base r3) !! fresh (dom (clients (base r)))
      = Some (mkClient acc false
                (Some (mkLoginResult false (Some (js "Login timeout (30s)"))))
                (Some (fresh (dom (timers (base r)))))) /\
      result (isOnline u (base r3)) = Ok false /\
      result (isPendingReconnect u (base r3)) = Ok false /\
      armed_reconnects u (base r3) = ∅.
Proof.
  intros Hw Hr Hoff Hnd.
  destruct (run_timer_offline h u r Hw Hr Hoff Hnd)
    as (acc & w1 & evs & Hacc & Hname & Hrun & Hw1 & _ & Hact & Hrt & _ & Htm & Hcl).
  exists acc. split; [exact Hacc|]. rewrite Hrun. split; [reflexivity|].
  intros r3 ->. unfold run_ops. cbn [fold_left run_op].
  erewrite (bindN_ok (run_timer h)) by exact Hrun. cbn [fst snd retN].
  erewrite (bindN_ok (run_timer _)) by (eapply run_timer_timeout; exact Htm).
  cbn [fst snd retN base notifyCallback].
  set (c := fresh (dom (clients (base r)))) in *.
  set (tmo := fresh (dom (timers (base r)))) in *.
  set (w2 := world (login_on_timeout c (world (clearTimeout tmo w1)))).
  assert (H2 : activeClients w2 = activeClients w1 /\
               reconnectTimers w2 = reconnectTimers w1) by (split; reflexivity).
  assert (Hw2 : consistent w2).
  { apply (hoare_run consistent (login_on_timeout c) _ (consistent_login_on_timeout c)).
    apply consistent_clearTimeout; [exact Hw1|].
    intros u' Hu'. destruct (recorded_armed _ Hw1 u' tmo Hu') as (a & d & Ht' & _).
    rewrite Htm in Ht'. discriminate. }
  assert (Hc2 : clients w2 !! c
                = Some (mkClient acc false
                          (Some (mkLoginResult false (Some (js "Login timeout (30s)"))))
                          (Some tmo))).
  { subst w2. unfold login_on_timeout, removeAllListeners, resolve, clearTimeout.
    unfold_M. cbn. rewrite !lookup_alter_eq, Hcl. reflexivity. }
  assert (H3 : (reconnect_on_result acc
                  (mkLoginResult false (Some (js "Login timeout (30s)")))
                  (mkRuntime w2 (notifyCallback r))).1.2
               = mkRuntime w2 (notifyCallback r)).
  { unfold reconnect_on_result. cbn [success error].
    erewrite (bindN_ok (owner_log _)) by reflexivity.
    replace (includes (js "Login timeout (30s)") (js "LoggedInElsewhere")) with false
      by (vm_compute; reflexivity).
    reflexivity. }
  rewrite H3. cbn [base]. destruct H2 as [Ha2 Hr2].
  split; [exact Hc2|].
  unfold isOnline, isPendingReconnect, gets, result. cbn [fst].
  rewrite Ha2, Hr2, Hact, Hrt. split; [reflexivity|]. split; [reflexivity|].
  apply not_pending_none_armed; [exact Hw2 | by rewrite Hr2].
Qed.
End TimeoutDrop.

Lemma reconnect_timeout_is_final_witness :
  exists acc,
    (run_timer 1 (run_ops bob_disconnected loaded_runtime)).1.1 = Ok (Some (acc, 1%nat)) /\
    result (isPendingReconnect (js "bob")
      (base (run_ops
         [OpRunTimer 1; OpRunTimer 2;
          OpLoginResolved acc (mkLoginResult false (Some (js "Login timeout (30s)")))]
         (run_ops bob_disconnected loaded_runtime)))) = Ok false.
Proof.
  destruct (reconnect_timeout_is_final 1 (js "bob")
              (run_ops bob_disconnected loaded_runtime) bob_disconnected_consistent)
    as (acc & _ & Hrun & H).
  - vm_compute. reflexivity.
  - vm_compute. reflexivity.
  - apply bob_disconnected_not_directory.
  - exists acc. split; [exact Hrun|].
    destruct (H _ eq_refl) as (_ & _ & Hp & _). exact Hp.
Defined.
(* ================================================================== *)
(** * The retry after LoggedInElsewhere, and a disconnect *)
(* ================================================================== *)

Section RetryVoid.
Context {L : NodeLib}.

Lemma includes_elsewhere_temporary (message : jsstring) :
  includes message (js "LoggedInElsewhere") = true ->
  is_temporary_error message = true.
Proof. intros H. unfold is_temporary_error. by rewrite H. Qed.

(** A second [scheduleReconnect] right after a first one arms
    nothing. *)
Lemma scheduleReconnect_again (a : Account) (w ws w1 : World) (evs : list Event) :
  token_not_directory (username a) w ->
  scheduleReconnect a w = (Ok tt, ws, evs) ->
  same_vault ws w1 -> reconnectTimers w1 = reconnectTimers ws ->
  result (scheduleReconnect a w1) = Ok tt /\
  session (world (scheduleReconnect a w1)) = session w1.
Proof.
  intros Hnd Hs V Hrt.
  destruct (scheduleReconnect_summary a w Hnd)
    as (ws' & evs' & Hs' & _ & _ & _ & _ & Hsaved & Hnds & _ & Hiff).
  rewrite Hs in Hs'. injection Hs' as <- <-.
  destruct (same_vault_saved_token (username a) ws w1 V) as [Hsaved1 Hnd1].
  specialize (Hnd1 Hnds).
  destruct (reconnectTimers w1 !! username a) as [h|] eqn:Hp.
  { rewrite (scheduleReconnect_pending a w1 h Hp). by split. }
  assert (Hpw : reconnectTimers w !! username a = None).
  { destruct (reconnectTimers w !! username a) as [h|] eqn:E; [|reflexivity].
    rewrite (scheduleReconnect_pending a w h E) in Hs. injection Hs as <- _.
    congruence. }
  assert (He : eligible a w1 = false).
  { unfold eligible. rewrite Hsaved1, Hsaved. fold (eligible a w).
    destruct (eligible a w) eqn:E; [|reflexivity].
    destruct (proj2 (Hiff Hpw) eq_refl) as [h Hh]. congruence. }
  rewrite (scheduleReconnect_fresh a w1 Hp Hnd1), He. cbn [result world fst snd].
  split; [reflexivity|]. apply keeps_loadToken.
Qed.

(** X8. When the login of a reconnect fails with an error that names
    [LoggedInElsewhere], the callback of the timer calls
    [scheduleReconnect] once more; that call never arms a timer: the
    ['error'] listener has already scheduled the reconnect, or the
    account cannot reconnect. *)
Theorem elsewhere_retry_is_void (c : nat) (a : Account) (timeout : nat)
    (message : jsstring) (w : World) (cb : bool) :
  token_not_directory (username a) w ->
  includes message (js "LoggedInElsewhere") = true ->
  (reconnect_on_result a (mkLoginResult false (Some message))
     (mkRuntime (world (login_on_error c a timeout message w)) cb)).1.1 = Ok tt /\
  session
    (base (reconnect_on_result a (mkLoginResult false (Some message))
             (mkRuntime (world (login_on_error c a timeout message w)) cb)).1.2)
  = session (world (login_on_error c a timeout message w)).
Proof.
  intros Hnd Hinc.
  destruct (login_on_error_run c a timeout message w Hnd)
    as (wc & ws & evs & Hwc & Hs & Hrun).
  rewrite (includes_elsewhere_temporary message Hinc) in Hs.
  rewrite Hrun. cbn [world fst snd].
  set (w1 := world (resolve c _ ws)).
  assert (Hndr : token_not_directory (username a) (world (removeAllListeners c wc))).
  { intros t. change (lookup_entry (tokenPath (username a)) wc <> Some (Directory t)).
    rewrite Hwc. destruct (is_credential_error message).
    - rewrite lookup_entry_remove_eq. discriminate.
    - apply (Hnd t). }
  destruct (scheduleReconnect_again a _ ws w1 evs Hndr Hs) as [Hres Hsess];
    [repeat split | reflexivity |].
  unfold reconnect_on_result. cbn [success error]. rewrite Hinc.
  erewrite (bindN_ok (owner_log _)) by reflexivity. cbn [fst snd].
  erewrite (bindN_ok (owner_log _)) by reflexivity. cbn [fst snd].
  rewrite lift_run. cbn [fst snd base]. by split.
Qed.
End RetryVoid.

Lemma elsewhere_retry_is_void_witness :
  session
    (base (reconnect_on_result bob (mkLoginResult false (Some (js "LoggedInElsewhere")))
             (mkRuntime (world (login_on_error 0 bob 0 (js "LoggedInElsewhere") bob_world))
                false)).1.2)
  = session (world (login_on_error 0 bob 0 (js "LoggedInElsewhere") bob_world)).
Proof.
  apply (elsewhere_retry_is_void (L := TestLib.lib) 0 bob 0 (js "LoggedInElsewhere")
           bob_world false bob_world_not_directory).
  vm_compute. reflexivity.
Defined.
Section Disconnected.
Context {L : NodeLib}.

Lemma notified_app (xs ys : list Signal) :
  notified (xs ++ ys) = notified xs ++ notified ys.
Proof. induction xs as [|[e|l|i n|c g|c s] xs IH]; cbn; rewrite ?IH; reflexivity. Qed.

Lemma notified_map (evs : list Event) : notified (List.map Earlier evs) = [].
Proof. induction evs as [|e evs IH]; cbn; [reflexivity | exact IH]. Qed.

Lemma notify_run (a : Account) (n : Notice) (r : Runtime) :
  notify a n r
  = (Ok tt, r,
     if notifyCallback r && number_truthy (ownerId a)
     then [Notify (ownerId a) n] else []).
Proof. unfold notify. by destruct (notifyCallback r && number_truthy (ownerId a)). Qed.

(** X9. After a ['disconnected'] event the account is offline; the owner is
    told when a callback is set and the account has an owner; and a
    reconnect is pending exactly when one was pending already or the
    account can reconnect by itself. *)
Theorem disconnected_outcome (a : Account) (eresult : float) (msg : option jsstring)
    (r : Runtime) :
  token_not_directory (username a) (base r) ->
  (login_on_disconnected a eresult msg r).1.1 = Ok tt /\
  result (isOnline (username a) (base (login_on_disconnected a eresult msg r).1.2))
  = Ok false /\
  notified (login_on_disconnected a eresult msg r).2
  = (if notifyCallback r && number_truthy (ownerId a)
     then [(ownerId a,
            NoticeDisconnected (username a)
              match msg with
              | Some m => if string_truthy m then ReasonText m else ReasonCode eresult
              | None => ReasonCode eresult
              end)]
     else []) /\
  (result (isPendingReconnect (username a)
             (base (login_on_disconnected a eresult msg r).1.2)) = Ok true <->
   is_Some (reconnectTimers (base r) !! username a) \/ eligible a (base r) = true).
Proof.
  intros Hnd. destruct r as [w cb]. cbn [base notifyCallback] in *.
  set (wb := set_activeClients (delete (username a) (activeClients w)) w).
  assert (Hndb : token_not_directory (username a) wb) by (intros t; apply (Hnd t)).
  destruct (scheduleReconnect_summary a wb Hndb)
    as (w1 & evs & Hs & _ & _ & Hact & _ & _ & _ & _ & Hiff).
  assert (Hrun : login_on_disconnected a eresult msg (mkRuntime w cb)
    = (Ok tt, mkRuntime w1 cb,
       OwnerConsole (LogDisconnected (username a)
         match msg with
         | Some m => if string_truthy m then ReasonText m else ReasonCode eresult
         | None => ReasonCode eresult
         end)
       :: (if cb && number_truthy (ownerId a)
           then [Notify (ownerId a)
                   (NoticeDisconnected (username a)
                      match msg with
                      | Some m => if string_truthy m then ReasonText m
                                  else ReasonCode eresult
                      | None => ReasonCode eresult
                      end)]
           else []) ++ List.map Earlier evs)).
  { unfold login_on_disconnected.
    erewrite (bindN_ok (owner_log _)) by reflexivity. cbn [fst snd].
    erewrite (bindN_ok (lift (modify _))) by reflexivity. cbn [fst snd].
    erewrite (bindN_ok (notify a _)) by apply notify_run.
    cbn [fst snd base notifyCallback].
    rewrite lift_run. cbn [base]. fold wb. rewrite Hs. reflexivity. }
  rewrite Hrun. cbn [fst snd base].
  split; [reflexivity|].
  split.
  { unfold isOnline, gets, result. cbn [fst]. rewrite Hact.
    subst wb. cbn. by rewrite lookup_delete_eq. }
  split.
  { cbn [notified]. rewrite notified_app, notified_map, app_nil_r.
    by destruct (cb && number_truthy (ownerId a)). }
  unfold isPendingReconnect, gets, result. cbn [fst].
  change (eligible a w) with (eligible a wb).
  change (reconnectTimers w) with (reconnectTimers wb).
  destruct (reconnectTimers wb !! username a) as [h|] eqn:Hp.
  - rewrite (scheduleReconnect_pending a wb h Hp) in Hs. injection Hs as <- _.
    rewrite Hp. split; [eauto | reflexivity].
  - specialize (Hiff eq_refl).
    destruct (reconnectTimers w1 !! username a) as [h|] eqn:Hp1.
    + split; [intros _; right; apply Hiff; eauto | reflexivity].
    + split; [discriminate|]. intros [[x Hx] | He]; [discriminate|].
      apply Hiff in He. destruct He as [x Hx]. discriminate.
Qed.
End Disconnected.

Lemma disconnected_outcome_witness :
  notified (login_on_disconnected bob 6%float None (mkRuntime empty_world true)).2
  = [(2%float, NoticeDisconnected (js "bob") (ReasonCode 6%float))] /\
  result (isPendingReconnect (js "bob")
            (base (login_on_disconnected bob 6%float None
                     (mkRuntime empty_world true)).1.2)) = Ok true.
Proof.
  destruct (disconnected_outcome (L := TestLib.lib) bob 6%float None
              (mkRuntime empty_world true) (empty_world_not_directory _))
    as (_ & _ & Hn & Hp).
  split; [exact Hn|]. apply Hp. right. reflexivity.
Defined.
(* ================================================================== *)
(** * logout and logoutAll *)
(* ================================================================== *)

Section Logout.
Context {L : NodeLib}.

Lemma lookup_alter_mute (c c' : nat) (m : gmap nat Client) (cl : Client) :
  alter mute c m !! c' = Some cl -> c' = c -> cl_listening cl = false.
Proof.
  intros H ->. rewrite lookup_alter_eq in H.
  destruct (m !! c) as [cl0|]; [|discriminate]. by injection H as <-.
Qed.

(** The run of [logout]. *)
Lemma logout_run (u : jsstring) (w : World) :
  logout u w
  = (Ok (match activeClients w !! u with Some _ => true | None => false end),
     mkWorld (encryptionKey w) (tokensDir w) (dataFile w)
       (delete u (activeClients w)) (delete u (accountsToReconnect w))
       (delete u (reconnectTimers w)) (cancelled u w) (torn_down u w)
       (rng w) (clock w),
     match activeClients w !! u with Some c => [Call c LogOff] | None => [] end).
Proof.
  unfold logout, cancelReconnect, clearTimeout, removeAllListeners, cancelled, torn_down,
    disarm, mute.
  open_world w.
  destruct (rtimers !! u) as [h|] eqn:Hr;
  destruct (actives !! u) as [c|] eqn:Ha; run;
    rewrite ?(delete_id rtimers), ?(delete_id actives) by assumption; reflexivity.
Qed.

(** X10. [logout] answers whether the account was online.  Afterwards the
    account is offline with no reconnect pending and no timer armed to
    reconnect it; its client, if it had one, was told to log off once
    and no event it emits later reaches a listener; and a second
    [logout] answers [false] and changes nothing. *)
Theorem logout_outcome (u : jsstring) (r : Runtime) :
  consistent (base r) ->
  result (logout u (base r))
  = Ok (match activeClients (base r) !! u with Some _ => true | None => false end) /\
  logOff_calls (events (logout u (base r)))
  = match activeClients (base r) !! u with Some c => [c] | None => [] end /\
  result (isOnline u (world (logout u (base r)))) = Ok false /\
  result (isPendingReconnect u (world (logout u (base r)))) = Ok false /\
  armed_reconnects u (world (logout u (base r))) = ∅ /\
  (forall c store guardCallback ev,
     activeClients (base r) !! u = Some c ->
     deliver store guardCallback c ev
       (mkRuntime (world (logout u (base r))) (notifyCallback r))
     = (Ok tt, mkRuntime (world (logout u (base r))) (notifyCallback r), [])) /\
  logout u (world (logout u (base r))) = (Ok false, world (logout u (base r)), []).
Proof.
  intros Hw.
  pose proof (hoare_run consistent (logout u) (base r) (consistent_logout u) Hw) as Hw'.
  revert Hw'. rewrite (logout_run u (base r)). cbn [result world events fst snd].
  set (w' := mkWorld _ _ _ _ _ _ _ _ _ _). intros Hw'.
  split; [reflexivity|].
  split; [by destruct (activeClients (base r) !! u)|].
  split; [unfold isOnline, gets, result; cbn; by rewrite lookup_delete_eq|].
  split; [unfold isPendingReconnect, gets, result; cbn; by rewrite lookup_delete_eq|].
  split; [apply not_pending_none_armed; [exact Hw' | apply lookup_delete_eq]|].
  split.
  - intros c store guardCallback ev Hc. unfold deliver.
    erewrite (bindN_ok (lift (gets _))) by reflexivity. cbn [fst snd base].
    subst w'. cbn [clients]. unfold torn_down. rewrite Hc, lookup_alter_eq.
    destruct (clients (base r) !! c) as [[a l p t]|]; reflexivity.
  - rewrite (logout_run u w'). subst w'. cbn.
    unfold cancelled, torn_down. cbn. rewrite !lookup_delete_eq.
    rewrite !delete_delete_eq. reflexivity.
Qed.
End Logout.

Lemma bob_online_consistent :
  consistent (base (run_ops (take 2 bob_disconnected) loaded_runtime)).
Proof. apply run_ops_consistent, loaded_consistent, loaded_runtime_loaded. Qed.

Lemma logout_outcome_witness :
  result (logout (js "bob") (base (run_ops (take 2 bob_disconnected) loaded_runtime)))
  = Ok true /\
  logOff_calls
    (events (logout (js "bob") (base (run_ops (take 2 bob_disconnected) loaded_runtime))))
  = [0%nat].
Proof.
  destruct (logout_outcome (js "bob") (run_ops (take 2 bob_disconnected) loaded_runtime)
              bob_online_consistent) as (H1 & H2 & _).
  assert (Hon : activeClients (base (run_ops (take 2 bob_disconnected) loaded_runtime))
                  !! js "bob" = Some 0%nat) by (vm_compute; reflexivity).
  rewrite Hon in H1, H2. by split.
Defined.
Section LogoutAll.
Context {L : NodeLib}.

Lemma cancelReconnect_world (u : jsstring) (w : World) :
  cancelReconnect u w
  = (Ok tt,
     mkWorld (encryptionKey w) (tokensDir w) (dataFile w) (activeClients w)
       (delete u (accountsToReconnect w)) (delete u (reconnectTimers w))
       (cancelled u w) (clients w) (rng w) (clock w), []).
Proof.
  unfold cancelReconnect, clearTimeout, cancelled, disarm. open_world w.
  destruct (rtimers !! u) as [h|] eqn:Hr; run;
    rewrite ?(delete_id rtimers) by assumption; reflexivity.
Qed.

Lemma cancel_each_run (usernames : list jsstring) (w : World) (cb : bool) :
  consistent w ->
  exists w',
    cancel_each usernames (mkRuntime w cb) = (Ok tt, mkRuntime w' cb, []) /\
    consistent w' /\
    activeClients w' = activeClients w /\ clients w' = clients w /\
    forall u, reconnectTimers w' !! u
              = if bool_decide (u ∈ usernames) then None else reconnectTimers w !! u.
Proof.
  revert w. induction usernames as [|u rest IH]; intros w Hw.
  { exists w. split; [reflexivity|]. split; [exact Hw|].
    split; [reflexivity|]. split; [reflexivity|]. intros u.
    rewrite bool_decide_eq_false_2; [reflexivity | apply not_elem_of_nil]. }
  cbn [cancel_each].
  pose proof (consistent_cancelReconnect u w Hw) as [Hw1 _].
  rewrite (cancelReconnect_world u w) in Hw1. cbn [world fst snd] in Hw1.
  erewrite (bindN_ok (lift (cancelReconnect u)))
    by (rewrite lift_run; cbn [base]; rewrite cancelReconnect_world; reflexivity).
  unfold result, world, events. cbn [fst snd app List.map notifyCallback].
  set (w1 := mkWorld _ _ _ _ _ _ _ _ _ _) in *.
  destruct (IH w1 Hw1) as (w' & -> & Hw' & Ha & Hc & Hlook).
  exists w'. split; [reflexivity|]. split; [exact Hw'|].
  split; [exact Ha|]. split; [exact Hc|].
  intros u'. rewrite Hlook. subst w1. cbn [reconnectTimers].
  destruct (decide (u' = u)) as [->|Hne].
  - rewrite lookup_delete_eq. rewrite (bool_decide_eq_true_2 (u ∈ u :: rest)) by left.
    by destruct (bool_decide (u ∈ rest)).
  - rewrite lookup_delete_ne by congruence.
    destruct (bool_decide (u' ∈ rest)) eqn:E.
    + apply bool_decide_eq_true in E.
      by rewrite bool_decide_eq_true_2 by (by right).
    + apply bool_decide_eq_false in E.
      rewrite bool_decide_eq_false_2; [reflexivity|].
      intros [->|Hin]%elem_of_cons; [congruence | exact (E Hin)].
Qed.

Lemma muted_removeAllListeners (c c' : nat) (w : World) :
  (c' = c \/ muted c' w) -> muted c' (world (removeAllListeners c w)).
Proof.
  intros H cl. cbn. fold mute. destruct (decide (c' = c)) as [->|Hne].
  - rewrite lookup_alter_eq. destruct (clients w !! c); [|discriminate].
    by intros [= <-].
  - rewrite lookup_alter_ne by congruence. destruct H as [->|H]; [congruence | apply H].
Qed.

Lemma logOff_each_run (sessions : list (jsstring * nat)) (w : World) (cb : bool) :
  consistent w ->
  exists w' signals,
    logOff_each sessions (mkRuntime w cb) = (Ok tt, mkRuntime w' cb, signals) /\
    consistent w' /\
    logOff_calls (earlier signals) = sessions.*2 /\
    reconnectTimers w' = reconnectTimers w /\
    (forall c, c ∈ sessions.*2 \/ muted c w -> muted c w').
Proof.
  revert w. induction sessions as [|[u c] rest IH]; intros w Hw.
  { exists w, []. split; [reflexivity|]. split; [exact Hw|].
    split; [reflexivity|]. split; [reflexivity|].
    intros c [Hc|Hc]; [by apply elem_of_nil in Hc | exact Hc]. }
  cbn [logOff_each].
  pose proof (consistent_removeAllListeners c w Hw) as Hw1.
  erewrite (bindN_ok (lift (removeAllListeners c))) by reflexivity.
  cbn [fst snd app notifyCallback base].
  erewrite (bindN_ok (lift (emit _))) by reflexivity. cbn [fst snd app notifyCallback base].
  erewrite (bindN_ok (owner_log _)) by reflexivity. cbn [fst snd app].
  set (w1 := set_clients _ w) in *.
  destruct (IH w1 Hw1) as (w' & signals & -> & Hw' & Hcalls & Hrt & Hmuted).
  eexists _, _. split; [reflexivity|]. split; [exact Hw'|].
  split; [cbn; by rewrite Hcalls|]. split; [exact Hrt|].
  intros c' Hc'. apply Hmuted.
  destruct (decide (c' = c)) as [->|Hne].
  - right. apply (muted_removeAllListeners c c w). by left.
  - destruct Hc' as [Hin|Hm].
    + left. cbn in Hin. apply elem_of_cons in Hin as [->|Hin]; [congruence | exact Hin].
    + right. apply (muted_removeAllListeners c c' w). by right.
Qed.

(** X11. [logoutAll], whatever the order in which the two maps list their
    entries: afterwards no account is online, no reconnect is pending and
    no timer is armed to reconnect any account; every client that was
    registered has been told to log off, once, and has no listener
    left. *)
Theorem logoutAll_outcome (pending : list jsstring) (sessions : list (jsstring * nat))
    (r : Runtime) :
  consistent (base r) ->
  pending ≡ₚ (map_to_list (reconnectTimers (base r))).*1 ->
  sessions ≡ₚ map_to_list (activeClients (base r)) ->
  (logoutAll pending sessions r).1.1 = Ok tt /\
  activeClients (base (logoutAll pending sessions r).1.2) = ∅ /\
  reconnectTimers (base (logoutAll pending sessions r).1.2) = ∅ /\
  (forall u, armed_reconnects u (base (logoutAll pending sessions r).1.2) = ∅) /\
  logOff_calls (earlier (logoutAll pending sessions r).2) = sessions.*2 /\
  (forall u c, activeClients (base r) !! u = Some c ->
     muted c (base (logoutAll pending sessions r).1.2)).
Proof.
  intros Hw Hp Hs. destruct r as [w cb]. cbn [base] in *.
  destruct (cancel_each_run pending w cb Hw) as (w1 & H1 & Hw1 & Ha1 & Hc1 & Hl1).
  destruct (logOff_each_run sessions w1 cb Hw1) as (w2 & sigs & H2 & Hw2 & Hcalls & Hrt2 & Hm2).
  unfold logoutAll.
  erewrite (bindN_ok (cancel_each pending)) by exact H1. cbn [fst snd app].
  erewrite (bindN_ok (logOff_each sessions)) by exact H2. cbn [fst snd app].
  rewrite lift_run. unfold result, world, events. cbn [modify fst snd base List.map].
  rewrite app_nil_r.
  assert (Hrt : reconnectTimers w2 = ∅).
  { apply map_eq. intros u. rewrite lookup_empty, Hrt2, Hl1.
    destruct (bool_decide (u ∈ pending)) eqn:E; [reflexivity|].
    apply bool_decide_eq_false in E.
    destruct (reconnectTimers w !! u) as [h|] eqn:Hu; [|reflexivity].
    exfalso. apply E. rewrite Hp.
    apply list_elem_of_fmap. exists (u, h). split; [reflexivity|].
    by apply elem_of_map_to_list. }
  split; [reflexivity|]. split; [reflexivity|]. split; [exact Hrt|].
  split.
  { intros u. apply not_pending_none_armed.
    - by apply consistent_set_activeClients.
    - cbn. by rewrite Hrt. }
  split; [exact Hcalls|].
  intros u c Hc. apply Hm2. left. rewrite Hs.
  apply list_elem_of_fmap. exists (u, c). split; [reflexivity|].
  by apply elem_of_map_to_list.
Qed.
End LogoutAll.

Lemma alice_online_consistent :
  consistent (base (run_ops alice_online loaded_runtime)).
Proof. apply run_ops_consistent, loaded_consistent, loaded_runtime_loaded. Qed.

Lemma logoutAll_outcome_witness :
  activeClients (base (run_ops alice_online loaded_runtime)) !! js "alice" = Some 1%nat /\
  is_Some (reconnectTimers (base (run_ops alice_online loaded_runtime)) !! js "bob") /\
  activeClients
    (base (logoutAll [js "bob"] [(js "alice", 1%nat)]
             (run_ops alice_online loaded_runtime)).1.2) = ∅ /\
  reconnectTimers
    (base (logoutAll [js "bob"] [(js "alice", 1%nat)]
             (run_ops alice_online loaded_runtime)).1.2) = ∅.
Proof.
  split; [vm_compute; reflexivity|].
  split; [vm_compute; eauto|].
  destruct (logoutAll_outcome [js "bob"] [(js "alice", 1%nat)]
              (run_ops alice_online loaded_runtime) alice_online_consistent)
    as (_ & H1 & H2 & _).
  - vm_compute. reflexivity.
  - vm_compute. reflexivity.
  - by split.
Defined.
(* ================================================================== *)
(** * The attempts of login and their listeners *)
(* ================================================================== *)

Section Attempts.
Context {L : NodeLib}.

Lemma deliver_listening store (guardCallback : bool) (c : nat) (ev : ClientEvent)
    (a : Account) (p : option LoginResult) (timeout : nat) (r : Runtime) :
  clients (base r) !! c = Some (mkClient a true p (Some timeout)) ->
  deliver store guardCallback c ev r
  = match ev with
    | EvError message => lift (login_on_error c a timeout message)
    | EvRefreshToken token => lift (login_on_refreshToken a token)
    | EvSteamGuard domain => login_on_steamGuard c a timeout guardCallback domain
    | EvLoggedOn => lift (login_on_loggedOn store c a timeout)
    | EvDisconnected eresult msg => login_on_disconnected a eresult msg
    | EvPlayingState blocked playingApp =>
        login_on_playingState store c a blocked playingApp
    end r.
Proof.
  intros Hc. destruct r as [w cb]. cbn [base] in Hc. unfold deliver.
  erewrite (bindN_ok (lift (gets _))) by reflexivity.
  cbn [fst snd base app notifyCallback List.map].
  rewrite Hc.
  match goal with |- context [?k (mkRuntime w cb)] =>
    destruct (k (mkRuntime w cb)) as [[x r2] t2] end.
  reflexivity.
Qed.

(** X12. ['steamGuard'] with a [guardCallback]: the owner is asked for the
    code of the mail or of the app, and the timeout of the attempt stays
    armed.  When it fires before the code comes, the attempt has failed
    with ['Login timeout (30s)'] and lost its listeners; a code that comes
    after that is handed to the client all the same, and the result of
    the attempt stays what it is. *)
Theorem guard_code_after_timeout store (c timeout : nat) (a : Account) (d : Z)
    (domain : option jsstring) (code : jsstring) (r : Runtime) :
  clients (base r) !! c = Some (mkClient a true None (Some timeout)) ->
  timers (base r) !! timeout = Some (mkTimer (LoginTimeoutTask c) d Armed) ->
  string_truthy code = true ->
  deliver store true c (EvSteamGuard domain) r
  = (Ok tt, r,
     [OwnerConsole (LogGuardRequired (username a) domain);
      GuardRequest c (if option_truthy domain then guard_email else guard_mobile)]) /\
  clients (base (run_timer timeout r).1.2) !! c
  = Some (mkClient a false
            (Some (mkLoginResult false (Some (js "Login timeout (30s)"))))
            (Some timeout)) /\
  answer_guard c code (run_timer timeout r).1.2
  = (Ok tt, (run_timer timeout r).1.2, [GuardCode c code]).
Proof.
  intros Hc Ht Hcode.
  split.
  { rewrite (deliver_listening _ _ _ _ a None timeout r Hc).
    unfold login_on_steamGuard.
    erewrite (bindN_ok (owner_log _)) by reflexivity. reflexivity. }
  rewrite (run_timer_timeout timeout c d r Ht). cbn [fst snd base].
  assert (Hc2 : clients (world (login_on_timeout c (world (clearTimeout timeout (base r)))))
                  !! c
                = Some (mkClient a false
                          (Some (mkLoginResult false (Some (js "Login timeout (30s)"))))
                          (Some timeout))).
  { unfold login_on_timeout, removeAllListeners, resolve, clearTimeout.
    unfold_M. cbn. rewrite !lookup_alter_eq, Hc. reflexivity. }
  split; [exact Hc2|].
  unfold answer_guard.
  erewrite (bindN_ok (lift (gets _))) by reflexivity. cbn [fst snd base app].
  rewrite Hc2. unfold login_on_guardCode. rewrite Hcode. reflexivity.
Qed.

(** X13. ['steamGuard'] with no [guardCallback], or a [guardCallback] that
    resolves with the empty string: the attempt fails with the message of
    that case, its timeout is cleared and its listeners are removed. *)
Theorem guard_refused store (c timeout : nat) (a : Account) (t : Timer)
    (domain : option jsstring) (r : Runtime) :
  clients (base r) !! c = Some (mkClient a true None (Some timeout)) ->
  timers (base r) !! timeout = Some t ->
  (clients (base (deliver store false c (EvSteamGuard domain) r).1.2) !! c
   = Some (mkClient a false
             (Some (mkLoginResult false
                      (Some (js "Steam Guard required but no callback"))))
             (Some timeout)) /\
   timers (base (deliver store false c (EvSteamGuard domain) r).1.2) !! timeout
   = Some (mkTimer (task t) (delay t) Cleared)) /\
  (clients (base (answer_guard c [] r).1.2) !! c
   = Some (mkClient a false
             (Some (mkLoginResult false (Some (js "Steam Guard code not provided"))))
             (Some timeout)) /\
   timers (base (answer_guard c [] r).1.2) !! timeout
   = Some (mkTimer (task t) (delay t) Cleared)).
Proof.
  intros Hc Ht.
  assert (Hrun : forall message,
    clients (base (lift (clearTimeout timeout ;; removeAllListeners c ;;
                         resolve c (mkLoginResult false (Some message))) r).1.2) !! c
    = Some (mkClient a false (Some (mkLoginResult false (Some message))) (Some timeout)) /\
    timers (base (lift (clearTimeout timeout ;; removeAllListeners c ;;
                        resolve c (mkLoginResult false (Some message))) r).1.2) !! timeout
    = Some (mkTimer (task t) (delay t) Cleared)).
  { intros message. rewrite lift_run.
    unfold clearTimeout, removeAllListeners, resolve. unfold_M. cbn.
    by rewrite !lookup_alter_eq, Hc, Ht. }
  split.
  - rewrite (deliver_listening _ _ _ _ a None timeout r Hc).
    unfold login_on_steamGuard.
    erewrite (bindN_ok (owner_log _)) by reflexivity. cbn [fst snd]. apply Hrun.
  - unfold answer_guard.
    erewrite (bindN_ok (lift (gets _))) by reflexivity.
    cbn [fst snd base app notifyCallback List.map].
    rewrite Hc. unfold login_on_guardCode. cbn [string_truthy].
    destruct r as [w cb]. apply Hrun.
Qed.
End Attempts.

Section LoggedOn.
Context {L : NodeLib}.


End LoggedOn.

Section Supersede.
Context {L : NodeLib}.

(** X15. [login] starts from a clean slate for the account: whatever
    reconnect was pending is cancelled and no timer stays armed to
    reconnect it; the client registered for the account, if there is
    one, is told to log off and loses its listeners, and the account is
    offline until the new client is logged on; the new client holds an
    armed timeout of its own. *)
Theorem login_supersedes (a : Account) (r : Runtime) :
  consistent (base r) ->
  token_not_directory (username a) (base r) ->
  result (login a (base r)) = Ok (fresh (dom (clients (base r)))) /\
  logOff_calls (events (login a (base r)))
  = match activeClients (base r) !! username a with Some c => [c] | None => [] end /\
  (forall c cl, activeClients (base r) !! username a = Some c ->
     clients (base r) !! c = Some cl ->
     clients (world (login a (base r))) !! c = Some (mute cl)) /\
  result (isOnline (username a) (world (login a (base r)))) = Ok false /\
  result (isPendingReconnect (username a) (world (login a (base r)))) = Ok false /\
  armed_reconnects (username a) (world (login a (base r))) = ∅ /\
  clients (world (login a (base r))) !! fresh (dom (clients (base r)))
  = Some (mkClient a true None (Some (fresh (dom (timers (base r)))))) /\
  timers (world (login a (base r))) !! fresh (dom (timers (base r)))
  = Some (mkTimer (LoginTimeoutTask (fresh (dom (clients (base r)))))
            LOGIN_TIMEOUT Armed).
Proof.
  intros Hw Hnd.
  pose proof (hoare_run consistent (login a) (base r) (consistent_login a) Hw) as Hw'.
  destruct (login_summary a (base r) Hnd)
    as (w' & evs & Hl & _ & Hoff & Hact & _ & Hrt & Htm & Hcl & _).
  rewrite Hl in *. cbn [result world events fst snd] in *.
  split; [reflexivity|]. split; [exact Hoff|].
  split.
  { intros c cl Hc Hcl0. rewrite Hcl. unfold torn_down. rewrite Hc.
    rewrite lookup_insert_ne, lookup_alter_eq, Hcl0; [reflexivity|].
    intros <-. rewrite fresh_client_absent in Hcl0. discriminate. }
  split; [unfold isOnline, gets, result; cbn; by rewrite Hact, lookup_delete_eq|].
  split; [unfold isPendingReconnect, gets, result; cbn; by rewrite Hrt, lookup_delete_eq|].
  split; [apply not_pending_none_armed; [exact Hw' | by rewrite Hrt, lookup_delete_eq]|].
  split; [rewrite Hcl; apply lookup_insert_eq | rewrite Htm; apply lookup_insert_eq].
Qed.
End Supersede.

Lemma bob_world_client :
  clients bob_world !! 0%nat = Some (mkClient bob true None (Some 0%nat)).
Proof. vm_compute. reflexivity. Qed.

Lemma bob_world_timeout :
  timers bob_world !! 0%nat = Some (mkTimer (LoginTimeoutTask 0) LOGIN_TIMEOUT Armed).
Proof. vm_compute. reflexivity. Qed.

Lemma guard_code_after_timeout_witness :
  answer_guard 0 (js "ABC12") (run_timer 0 (mkRuntime bob_world false)).1.2
  = (Ok tt, (run_timer 0 (mkRuntime bob_world false)).1.2, [GuardCode 0 (js "ABC12")]).
Proof.
  apply (guard_code_after_timeout (L := TestLib.lib) (fun _ => None) 0 0 bob
           LOGIN_TIMEOUT None (js "ABC12") (mkRuntime bob_world false)
           bob_world_client bob_world_timeout).
  reflexivity.
Defined.

Lemma guard_refused_witness :
  clients (base (deliver (fun _ => None) false 0 (EvSteamGuard None)
                   (mkRuntime bob_world false)).1.2) !! 0%nat
  = Some (mkClient bob false
            (Some (mkLoginResult false (Some (js "Steam Guard required but no callback"))))
            (Some 0%nat)).
Proof.
  apply (guard_refused (L := TestLib.lib) (fun _ => None) 0 0 bob _ None
           (mkRuntime bob_world false) bob_world_client bob_world_timeout).
Defined.


Lemma login_supersedes_witness :
  logOff_calls
    (events (login bob (base (run_ops (take 2 bob_disconnected) loaded_runtime))))
  = [0%nat] /\
  result (isOnline (js "bob")
            (world (login bob (base (run_ops (take 2 bob_disconnected) loaded_runtime)))))
  = Ok false.
Proof.
  destruct (login_supersedes bob (run_ops (take 2 bob_disconnected) loaded_runtime)
              bob_online_consistent) as (_ & H1 & _ & H2 & _).
  - intros t. vm_compute. discriminate.
  - split; [|exact H2]. rewrite H1.
    assert (Hon : activeClients (base (run_ops (take 2 bob_disconnected) loaded_runtime))
                    !! username bob = Some 0%nat) by (vm_compute; reflexivity).
    by rewrite Hon.
Defined.
(* ================================================================== *)
(** * cleanCache, entry by entry *)
(* ================================================================== *)

Section Sweep.
Context {L : NodeLib}.



End Sweep.
(* ================================================================== *)
(** * storage.ts: the collection of accounts *)
(* ================================================================== *)

Section StorageRoundTrip.
Context {L : NodeLib} {Laws : NodeLaws L} {Text : Base64Text L}.

Lemma saveAccounts_run (this : SecureStorage) (v : json) (w : World) :
  data_not_directory w ->
  well_formed (JSON_stringify v) = true ->
  exists c g,
    saveAccounts this v w
    = (Ok tt, set_dataFile (Some (File (utf8_encode c) (clock w))) (set_rng g w), []) /\
    well_formed c = true /\
    decrypt c (storage_encryptionKey this) = Some (JSON_stringify v).
Proof.
  intros Hnd Hwf.
  destruct (call_encrypt_run _ (storage_encryptionKey this) w Hwf)
    as (c & g & He & Hc & Hdec).
  exists c, g. split; [|by split].
  unfold saveAccounts. rewrite (bind_ok _ _ _ _ _ _ He). cbn.
  unfold writeFileSync_data. run.
  destruct (dataFile w) as [[? ?|t]|] eqn:E; try reflexivity.
  exfalso. exact (Hnd t E).
Qed.

(** The collection after [saveAccounts]. *)
Lemma saveAccounts_stored (this : SecureStorage) (v : json) (w : World) :
  data_not_directory w ->
  json_roundtrips v ->
  exists w1,
    saveAccounts this v w = (Ok tt, w1, []) /\
    loadAccounts this w1 = (Ok v, w1, []) /\
    data_not_directory w1 /\
    session w1 = session w /\ tokensDir w1 = tokensDir w.
Proof.
  intros Hnd [Hwf Hparse].
  destruct (saveAccounts_run this v w Hnd Hwf) as (c & g & Hrun & Hc & Hdec).
  eexists. split; [exact Hrun|].
  split; [|split; [intros t; discriminate | split; reflexivity]].
  rewrite loadAccounts_run. cbn [dataFile set_dataFile read_accounts].
  by rewrite (utf8_roundtrip c Hc), Hdec, Hparse.
Qed.

(** X17. What [saveAccounts] writes is what [loadAccounts] reads back, for
    every collection that survives [JSON.stringify] and [JSON.parse]. *)
Theorem saveAccounts_loadAccounts (this : SecureStorage) (v : json) (w : World) :
  data_not_directory w ->
  json_roundtrips v ->
  result (saveAccounts this v w) = Ok tt /\
  loadAccounts this (world (saveAccounts this v w))
  = (Ok v, world (saveAccounts this v w), []).
Proof.
  intros Hnd Hrt.
  destruct (saveAccounts_stored this v w Hnd Hrt) as (w1 & -> & Hload & _).
  split; [reflexivity | exact Hload].
Qed.
End StorageRoundTrip.

Section Collections.
Lemma strict_equal_string (x : option json) (u : jsstring) :
  strict_equal x (Some (JString u)) = true <-> x = Some (JString u).
Proof.
  destruct x as [[| b | n | s | l | l]|]; cbn; try (split; [discriminate | intros [=]]).
  rewrite bool_decide_eq_true. split; [by intros -> | by intros [= ->]].
Qed.

Lemma strict_equal_other (u v : jsstring) :
  v <> u -> strict_equal (Some (JString u)) (Some (JString v)) = false.
Proof. intros Hne. cbn. apply bool_decide_eq_false. congruence. Qed.

(** [findIndex] found the account at [j]: replacing that element makes
    the account the one [find] returns for its name, and changes no
    answer for another name. *)
Lemma findIndex_found (account : json) (u : jsstring) (accounts : list json) :
  get_property account (js "username") = inr (Some (JString u)) ->
  forall i j,
    findIndex_username accounts account i = inr (Some j) ->
    exists k, j = (i + k)%nat /\ (k < length accounts)%nat /\
      (exists a0, find_username accounts u = inr (Some a0)) /\
      find_username (<[k := account]> accounts) u = inr (Some account) /\
      forall v, v <> u ->
        find_username (<[k := account]> accounts) v = find_username accounts v.
Proof.
  intros Hu. induction accounts as [|a rest IH]; intros i j Hf; [discriminate|].
  cbn [findIndex_username] in Hf. rewrite Hu in Hf.
  destruct (get_property a (js "username")) as [e|x] eqn:Hx; [discriminate|].
  destruct (strict_equal x (Some (JString u))) eqn:Heq.
  - injection Hf as <-. exists 0%nat. split; [lia|]. split; [cbn; lia|].
    split; [exists a; cbn [find_username]; by rewrite Hx, Heq|].
    apply strict_equal_string in Heq. subst x. cbn [list_insert insert find_username].
    rewrite Hu. split.
    + by rewrite (proj2 (strict_equal_string _ u) eq_refl).
    + intros v Hne. by rewrite Hx, (strict_equal_other u v Hne).
  - destruct (IH (S i) j Hf) as (k & -> & Hk & [a0 Ha0] & Hfind & Hframe).
    exists (S k). split; [lia|]. split; [cbn; lia|].
    split; [exists a0; cbn [find_username]; by rewrite Hx, Heq|].
    cbn [list_insert insert find_username]. rewrite Hx, Heq.
    split; [exact Hfind|]. intros v Hne.
    destruct (strict_equal x (Some (JString v))); [reflexivity | by apply Hframe].
Qed.

(** [findIndex] found nothing: the account pushed at the end is the one
    [find] returns for its name. *)
Lemma findIndex_absent (account : json) (u : jsstring) (accounts : list json) :
  get_property account (js "username") = inr (Some (JString u)) ->
  forall i,
    findIndex_username accounts account i = inr None ->
    find_username accounts u = inr None /\
    find_username (accounts ++ [account]) u = inr (Some account) /\
    forall v, v <> u ->
      find_username (accounts ++ [account]) v = find_username accounts v.
Proof.
  intros Hu. induction accounts as [|a rest IH]; intros i Hf.
  - cbn. rewrite Hu. split; [reflexivity|].
    split; [by rewrite (proj2 (strict_equal_string _ u) eq_refl)|].
    intros v Hne. by rewrite (strict_equal_other u v Hne).
  - cbn [findIndex_username] in Hf. rewrite Hu in Hf.
    destruct (get_property a (js "username")) as [e|x] eqn:Hx; [discriminate|].
    destruct (strict_equal x (Some (JString u))) eqn:Heq; [discriminate|].
    destruct (IH (S i) Hf) as (Hnone & Hfind & Hframe).
    cbn [app find_username]. rewrite Hx, Heq.
    split; [exact Hnone|]. split; [exact Hfind|]. intros v Hne.
    destruct (strict_equal x (Some (JString v))); [reflexivity | by apply Hframe].
Qed.

Lemma filter_username_spec (u : jsstring) (accounts kept : list json) :
  filter_username accounts u = inr kept ->
  (length kept <= length accounts)%nat /\
  find_username kept u = inr None /\
  (forall v, v <> u -> find_username kept v = find_username accounts v) /\
  (length kept = length accounts <-> find_username accounts u = inr None).
Proof.
  revert kept. induction accounts as [|a rest IH]; intros kept Hf.
  - injection Hf as <-. repeat split; auto.
  - cbn [filter_username] in Hf.
    destruct (get_property a (js "username")) as [e|x] eqn:Hx; [discriminate|].
    destruct (filter_username rest u) as [e|kept'] eqn:Hrest; [discriminate|].
    destruct (IH kept' eq_refl) as (Hlen & Hnone & Hframe & Hiff).
    destruct (strict_equal x (Some (JString u))) eqn:Heq.
    + injection Hf as <-. cbn [find_username length]. rewrite Hx, Heq.
      split; [lia|]. split; [exact Hnone|]. split.
      * intros v Hne. apply strict_equal_string in Heq. subst x.
        rewrite (strict_equal_other u v Hne). by apply Hframe.
      * split; [lia | discriminate].
    + injection Hf as <-. cbn [find_username length]. rewrite Hx, Heq.
      split; [lia|]. split; [exact Hnone|]. split.
      * intros v Hne. destruct (strict_equal x (Some (JString v)));
          [reflexivity | by apply Hframe].
      * rewrite <- Hiff. lia.
Qed.
End Collections.

Section StorageUpdates.
Context {L : NodeLib} {Laws : NodeLaws L} {Text : Base64Text L}.

Lemma loadAccounts_result (this : SecureStorage) (w : World) (v : json) :
  result (loadAccounts this w) = Ok v ->
  exists evs, loadAccounts this w = (Ok v, w, evs).
Proof.
  rewrite loadAccounts_run.
  destruct (dataFile w) as [e|]; [destruct (read_accounts _ e)|];
    cbn; intros [= <-]; eauto.
Qed.

Lemma getAccount_run (this : SecureStorage) (u : jsstring) (accounts : list json)
    (w : World) :
  result (loadAccounts this w) = Ok (JArray accounts) ->
  result (getAccount this u w)
  = match find_username accounts u with inr x => Ok x | inl e => Throw e end.
Proof.
  intros Hl. destruct (loadAccounts_result this w _ Hl) as [evs Hrun].
  unfold getAccount. rewrite (bind_ok _ _ _ _ _ _ Hrun). cbn [result fst].
  unfold as_array. erewrite (bind_ok (ret _)) by reflexivity. cbn [result fst].
  unfold lift_sum. by destruct (find_username accounts u).
Qed.

(** X18. [addAccount] is an insertion or an update by user name: afterwards
    [getAccount] returns the account given for its name, and what it
    returned before for every other name; the collection grows by one
    exactly when the name was not in it. *)
Theorem addAccount_upserts (this : SecureStorage) (account : json) (u : jsstring)
    (accounts : list json) (w : World) :
  data_not_directory w ->
  result (loadAccounts this w) = Ok (JArray accounts) ->
  get_property account (js "username") = inr (Some (JString u)) ->
  (exists idx, findIndex_username accounts account 0 = inr idx) ->
  json_roundtrips (JArray (upserted accounts account)) ->
  result (addAccount this account w) = Ok tt /\
  result (loadAccounts this (world (addAccount this account w)))
  = Ok (JArray (upserted accounts account)) /\
  result (getAccount this u (world (addAccount this account w))) = Ok (Some account) /\
  (forall v, v <> u ->
     result (getAccount this v (world (addAccount this account w)))
     = result (getAccount this v w)) /\
  length (upserted accounts account)
  = match find_username accounts u with
    | inr None => S (length accounts)
    | _ => length accounts
    end.
Proof.
  intros Hnd Hl Hu [idx Hidx] Hrt.
  destruct (loadAccounts_result this w _ Hl) as [evs Hrun].
  destruct (saveAccounts_stored this (JArray (upserted accounts account)) w Hnd Hrt)
    as (w1 & Hsave & Hload & _).
  assert (Hadd : addAccount this account w = (Ok tt, w1, evs)).
  { unfold addAccount. rewrite (bind_ok _ _ _ _ _ _ Hrun). cbn [result world events fst snd].
    unfold as_array. erewrite (bind_ok (ret _)) by reflexivity.
    cbn [result world events fst snd].
    unfold lift_sum. rewrite Hidx. erewrite (bind_ok (ret _)) by reflexivity.
    cbn [result world events fst snd].
    replace (match idx with
             | Some i => <[i:=account]> accounts
             | None => accounts ++ [account]
             end) with (upserted accounts account)
      by (unfold upserted; rewrite Hidx; by destruct idx).
    rewrite Hsave. cbn. by rewrite app_nil_r. }
  rewrite Hadd. cbn [result world fst snd].
  assert (Hl1 : result (loadAccounts this w1) = Ok (JArray (upserted accounts account)))
    by (by rewrite Hload).
  split; [reflexivity|]. split; [exact Hl1|].
  rewrite (getAccount_run this u _ w1 Hl1).
  assert (Hspec : find_username (upserted accounts account) u = inr (Some account) /\
                  (forall v, v <> u ->
                     find_username (upserted accounts account) v
                     = find_username accounts v) /\
                  length (upserted accounts account)
                  = match find_username accounts u with
                    | inr None => S (length accounts)
                    | _ => length accounts
                    end).
  { unfold upserted. rewrite Hidx. destruct idx as [j|].
    - destruct (findIndex_found account u accounts Hu 0%nat j Hidx)
        as (k & -> & Hk & [a0 Ha0] & Hfind & Hframe).
      cbn [Nat.add]. split; [exact Hfind|]. split; [exact Hframe|].
      by rewrite length_insert, Ha0.
    - destruct (findIndex_absent account u accounts Hu 0%nat Hidx)
        as (Hnone & Hfind & Hframe).
      split; [exact Hfind|]. split; [exact Hframe|].
      rewrite Hnone, length_app. cbn. lia. }
  destruct Hspec as (Hfind & Hframe & Hlen).
  rewrite Hfind. split; [reflexivity|]. split; [|exact Hlen].
  intros v Hne. rewrite (getAccount_run this v _ w1 Hl1), (getAccount_run this v _ w Hl).
  by rewrite (Hframe v Hne).
Qed.

(** X19. [removeAccount] answers [false] and writes nothing when no account
    has the name; otherwise it answers [true], and afterwards
    [getAccount] finds no account under the name and returns what it
    returned before for every other name. *)
Theorem removeAccount_outcome (this : SecureStorage) (u : jsstring)
    (accounts kept : list json) (w : World) :
  data_not_directory w ->
  result (loadAccounts this w) = Ok (JArray accounts) ->
  filter_username accounts u = inr kept ->
  (find_username accounts u = inr None ->
   result (removeAccount this u w) = Ok false /\
   world (removeAccount this u w) = w) /\
  (find_username accounts u <> inr None ->
   json_roundtrips (JArray kept) ->
   result (removeAccount this u w) = Ok true /\
   result (loadAccounts this (world (removeAccount this u w))) = Ok (JArray kept) /\
   result (getAccount this u (world (removeAccount this u w))) = Ok None /\
   forall v, v <> u ->
     result (getAccount this v (world (removeAccount this u w)))
     = result (getAccount this v w)).
Proof.
  intros Hnd Hl Hf.
  destruct (loadAccounts_result this w _ Hl) as [evs Hrun].
  destruct (filter_username_spec u accounts kept Hf) as (Hlen & Hnone & Hframe & Hiff).
  unfold removeAccount. rewrite (bind_ok _ _ _ _ _ _ Hrun).
  cbn [result world events fst snd].
  unfold as_array. erewrite (bind_ok (ret _)) by reflexivity.
  cbn [result world events fst snd].
  unfold lift_sum. rewrite Hf. erewrite (bind_ok (ret _)) by reflexivity.
  cbn [result world events fst snd].
  split.
  - intros Hn. apply Hiff in Hn. rewrite Hn, Nat.eqb_refl. by split.
  - intros Hn Hrt.
    assert (Hneq : (length kept =? length accounts)%nat = false).
    { apply Nat.eqb_neq. intros Heq. apply Hn, Hiff, Heq. }
    rewrite Hneq.
    destruct (saveAccounts_stored this (JArray kept) w Hnd Hrt)
      as (w1 & Hsave & Hload & _).
    rewrite (bind_ok _ _ _ _ _ _ Hsave). cbn [result world fst snd ret].
    assert (Hl1 : result (loadAccounts this w1) = Ok (JArray kept)) by (by rewrite Hload).
    split; [reflexivity|]. split; [exact Hl1|].
    rewrite (getAccount_run this u _ w1 Hl1), Hnone. split; [reflexivity|].
    intros v Hne.
    rewrite (getAccount_run this v _ w1 Hl1), (getAccount_run this v _ w Hl).
    by rewrite (Hframe v Hne).
Qed.

(** X20. When the accounts file cannot be read with the key of the storage
    (another key, a damaged file), [loadAccounts] answers the empty
    array, and [addAccount] then overwrites the file: afterwards the
    collection is the one account given. *)
Theorem addAccount_unreadable (this : SecureStorage) (account : json)
    (content : buffer) (t : float) (w : World) :
  dataFile w = Some (File content t) ->
  read_accounts (storage_encryptionKey this) (File content t) = None ->
  json_roundtrips (JArray [account]) ->
  result (addAccount this account w) = Ok tt /\
  events (addAccount this account w) = [Console LogDecryptAccountsFailed] /\
  loadAccounts this (world (addAccount this account w))
  = (Ok (JArray [account]), world (addAccount this account w), []).
Proof.
  intros Hd Hr Hrt.
  assert (Hnd : data_not_directory w) by (intros t'; rewrite Hd; discriminate).
  assert (Hrun : loadAccounts this w = (Ok (JArray []), w, [Console LogDecryptAccountsFailed])).
  { by rewrite loadAccounts_run, Hd, Hr. }
  destruct (saveAccounts_stored this (JArray [account]) w Hnd Hrt)
    as (w1 & Hsave & Hload & _).
  assert (Hadd : addAccount this account w
                 = (Ok tt, w1, [Console LogDecryptAccountsFailed])).
  { unfold addAccount. rewrite (bind_ok _ _ _ _ _ _ Hrun). cbn [result world events fst snd].
    unfold as_array. erewrite (bind_ok (ret _)) by reflexivity.
    cbn [result world events fst snd].
    unfold lift_sum. cbn [findIndex_username]. erewrite (bind_ok (ret _)) by reflexivity.
    cbn [result world events fst snd app]. by rewrite Hsave. }
  rewrite Hadd. cbn [result world events fst snd]. by repeat split.
Qed.
End StorageUpdates.

Module TestJsonFacts.
Import TestJson.

Lemma json_laws : NodeLaws json_lib.
Proof.
  constructor.
  - exact (@randomBytes_length _ TestLibFacts.laws).
  - exact (@randomBytes_bytes _ TestLibFacts.laws).
  - exact (@pbkdf2Sync_length _ TestLibFacts.laws).
  - exact (@pbkdf2Sync_bytes _ TestLibFacts.laws).
  - exact (@seal_open _ TestLibFacts.laws).
  - exact (@base64_roundtrip _ TestLibFacts.laws).
Qed.

Lemma json_text : Base64Text json_lib.
Proof. constructor. exact TestLibText.hex_encode_text. Qed.

(** The world after the accounts of dave and erin were saved. *)
Lemma two_accounts_roundtrip : json_roundtrips (L := json_lib) (JArray [dave; erin]).
Proof. split; vm_compute; reflexivity. Qed.

Lemma fresh_world_data : data_not_directory fresh_world.
Proof. intros t. discriminate. Qed.

Lemma two_accounts_data : data_not_directory two_accounts_world.
Proof. intros t. vm_compute. discriminate. Qed.

Lemma two_accounts_loaded :
  result (loadAccounts store16 two_accounts_world) = Ok (JArray [dave; erin]).
Proof. vm_compute. reflexivity. Qed.
End TestJsonFacts.

Lemma saveAccounts_loadAccounts_witness :
  result (loadAccounts TestJson.store16
            (world (saveAccounts TestJson.store16 (JArray [TestJson.dave; TestJson.erin])
                      TestJson.fresh_world)))
  = Ok (JArray [TestJson.dave; TestJson.erin]).
Proof.
  destruct (saveAccounts_loadAccounts (Laws := TestJsonFacts.json_laws)
              (Text := TestJsonFacts.json_text) TestJson.store16
              (JArray [TestJson.dave; TestJson.erin]) TestJson.fresh_world
              TestJsonFacts.fresh_world_data TestJsonFacts.two_accounts_roundtrip)
    as [_ H].
  by rewrite H.
Defined.

Lemma addAccount_upserts_witness :
  result (getAccount TestJson.store16 (js "erin")
            (world (addAccount TestJson.store16 TestJson.erin2 TestJson.two_accounts_world)))
  = Ok (Some TestJson.erin2) /\
  result (loadAccounts TestJson.store16
            (world (addAccount TestJson.store16 TestJson.erin2 TestJson.two_accounts_world)))
  = Ok (JArray [TestJson.dave; TestJson.erin2]).
Proof.
  destruct (addAccount_upserts (Laws := TestJsonFacts.json_laws)
              (Text := TestJsonFacts.json_text) TestJson.store16 TestJson.erin2 (js "erin")
              [TestJson.dave; TestJson.erin] TestJson.two_accounts_world
              TestJsonFacts.two_accounts_data TestJsonFacts.two_accounts_loaded)
    as (_ & H1 & H2 & _).
  - reflexivity.
  - eexists. vm_compute. reflexivity.
  - split; vm_compute; reflexivity.
  - split; [exact H2 | exact H1].
Defined.

Lemma removeAccount_outcome_witness :
  result (removeAccount TestJson.store16 (js "dave") TestJson.two_accounts_world) = Ok true /\
  result (getAccount TestJson.store16 (js "dave")
            (world (removeAccount TestJson.store16 (js "dave") TestJson.two_accounts_world)))
  = Ok None /\
  result (removeAccount TestJson.store16 (js "frank") TestJson.two_accounts_world) = Ok false.
Proof.
  destruct (removeAccount_outcome (Laws := TestJsonFacts.json_laws)
              (Text := TestJsonFacts.json_text) TestJson.store16 (js "dave")
              [TestJson.dave; TestJson.erin] [TestJson.erin] TestJson.two_accounts_world
              TestJsonFacts.two_accounts_data TestJsonFacts.two_accounts_loaded)
    as [_ Hyes]; [vm_compute; reflexivity|].
  destruct (removeAccount_outcome (Laws := TestJsonFacts.json_laws)
              (Text := TestJsonFacts.json_text) TestJson.store16 (js "frank")
              [TestJson.dave; TestJson.erin] [TestJson.dave; TestJson.erin]
              TestJson.two_accounts_world
              TestJsonFacts.two_accounts_data TestJsonFacts.two_accounts_loaded)
    as [Hno _]; [vm_compute; reflexivity|].
  destruct Hyes as (H1 & _ & H2 & _).
  - vm_compute. discriminate.
  - split; vm_compute; reflexivity.
  - destruct Hno as [H3 _]; [vm_compute; reflexivity|].
    split; [exact H1|]. split; [exact H2 | exact H3].
Defined.

Lemma addAccount_unreadable_witness :
  loadAccounts TestJson.store16
    (world (addAccount TestJson.store16 TestJson.dave TestJson.damaged_world))
  = (Ok (JArray [TestJson.dave]),
     world (addAccount TestJson.store16 TestJson.dave TestJson.damaged_world), []).
Proof.
  apply (addAccount_unreadable (Laws := TestJsonFacts.json_laws)
           (Text := TestJsonFacts.json_text) TestJson.store16 TestJson.dave
           [1; 2; 3] 0%float TestJson.damaged_world).
  - reflexivity.
  - vm_compute. reflexivity.
  - split; vm_compute; reflexivity.
Defined.
(* ================================================================== *)
(** * The switches of the auto-reconnect, and hasToken *)
(* ================================================================== *)

Section Switches.
Context {L : NodeLib}.

(** X21. While a reconnect is pending for an offline account,
    [enableAutoReconnect] replaces the account on record without
    touching any timer, and the timer, when it fires, logs in the
    account given; [disableAutoReconnect] cancels the reconnect: nothing
    is pending, no timer is armed to reconnect the account, and the old
    timer does nothing if it is run. *)
Theorem auto_reconnect_switches (a : Account) (h : nat) (r : Runtime) :
  consistent (base r) ->
  reconnectTimers (base r) !! username a = Some h ->
  activeClients (base r) !! username a = None ->
  token_not_directory (username a) (base r) ->
  (timers (world (enableAutoReconnect a (base r))) = timers (base r) /\
   (run_timer h (mkRuntime (world (enableAutoReconnect a (base r)))
                   (notifyCallback r))).1.1
   = Ok (Some (a, fresh (dom (clients (base r)))))) /\
  (result (isPendingReconnect (username a)
             (world (disableAutoReconnect (username a) (base r)))) = Ok false /\
   armed_reconnects (username a)
     (world (disableAutoReconnect (username a) (base r))) = ∅ /\
   run_timer h (mkRuntime (world (disableAutoReconnect (username a) (base r)))
                  (notifyCallback r))
   = (Ok None,
      mkRuntime (world (disableAutoReconnect (username a) (base r))) (notifyCallback r),
      [])).
Proof.
  intros Hw Hr Hoff Hnd. split.
  - split; [reflexivity|].
    pose proof (consistent_enableAutoReconnect a (base r) Hw) as Hw1.
    set (r1 := mkRuntime (world (enableAutoReconnect a (base r))) (notifyCallback r)).
    destruct (run_timer_offline h (username a) r1 Hw1 Hr Hoff)
      as (acc & w' & evs & Hacc & _ & Hrun & _); [exact Hnd|].
    rewrite Hrun. cbn [fst]. subst r1. cbn in Hacc.
    rewrite lookup_insert_eq in Hacc. by injection Hacc as <-.
  - unfold disableAutoReconnect.
    destruct (consistent_cancelReconnect (username a) (base r) Hw) as [Hw1 Hn].
    split; [unfold isPendingReconnect, gets, result; cbn [fst]; by rewrite Hn|].
    split; [by apply not_pending_none_armed|].
    rewrite (cancelReconnect_world (username a) (base r)). cbn [world fst snd].
    unfold run_timer.
    erewrite (bindN_ok (lift (gets _))) by reflexivity.
    cbn [fst snd base app notifyCallback List.map timers].
    unfold cancelled. rewrite Hr, lookup_alter_eq.
    by destruct (timers (base r) !! h) as [[todo d st]|].
Qed.

(** X22. [hasToken] tells what the next [login] will present: a token when
    it answers [true], the account name and the password when it
    answers [false]. *)
Theorem hasToken_predicts_login (a : Account) (w : World) :
  token_not_directory (username a) w ->
  exists answer steamUser options,
    result (hasToken (username a) w) = Ok answer /\
    logOn_calls (events (login a w)) = [(steamUser, options)] /\
    (answer = true <-> is_Some (refreshToken options)) /\
    (answer = false <->
     accountName options = Some (username a) /\
     opt_password options = Some (password a)).
Proof.
  intros Hnd.
  destruct (loadToken_saved_token (username a) w Hnd) as [Hres _].
  destruct (login_summary a w Hnd) as (w' & evs & -> & Hon & _).
  exists (match saved_token (username a) w with Some _ => true | None => false end).
  exists (fresh (dom (clients w))), (credentials a w).
  split.
  { unfold hasToken, bind, result in *. destruct (loadToken (username a) w) as [[x w1] e1].
    cbn in Hres. subst x. reflexivity. }
  split; [exact Hon|]. unfold credentials.
  destruct (saved_token (username a) w) as [token|]; cbn.
  - split; [split; eauto|]. split; [discriminate | intros [[=] _]].
  - split; [split; [discriminate | intros [x [=]]]|]. split; auto.
Qed.
End Switches.

Lemma auto_reconnect_switches_witness :
  (run_timer 1 (mkRuntime (world (enableAutoReconnect bob
                                    (base (run_ops bob_disconnected loaded_runtime))))
                  false)).1.1
  = Ok (Some (bob, 1%nat)) /\
  result (isPendingReconnect (js "bob")
            (world (disableAutoReconnect (js "bob")
                      (base (run_ops bob_disconnected loaded_runtime))))) = Ok false.
Proof.
  destruct (auto_reconnect_switches bob 1 (run_ops bob_disconnected loaded_runtime)
              bob_disconnected_consistent) as [[_ H1] [H2 _]].
  - vm_compute. reflexivity.
  - vm_compute. reflexivity.
  - apply bob_disconnected_not_directory.
  - split; [exact H1 | exact H2].
Defined.

Lemma hasToken_predicts_login_witness :
  exists steamUser options,
    result (hasToken (js "alice") saved_world) = Ok true /\
    logOn_calls (events (login alice saved_world)) = [(steamUser, options)] /\
    is_Some (refreshToken options).
Proof.
  destruct (hasToken_predicts_login (L := TestLib.lib) alice saved_world
              saved_world_not_directory)
    as (answer & steamUser & options & Hres & Hon & Hyes & _).
  assert (Ht : result (hasToken (js "alice") saved_world) = Ok true)
    by (vm_compute; reflexivity).
  exists steamUser, options. split; [exact Ht|]. split; [exact Hon|].
  apply Hyes. change (username alice) with (js "alice") in Hres. congruence.
Defined.
(* ================================================================== *)
(** * Two attempts for one account *)
(* ================================================================== *)

Section StaleAttempt.
Context {L : NodeLib}.

Lemma scheduleReconnect_no_logOff (a : Account) (w : World) :
  token_not_directory (username a) w ->
  logOff_calls (events (scheduleReconnect a w)) = [].
Proof.
  intros Hnd.
  assert (Hl : logOff_calls (events (loadToken (username a) w)) = []).
  { destruct (loadToken_world _ _ Hnd) as [[-> _] | (_ & -> & _)]; reflexivity. }
  destruct (reconnectTimers w !! username a) as [h|] eqn:Hp.
  - by rewrite (scheduleReconnect_pending a w h Hp).
  - rewrite (scheduleReconnect_fresh a w Hp Hnd).
    destruct (eligible a w); cbn [events snd]; by rewrite logOff_calls_app, Hl.
Qed.

(** X23. [login] tears down the session registered for the account and
    nothing else: an earlier attempt that is still pending keeps its
    listeners.  When such an attempt reports an error after another
    client of the same account was logged on, its listener takes the
    account offline, while the client that is online is neither told to
    log off nor changed. *)
Theorem stale_attempt_error store (guardCallback : bool) (c1 c2 t1 : nat)
    (a : Account) (message : jsstring) (cl2 : Client) (r : Runtime) :
  token_not_directory (username a) (base r) ->
  clients (base r) !! c1 = Some (mkClient a true None (Some t1)) ->
  activeClients (base r) !! username a = Some c2 ->
  c1 <> c2 ->
  clients (base r) !! c2 = Some cl2 ->
  clients (world (login a (base r))) !! c1 = Some (mkClient a true None (Some t1)) /\
  (deliver store guardCallback c1 (EvError message) r).1.1 = Ok tt /\
  result (isOnline (username a)
            (base (deliver store guardCallback c1 (EvError message) r).1.2)) = Ok false /\
  logOff_calls (earlier (deliver store guardCallback c1 (EvError message) r).2) = [] /\
  clients (base (deliver store guardCallback c1 (EvError message) r).1.2) !! c2 = Some cl2.
Proof.
  intros Hnd Hc1 Hact Hne Hc2. split.
  { destruct (login_summary a (base r) Hnd) as (w' & evs & -> & _ & _ & _ & _ & _ & _ & Hcl & _).
    cbn [world fst snd]. rewrite Hcl. unfold torn_down. rewrite Hact.
    rewrite lookup_insert_ne, lookup_alter_ne by
      (try congruence; intros <-; rewrite fresh_client_absent in Hc1; discriminate).
    exact Hc1. }
  rewrite (deliver_listening _ _ _ _ a None t1 r Hc1), lift_run.
  destruct (login_on_error_run c1 a t1 message (base r) Hnd)
    as (wc & ws & evs & Hwc & Hs & ->).
  unfold result, world, events. cbn [fst snd base]. rewrite earlier_map.
  set (wr := world (removeAllListeners c1 wc)) in *.
  assert (Hndr : token_not_directory (username a) wr).
  { intros t. change (lookup_entry (tokenPath (username a)) wc <> Some (Directory t)).
    rewrite Hwc. destruct (is_credential_error message).
    - rewrite lookup_entry_remove_eq. discriminate.
    - apply (Hnd t). }
  assert (Hwr : activeClients wr = delete (username a) (activeClients (base r)) /\
                clients wr = alter mute c1 (clients (base r))).
  { subst wr. rewrite Hwc.
    destruct (is_credential_error message); [|split; reflexivity].
    unfold remove_entry. cbn. destruct (tokensDir (base r)); split; reflexivity. }
  destruct Hwr as [Hawr Hcwr].
  assert (Hws : activeClients ws = activeClients wr /\ clients ws = clients wr /\
                logOff_calls evs = []).
  { destruct (is_temporary_error message).
    - destruct (scheduleReconnect_summary a wr Hndr)
        as (ws' & evs' & Hs' & _ & _ & Ha & Hc & _).
      pose proof (scheduleReconnect_no_logOff a wr Hndr) as Hq.
      rewrite Hs in Hs', Hq. injection Hs' as <- <-. by repeat split.
    - destruct Hs as [-> ->]. by repeat split. }
  destruct Hws as (Haws & Hcws & Hq).
  split; [reflexivity|].
  split.
  { unfold isOnline, gets. cbn. by rewrite Haws, Hawr, lookup_delete_eq. }
  split.
  { cbn [app logOff_calls]. rewrite logOff_calls_app, Hq.
    by destruct (is_credential_error message). }
  cbn. rewrite lookup_alter_ne by exact Hne.
  by rewrite Hcws, Hcwr, lookup_alter_ne.
Qed.
End StaleAttempt.

Lemma stale_attempt_error_witness :
  activeClients (base (run_ops two_attempts loaded_runtime)) !! js "bob" = Some 1%nat /\
  result (isOnline (js "bob")
            (base (deliver (fun _ => None) false 0 (EvError (js "LoggedInElsewhere"))
                     (run_ops two_attempts loaded_runtime)).1.2)) = Ok false /\
  logOff_calls
    (earlier (deliver (fun _ => None) false 0 (EvError (js "LoggedInElsewhere"))
                (run_ops two_attempts loaded_runtime)).2) = [].
Proof.
  split; [vm_compute; reflexivity|].
  destruct (stale_attempt_error (L := TestLib.lib) (fun _ => None) false 0 1 0 bob
              (js "LoggedInElsewhere")
              (mkClient bob true (Some (mkLoginResult true None)) (Some 1%nat))
              (run_ops two_attempts loaded_runtime))
    as (_ & _ & H1 & H2 & _).
  - intros t. vm_compute. discriminate.
  - vm_compute. reflexivity.
  - vm_compute. reflexivity.
  - discriminate.
  - vm_compute. reflexivity.
  - split; [exact H1 | exact H2].
Defined.
